(** * Markdown to Tana Paste converter: a shallow embedding of
      [tana_converter.py] and the properties of its conversion core.

    A Python [str] is a sequence of Unicode code points; it is modelled as a
    list of code points ([N]).  Regular expressions of the [re] module are
    values of the type [re] below, run by a backtracking matcher that follows
    the priorities of the Python engine (ordered alternation, greedy and lazy
    repetition, capturing groups, negative lookahead).  Exceptions raised by
    the Python code are results [Raise e]; the one [while] loop whose end is
    not plain from its shape runs on fuel, and [convert_to_tana_ends] shows
    that the fuel is never used up. *)

From Stdlib Require Import List NArith ZArith Bool Arith Lia String Ascii.
Import ListNotations.

Set Implicit Arguments.

(** ** Characters and strings *)

Definition char := N.
Definition str := list char.

(** A string literal of the source, as a list of code points (ASCII only). *)
Definition py (s : string) : str := map N_of_ascii (list_ascii_of_string s).

Definition NL : char := 10%N.

Definition char_eqb (a b : char) : bool := N.eqb a b.

Fixpoint str_eqb (a b : str) : bool :=
  match a, b with
  | [], [] => true
  | x :: a', y :: b' => char_eqb x y && str_eqb a' b'
  | _, _ => false
  end.

Definition in_range (lo hi c : N) : bool := (N.leb lo c && N.leb c hi)%bool.

(** [str.isspace] on one code point, which is also the class [\s] of [re]
    on [str] patterns. *)
Definition isspace (c : char) : bool :=
  (in_range 9 13 c || in_range 28 32 c || N.eqb c 133 || N.eqb c 160
   || N.eqb c 5760 || in_range 8192 8202 c || N.eqb c 8232 || N.eqb c 8233
   || N.eqb c 8239 || N.eqb c 8287 || N.eqb c 12288)%bool.

(** The code points of the digit zero of every Unicode decimal system
    (category Nd); the nine code points after each are its digits 1 to 9. *)
Definition decimal_zeros : list N :=
  [48; 1632; 1776; 1984; 2406; 2534; 2662; 2790; 2918; 3046; 3174; 3302;
   3430; 3558; 3664; 3792; 3872; 4160; 4240; 6112; 6160; 6470; 6608; 6784;
   6800; 6992; 7088; 7232; 7248; 42528; 43216; 43264; 43472; 43504; 43600;
   44016; 65296; 66720; 68912; 69734; 69872; 69942; 70096; 70384; 70736;
   70864; 71248; 71360; 71472; 71904; 72016; 72784; 73040; 73120; 92768;
   92864; 93008; 120782; 120792; 120802; 120812; 120822; 123200; 123632;
   125264; 130032]%N.

Fixpoint digit_in (zs : list N) (c : char) : option N :=
  match zs with
  | [] => None
  | z :: zs' => if in_range z (z + 9) c then Some (c - z)%N else digit_in zs' c
  end.

(** The value of a decimal digit, [None] for any other character. *)
Definition digit_value (c : char) : option N := digit_in decimal_zeros c.

(** The class [\d]. *)
Definition isdigit (c : char) : bool :=
  match digit_value c with Some _ => true | None => false end.

Definition is_upper (c : char) : bool := in_range 65 90 c.   (* [A-Z] *)
Definition is_lower (c : char) : bool := in_range 97 122 c.  (* [a-z] *)
Definition is_chr (x : char) (c : char) : bool := N.eqb c x.
Definition not_nl (c : char) : bool := negb (N.eqb c NL).    (* . *)

(** ** Python string primitives *)

Fixpoint lstrip (s : str) : str :=
  match s with
  | c :: s' => if isspace c then lstrip s' else s
  | [] => []
  end.

Definition rstrip (s : str) : str := rev (lstrip (rev s)).

Definition strip (s : str) : str := rstrip (lstrip s).

Fixpoint startswith (p s : str) : bool :=
  match p, s with
  | [], _ => true
  | x :: p', y :: s' => char_eqb x y && startswith p' s'
  | _ :: _, [] => false
  end.

Definition endswith (p s : str) : bool := startswith (rev p) (rev s).

(** [p in s] for a non-empty pattern. *)
Fixpoint contains (p s : str) : bool :=
  match s with
  | [] => match p with [] => true | _ => false end
  | _ :: s' => startswith p s || contains p s'
  end.

(** [s.split('\n')]: always at least one piece. *)
Fixpoint split_nl (s : str) : list str :=
  match s with
  | [] => [[]]
  | c :: s' =>
      if N.eqb c NL then [] :: split_nl s'
      else match split_nl s' with
           | l :: ls => (c :: l) :: ls
           | [] => [[c]]
           end
  end.

(** [sep.join(xs)]. *)
Fixpoint join (sep : str) (xs : list str) : str :=
  match xs with
  | [] => []
  | [x] => x
  | x :: xs' => x ++ sep ++ join sep xs'
  end.

(** [s * n]. *)
Fixpoint str_mul (s : str) (n : nat) : str :=
  match n with 0 => [] | S n' => s ++ str_mul s n' end.

(** [s.zfill(2)] (no sign handling is needed for digit strings). *)
Definition zfill2 (s : str) : str :=
  match s with
  | [] => py "00"
  | [c] => 48%N :: [c]
  | _ => s
  end.

(** [int(s)] on a non-empty string of decimal digits. *)
Fixpoint int_acc (acc : N) (s : str) : option N :=
  match s with
  | [] => Some acc
  | c :: s' => match digit_value c with
               | Some d => int_acc (acc * 10 + d) s'
               | None => None
               end
  end.

Definition digit_char (d : nat) : char := (48 + N.of_nat d)%N.

Fixpoint str_of_nat_fuel (fuel n : nat) (acc : str) : str :=
  match fuel with
  | 0 => acc
  | S fuel' =>
      let acc' := digit_char (n mod 10) :: acc in
      if n / 10 =? 0 then acc' else str_of_nat_fuel fuel' (n / 10) acc'
  end.

(** [str(n)] for a natural number. *)
Definition str_of_nat (n : nat) : str := str_of_nat_fuel (S n) n [].

(** ** Results of fallible code *)

Inductive exn := IndexError | ValueError.

Inductive result (A : Type) :=
| Ok (a : A)
| Raise (e : exn)
| Loops.   (* the fuel of a [while] loop ran out *)

Arguments Ok {A} a.
Arguments Raise {A} e.
Arguments Loops {A}.

Definition bind {A B} (r : result A) (f : A -> result B) : result B :=
  match r with
  | Ok a => f a
  | Raise e => Raise e
  | Loops => Loops
  end.

Notation "x <- c1 ;; c2" := (bind c1 (fun x => c2))
  (at level 61, c1 at next level, right associativity).

(** [xs[i]] for a non-negative index. *)
Definition index {A} (xs : list A) (i : nat) : result A :=
  match nth_error xs i with
  | Some x => Ok x
  | None => Raise IndexError
  end.

(** ** Regular expressions

    Every repetition of the program's patterns applies to a single character
    class ([\s*], [\d{1,2}], [.*?], [[^:\n]+]) or is an optional group, so
    the syntax has a repetition of classes [Rep] and an option [Opt]. *)

Inductive re :=
| Eps
| Cls (p : char -> bool)                  (* one character of a class *)
| Lit (s : str)                           (* a literal string *)
| Rep (p : char -> bool) (lo : nat) (hi : option nat) (greedy : bool)
| Seq (a b : re)
| Alt (a b : re)                          (* a|b, a first *)
| Opt (a : re)                            (* (?:a)? *)
| Grp (n : nat) (a : re)                  (* the n-th capturing group *)
| NegLook (a : re)                        (* (?!a) *)
| Bol (multiline : bool)                  (* ^ *)
| Eol (multiline : bool).                 (* $ *)

(** The position of the matcher: the offset in the subject, the character
    before it and the rest of the subject. *)
Record cur := Cur { c_pos : nat; c_prev : option char; c_rest : str }.

(** Captured groups, the latest binding first. *)
Definition caps := list (nat * str).

Definition advance (p : char -> bool) (c : cur) : option cur :=
  match c_rest c with
  | x :: rest' => if p x then Some (Cur (S (c_pos c)) (Some x) rest') else None
  | [] => None
  end.

Fixpoint lit (s : str) (c : cur) : option cur :=
  match s with
  | [] => Some c
  | x :: s' => match advance (is_chr x) c with
               | Some c' => lit s' c'
               | None => None
               end
  end.

Definition hi_pred (hi : option nat) : option (option nat) :=
  match hi with
  | None => Some None
  | Some 0 => None
  | Some (S h) => Some (Some h)
  end.

(** Repetition of a class: the greedy form tries the longest run first and
    gives characters back one at a time, the lazy form the shortest first. *)
Fixpoint mrep {R} (p : char -> bool) (greedy : bool) (lo : nat) (hi : option nat)
    (pos : nat) (prev : option char) (rest : str)
    (k : cur -> option R) : option R :=
  let here (_ : unit) :=
    match lo with 0 => k (Cur pos prev rest) | S _ => None end in
  let more (_ : unit) :=
    match rest with
    | x :: rest' =>
        if p x then
          match hi_pred hi with
          | Some hi' => mrep p greedy (pred lo) hi' (S pos) (Some x) rest' k
          | None => None
          end
        else None
    | [] => None
    end in
  if greedy then
    match more tt with Some r => Some r | None => here tt end
  else
    match here tt with Some r => Some r | None => more tt end.

Definition at_bol (ml : bool) (c : cur) : bool :=
  match c_prev c with
  | None => true
  | Some x => ml && N.eqb x NL
  end.

Definition at_eol (ml : bool) (c : cur) : bool :=
  match c_rest c with
  | [] => true
  | x :: rest' => N.eqb x NL && (ml || match rest' with [] => true | _ => false end)
  end.

(** The backtracking matcher, in continuation-passing style: [k] is the rest
    of the pattern; [None] makes the matcher try its next choice. *)
Fixpoint rmatch {R} (r : re) (c : cur) (g : caps)
    (k : cur -> caps -> option R) : option R :=
  match r with
  | Eps => k c g
  | Cls p => match advance p c with Some c' => k c' g | None => None end
  | Lit s => match lit s c with Some c' => k c' g | None => None end
  | Rep p lo hi greedy =>
      mrep p greedy lo hi (c_pos c) (c_prev c) (c_rest c) (fun c' => k c' g)
  | Seq a b => rmatch a c g (fun c' g' => rmatch b c' g' k)
  | Alt a b =>
      match rmatch a c g k with
      | Some x => Some x
      | None => rmatch b c g k
      end
  | Opt a =>
      match rmatch a c g k with
      | Some x => Some x
      | None => k c g
      end
  | Grp n a =>
      rmatch a c g
        (fun c' g' => k c' ((n, firstn (c_pos c' - c_pos c) (c_rest c)) :: g'))
  | NegLook a =>
      match rmatch a c g (fun c' g' => Some tt) with
      | Some _ => None
      | None => k c g
      end
  | Bol ml => if at_bol ml c then k c g else None
  | Eol ml => if at_eol ml c then k c g else None
  end.

(** The number of capturing groups of a pattern. *)
Fixpoint ngroups (r : re) : nat :=
  match r with
  | Seq a b | Alt a b => ngroups a + ngroups b
  | Opt a | NegLook a => ngroups a
  | Grp _ a => S (ngroups a)
  | _ => 0
  end.

(** A match object: where the match starts, the matched text and the groups. *)
Record mobj := Mobj {
  m_start : nat; m_text : str; m_caps : caps;
  m_ngroups : nat   (* the number of groups of the pattern *)
}.

Fixpoint lookup (n : nat) (g : caps) : option str :=
  match g with
  | [] => None
  | (i, t) :: g' => if Nat.eqb i n then Some t else lookup n g'
  end.

(** [m.group(n)], [None] for a group that took no part in the match. *)
Definition group (m : mobj) (n : nat) : option str :=
  match n with
  | 0 => Some (m_text m)
  | _ => lookup n (m_caps m)
  end.

(** [m.group(n)] where the program uses it as a string. *)
Definition group_s (m : mobj) (n : nat) : str :=
  match group m n with Some t => t | None => [] end.

(** [m.groups()]: one entry per capturing group of the pattern. *)
Definition groups (m : mobj) : list (option str) :=
  map (fun i => lookup (S i) (m_caps m)) (seq 0 (m_ngroups m)).

Definition match_at (r : re) (c : cur) : option mobj :=
  match rmatch r c [] (fun c' g => Some (c', g)) with
  | Some (c', g) =>
      Some (Mobj (c_pos c) (firstn (c_pos c' - c_pos c) (c_rest c)) g
                 (ngroups r))
  | None => None
  end.

(** [re.match(r, s)]. *)
Definition re_match (r : re) (s : str) : option mobj :=
  match_at r (Cur 0 None s).

(** [re.sub(r, repl, s)] where the replacement function may read and update
    a state and may raise.  The subject is scanned from left to right; after
    a match the scan resumes at its end ([skip] counts the characters of the
    match still to pass).  No pattern of the program matches the empty
    string; for such a match the replacement is inserted and the scan moves
    on by one character. *)
Fixpoint sub_scan {St} (r : re) (repl : St -> mobj -> result (str * St))
    (st : St) (pos : nat) (prev : option char) (rest : str) (skip : nat)
    : result (str * St) :=
  match rest with
  | [] =>
      match skip with
      | 0 =>
          match match_at r (Cur pos prev []) with
          | Some m => repl st m
          | None => Ok ([], st)
          end
      | S _ => Ok ([], st)
      end
  | x :: rest' =>
      match skip with
      | S skip' => sub_scan r repl st (S pos) (Some x) rest' skip'
      | 0 =>
          match match_at r (Cur pos prev rest) with
          | Some m =>
              o <- repl st m ;;
              match List.length (m_text m) with
              | 0 =>
                  t <- sub_scan r repl (snd o) (S pos) (Some x) rest' 0 ;;
                  Ok (fst o ++ x :: fst t, snd t)
              | S n =>
                  t <- sub_scan r repl (snd o) (S pos) (Some x) rest' n ;;
                  Ok (fst o ++ fst t, snd t)
              end
          | None =>
              t <- sub_scan r repl st (S pos) (Some x) rest' 0 ;;
              Ok (x :: fst t, snd t)
          end
      end
  end.

Definition re_sub_st {St} (r : re) (repl : St -> mobj -> result (str * St))
    (st : St) (s : str) : result (str * St) :=
  sub_scan r repl st 0 None s 0.

(** [re.sub] with a replacement function without state. *)
Definition re_sub (r : re) (repl : mobj -> result str) (s : str) : result str :=
  o <- re_sub_st r (fun (_ : unit) m => t <- repl m ;; Ok (t, tt)) tt s ;;
  Ok (fst o).

(** Pattern notation helpers. *)
Definition seqs (rs : list re) : re := fold_right Seq Eps rs.
Fixpoint alts (rs : list re) : re :=
  match rs with
  | [] => NegLook Eps
  | [r] => r
  | r :: rs' => Alt r (alts rs')
  end.
Definition star (p : char -> bool) : re := Rep p 0 None true.
Definition plus (p : char -> bool) : re := Rep p 1 None true.
Definition rng (p : char -> bool) (lo hi : nat) : re := Rep p lo (Some hi) true.
Definition exactly (p : char -> bool) (n : nat) : re := Rep p n (Some n) true.
Definition L (s : string) : re := Lit (py s).

Definition ch (a : ascii) : char := N_of_ascii a.
Definition one_of (s : string) (c : char) : bool :=
  existsb (char_eqb c) (py s).
Definition none_of (s : string) (c : char) : bool := negb (one_of s c).

(** ** The data model *)

(** [class Line]; [parent] is [None] until the hierarchy builder sets it to
    -1 or to the index of a line. *)
Record Line := mkLine {
  content : str;
  indent : nat;
  raw : str;
  is_header : bool;
  is_code_block : bool;
  parent : option Z
}.

Definition set_parent (l : Line) (p : option Z) : Line :=
  mkLine (content l) (indent l) (raw l) (is_header l) (is_code_block l) p.

Inductive date_type := Simple | TimeStamped | Week | Duration.

(** [class ParsedDate]. *)
Record ParsedDate := mkDate {
  d_type : date_type;
  d_value : str;
  is_processed : bool
}.

(** ** parse_line *)

Definition leading_ws_re : re := seqs [Bol false; Grp 1 (star isspace)].

Definition parse_line (line : str) : Line :=
  let spaces :=
    match re_match leading_ws_re line with
    | Some m => List.length (group_s m 1)
    | None => 0
    end in
  let content := rstrip (skipn spaces line) in
  mkLine content (spaces / 2) line
         (startswith (py "#") content) (startswith (py "```") content) None.

(** ** build_hierarchy *)

Record bh_state := mkBh {
  last_header : option nat;
  last_parent_at_level : list Z;
  bh_in_code_block : bool;
  code_block_parent : option Z
}.

Definition bh_init : bh_state := mkBh None [(-1)%Z] false None.

(** [xs[-1]]. *)
Definition last_elem (xs : list Z) : result Z :=
  match rev xs with
  | x :: _ => Ok x
  | [] => Raise IndexError
  end.

Definition hashes_re : re := seqs [Bol false; plus (is_chr (ch "#"))].

(** [xs[i] = v] for an index inside the list. *)
Fixpoint list_set (xs : list Z) (i : nat) (v : Z) : list Z :=
  match xs, i with
  | [], _ => []
  | _ :: xs', 0 => v :: xs'
  | x :: xs', S i' => x :: list_set xs' i' v
  end.

(** One iteration of the loop of [build_hierarchy] on line [i]. *)
Definition bh_step (st : bh_state) (i : nat) (line : Line)
    : result (bh_state * Line) :=
  let content := strip (content line) in
  match content with
  | [] => Ok (st, line)                       (* empty line: continue *)
  | _ :: _ =>
    if (is_code_block line || bh_in_code_block st)%bool then
      st1 <- (if bh_in_code_block st then Ok st
              else p <- last_elem (last_parent_at_level st) ;;
                   Ok (mkBh (last_header st) (last_parent_at_level st)
                            true (Some p))) ;;
      let line' := set_parent line (code_block_parent st1) in
      let st2 :=
        if (is_code_block line && bh_in_code_block st1)%bool
        then mkBh (last_header st1) (last_parent_at_level st1) false None
        else st1 in
      Ok (st2, line')
    else if is_header line then
      let level :=
        match re_match hashes_re content with
        | Some m => List.length (m_text m)
        | None => 1
        end in
      Ok (mkBh (Some i)
               (firstn level (last_parent_at_level st) ++ [Z.of_nat i])
               (bh_in_code_block st) (code_block_parent st),
          set_parent line (Some (-1)%Z))
    else
      let effective_indent := indent line in
      (* while len(last_parent_at_level) > effective_indent + 1: pop() *)
      let stack := firstn (effective_indent + 1) (last_parent_at_level st) in
      p <- (match effective_indent, last_header st with
            | 0, Some h => Ok (Z.of_nat h)
            | 0, None => Ok (-1)%Z
            | S e, _ => index stack e
            end) ;;
      let stack' :=
        if List.length stack <=? effective_indent
        then stack ++ [Z.of_nat i]
        else list_set stack effective_indent (Z.of_nat i) in
      Ok (mkBh (last_header st) stack'
               (bh_in_code_block st) (code_block_parent st),
          set_parent line (Some p))
  end.

(** The loop over the lines from index [i] on: the state at the end and the
    lines with their parents. *)
Fixpoint bh_loop (st : bh_state) (i : nat) (lines : list Line)
    : result (bh_state * list Line) :=
  match lines with
  | [] => Ok (st, [])
  | line :: rest =>
      o <- bh_step st i line ;;
      t <- bh_loop (fst o) (S i) rest ;;
      Ok (fst t, snd o :: snd t)
  end.

Definition build_hierarchy (lines : list Line) : result (list Line) :=
  o <- bh_loop bh_init 0 lines ;;
  Ok (snd o).

(** ** Dates *)

Definition get_month_number (month : str) : str :=
  let table :=
    [("January", "01"); ("Jan", "01"); ("February", "02"); ("Feb", "02");
     ("March", "03"); ("Mar", "03"); ("April", "04"); ("Apr", "04");
     ("May", "05"); ("June", "06"); ("Jun", "06"); ("July", "07");
     ("Jul", "07"); ("August", "08"); ("Aug", "08"); ("September", "09");
     ("Sep", "09"); ("October", "10"); ("Oct", "10"); ("November", "11");
     ("Nov", "11"); ("December", "12"); ("Dec", "12")]%string in
  match find (fun e => str_eqb (py (fst e)) month) table with
  | Some e => py (snd e)
  | None => py "01"
  end.

Definition d12 : re := rng isdigit 1 2.          (* \d{1,2} *)
Definition d2 : re := exactly isdigit 2.         (* \d{2} *)
Definition d4 : re := exactly isdigit 4.         (* \d{4} *)
Definition ws0 : re := star isspace.             (* \s* *)
Definition ws1 : re := plus isspace.             (* \s+ *)
Definition word : re := seqs [Cls is_upper; plus is_lower].  (* [A-Z][a-z]+ *)
Definition ordinal : re := Opt (alts [L "st"; L "nd"; L "rd"; L "th"]).
Definition weekday : re :=
  Opt (seqs [alts [L "Mon"; L "Tue"; L "Wed"; L "Thu"; L "Fri"; L "Sat"; L "Sun"];
             L ","; ws1]).
Definition cmd_sign : re := Opt (seqs [Lit [8984%N]; ws1]).  (* (?:⌘\s+)? *)
Definition iso_day : re := seqs [d4; L "-"; d2; L "-"; d2].  (* \d{4}-\d{2}-\d{2} *)

Definition week_re : re :=
  seqs [Bol false; L "Week "; Grp 1 d12; L ","; ws0; Grp 2 d4; Eol false].
Definition week_range_re : re :=
  seqs [Bol false; L "Weeks "; Grp 1 d12; L "-"; Grp 2 d12; L ","; ws0;
        Grp 3 d4; Eol false].
Definition iso_time_re : re :=
  seqs [Bol false; Grp 1 iso_day; ws1; Grp 2 (seqs [d2; L ":"; d2]); Eol false].
Definition legacy_time_re : re :=
  seqs [Bol false; weekday; Grp 1 word; ws1; Grp 2 d12; ordinal; L ","; ws0;
        Grp 3 d4;
        Opt (seqs [L ","; ws0; Grp 4 d12; L ":"; Grp 5 d2; ws0;
                   Grp 6 (alts [L "AM"; L "PM"])]);
        Eol false].
Definition duration_re : re :=
  seqs [Bol false; Grp 1 word; ws1; Grp 2 d12; ordinal; ws0; L "-"; ws0;
        Grp 3 word; ws1; Grp 4 d12; ordinal; L ","; ws0; Grp 5 d4; Eol false].
Definition iso_duration_re : re :=
  seqs [Bol false; Grp 1 iso_day; L "/"; Grp 2 iso_day; Eol false].
Definition iso_re : re := seqs [Bol false; Grp 1 iso_day; Eol false].
Definition month_year_re : re :=
  seqs [Bol false; weekday; Grp 1 word; Opt ws1; cmd_sign; Grp 2 d4; Eol false].
Definition year_re : re := seqs [Bol false; cmd_sign; Grp 1 d4; Eol false].

(** A group as the program formats it in an f-string or tests it. *)
Definition gs (o : option str) : str :=
  match o with Some t => t | None => [] end.
Definition truthy (o : option str) : bool :=
  match o with Some (_ :: _) => true | _ => false end.

(** [f"{h:02d}"]. *)
Definition fmt_02d (h : N) : str :=
  let t := str_of_nat (N.to_nat h) in
  match t with [c] => 48%N :: [c] | _ => t end.

(** [parse_date].  Each branch unpacks [m.groups()] into the names the
    source lists, a leading [_] included; a tuple of another length raises
    [ValueError]. *)
Definition parse_date (text : str) : result (option ParsedDate) :=
  if (startswith (py "[[date:") text && endswith (py "]]") text)%bool then
    Ok (Some (mkDate Simple text true))
  else
  match re_match week_re text with
  | Some m =>
      match groups m with
      | [_; week; year] =>
          Ok (Some (mkDate Week (gs year ++ py "-W" ++ zfill2 (gs week)) false))
      | _ => Raise ValueError
      end
  | None =>
  match re_match week_range_re text with
  | Some m =>
      match groups m with
      | [_; week1; week2; year] =>
          Ok (Some (mkDate Duration
                (gs year ++ py "-W" ++ zfill2 (gs week1) ++ py "/W"
                 ++ zfill2 (gs week2)) false))
      | _ => Raise ValueError
      end
  | None =>
  match re_match iso_time_re text with
  | Some m =>
      match groups m with
      | [_; date; time] =>
          Ok (Some (mkDate TimeStamped (gs date ++ py " " ++ gs time) false))
      | _ => Raise ValueError
      end
  | None =>
  match re_match legacy_time_re text with
  | Some m =>
      match groups m with
      | [_; month; day; year; hour; min; ampm] =>
          if (truthy hour && truthy min && truthy ampm)%bool then
            match int_acc 0 (gs hour) with
            | None => Raise ValueError
            | Some h =>
                let adjusted_hour :=
                  if (str_eqb (gs ampm) (py "PM") && N.ltb h 12)%bool
                  then (h + 12)%N
                  else if (str_eqb (gs ampm) (py "AM") && N.eqb h 12)%bool
                  then 0%N
                  else h in
                Ok (Some (mkDate TimeStamped
                      (gs year ++ py "-" ++ get_month_number (gs month)
                       ++ py "-" ++ zfill2 (gs day) ++ py " "
                       ++ fmt_02d adjusted_hour ++ py ":" ++ gs min) false))
            end
          else
            Ok (Some (mkDate Simple
                  (gs year ++ py "-" ++ get_month_number (gs month)
                   ++ py "-" ++ zfill2 (gs day)) false))
      | _ => Raise ValueError
      end
  | None =>
  match re_match duration_re text with
  | Some m =>
      match groups m with
      | [_; month1; day1; month2; day2; year] =>
          Ok (Some (mkDate Duration
                (gs year ++ py "-" ++ get_month_number (gs month1) ++ py "-"
                 ++ zfill2 (gs day1) ++ py "/" ++ gs year ++ py "-"
                 ++ get_month_number (gs month2) ++ py "-"
                 ++ zfill2 (gs day2)) false))
      | _ => Raise ValueError
      end
  | None =>
  match re_match iso_duration_re text with
  | Some m =>
      match groups m with
      | [_; start; stop] =>
          Ok (Some (mkDate Duration (gs start ++ py "/" ++ gs stop) false))
      | _ => Raise ValueError
      end
  | None =>
  match re_match iso_re text with
  | Some m => Ok (Some (mkDate Simple (group_s m 1) false))
  | None =>
  match re_match month_year_re text with
  | Some m =>
      match groups m with
      | [_; month; year] =>
          Ok (Some (mkDate Simple
                (gs year ++ py "-" ++ get_month_number (gs month)) false))
      | _ => Raise ValueError
      end
  | None =>
  match re_match year_re text with
  | Some m => Ok (Some (mkDate Simple (group_s m 1) false))
  | None => Ok None
  end end end end end end end end end.

Definition format_tana_date (date : ParsedDate) : str :=
  if is_processed date then d_value date
  else py "[[date:" ++ d_value date ++ py "]]".

(** ** Protection of references and URLs, date conversion *)

Definition bracket_ref : re :=                     (* \[\[.*?\]\] *)
  seqs [L "[["; Rep not_nl 0 None false; L "]]"].

(** [(?:\[\[.*?\]\]|https?://[^\s)]+|\[[^\]]+\]\([^)]+\))] *)
Definition protect_re : re :=
  alts [bracket_ref;
        seqs [L "http"; Opt (L "s"); L "://";
              plus (fun c => negb (isspace c || is_chr (ch ")") c))];
        seqs [L "["; plus (none_of "]"); L "]("; plus (none_of ")"); L ")"]].

Definition placeholder (n : nat) : str :=
  py "__PROTECTED_" ++ str_of_nat n ++ py "__".

(** The replacement function of the protecting substitution: appends the
    match to [protected_items] and returns the placeholder of its index. *)
Definition protect_repl (items : list str) (m : mobj) : result (str * list str) :=
  Ok (placeholder (List.length (items ++ [m_text m]) - 1), items ++ [m_text m]).

Definition restore_re : re :=                      (* __PROTECTED_(\d+)__ *)
  seqs [L "__PROTECTED_"; Grp 1 (plus isdigit); L "__"].

(** [int(s)] as the interpreter gives it: CPython refuses a string of more
    than 4300 digits (the default of [sys.int_max_str_digits]) with
    [ValueError]. *)
Definition int_of_digits (s : str) : result N :=
  if (4300 <? N.of_nat (List.length s))%N then Raise ValueError
  else match int_acc 0 s with
       | Some n => Ok n
       | None => Raise ValueError
       end.

(** [protected_items[int(m.group(1))]]. *)
Definition restore_repl (items : list str) (m : mobj) : result str :=
  n <- int_of_digits (group_s m 1) ;;
  index items (N.to_nat n).

(** A canonical date reference with the value [v]. *)
Definition date_ref (v : str) : str := py "[[date:" ++ v ++ py "]]".

(** [\d{4}(?:-\d{2}(?:-\d{2})?)?(?:\s+\d{2}:\d{2})?] *)
Definition iso_span : re :=
  seqs [d4; Opt (seqs [L "-"; d2; Opt (seqs [L "-"; d2])]);
        Opt (seqs [ws1; d2; L ":"; d2])].

Definition date_pattern : re :=
  alts [
    seqs [Opt (L "[[date:");
          alts [bracket_ref;
                seqs [iso_span; Opt (seqs [L "/"; alts [bracket_ref; iso_span]])]];
          Opt (L "]]")];
    seqs [L "Week "; d12; L ","; ws0; d4];
    seqs [L "Weeks "; d12; L "-"; d12; L ","; ws0; d4];
    seqs [word; ws1; cmd_sign; d4];
    seqs [word; L " "; d12; ordinal; L ","; ws0; d4;
          Opt (seqs [L ","; ws0; d12; L ":"; d2; ws0; alts [L "AM"; L "PM"]])];
    seqs [word; L " "; d12; ordinal; ws0; L "-"; ws0;
          word; L " "; d12; ordinal; L ","; ws0; d4]].

Definition date_repl (m : mobj) : result str :=
  d <- parse_date (m_text m) ;;
  match d with
  | Some _ =>
      d' <- parse_date (m_text m) ;;
      match d' with
      | Some date => Ok (format_tana_date date)
      | None => Raise ValueError
      end
  | None => Ok (m_text m)
  end.

Definition convert_dates (text : str) : result str :=
  o <- re_sub_st protect_re protect_repl [] text ;;
  let protected_items := snd o in
  text1 <- re_sub date_pattern date_repl (fst o) ;;
  re_sub restore_re (restore_repl protected_items) text1.

(** ** Fields *)

(** [^(\s*[-*+]\s+)?([^:\n]+):\s+([^\n]+)$] with [re.MULTILINE]. *)
Definition field_re : re :=
  seqs [Bol true; Opt (Grp 1 (seqs [ws0; Cls (one_of "-*+"); ws1]));
        Grp 2 (plus (fun c => negb (is_chr (ch ":") c || N.eqb c NL)));
        L ":"; ws1; Grp 3 (plus not_nl); Eol true].

Definition field_repl (m : mobj) : result str :=
  if negb (startswith (py "[[") (group_s m 3))
  then Ok (group_s m 1 ++ group_s m 2 ++ py "::" ++ group_s m 3)
  else Ok (m_text m).

Definition convert_fields (text : str) : result str :=
  if contains (py "::") text then Ok text
  else if contains (py "|") text then Ok text
  else re_sub field_re field_repl text.

(** ** Inline formatting *)

Definition bold_re : re :=                 (* \*\*([^*]+)\*\* *)
  seqs [L "**"; Grp 1 (plus (none_of "*")); L "**"].
Definition italic_re : re :=               (* \*([^*]+)\* *)
  seqs [L "*"; Grp 1 (plus (none_of "*")); L "*"].
Definition highlight_re : re :=            (* ==([^=]+)== *)
  seqs [L "=="; Grp 1 (plus (none_of "=")); L "=="].
Definition image_re : re :=                (* image syntax: ![alt](url), alt possibly empty *)
  seqs [L "!["; Grp 1 (star (none_of "]")); L "]("; Grp 2 (plus (none_of ")"));
        L ")"].
Definition link_re : re :=                 (* \[([^\]]+)\]\(([^)]+)\) *)
  seqs [L "["; Grp 1 (plus (none_of "]")); L "]("; Grp 2 (plus (none_of ")"));
        L ")"].
Definition tag_re : re :=                  (* \(([^)]+)\) *)
  seqs [L "("; Grp 1 (plus (none_of ")")); L ")"].

Definition image_repl (m : mobj) : result str :=
  match group_s m 1 with
  | _ :: _ => Ok (group_s m 1 ++ py "::!" ++ group_s m 1 ++ py " " ++ group_s m 2)
  | [] => Ok (py "!Image " ++ group_s m 2)
  end.

Definition tag_repl (m : mobj) : result str :=
  if contains (py " ") (group_s m 1)
  then Ok (py "#[[" ++ group_s m 1 ++ py "]]")
  else if negb (startswith (py "[[") (group_s m 1))
  then Ok (py "#" ++ group_s m 1)
  else Ok (py "(" ++ group_s m 1 ++ py ")").

Definition process_inline_formatting (text : str) : result str :=
  o <- re_sub_st protect_re protect_repl [] text ;;
  let protected_items := snd o in
  t1 <- re_sub bold_re
          (fun m => Ok (py "**" ++ group_s m 1 ++ py "**")) (fst o) ;;
  t2 <- re_sub italic_re
          (fun m => Ok (py "__" ++ group_s m 1 ++ py "__")) t1 ;;
  t3 <- re_sub highlight_re
          (fun m => Ok (py "^^" ++ group_s m 1 ++ py "^^")) t2 ;;
  t4 <- re_sub image_re image_repl t3 ;;
  t5 <- re_sub link_re
          (fun m => Ok (group_s m 1 ++ py " " ++ group_s m 2)) t4 ;;
  t6 <- re_sub tag_re tag_repl t5 ;;
  re_sub restore_re (restore_repl protected_items) t6.

(** ** Code blocks *)

(** [lines[1:-1]]. *)
Definition interior {A} (xs : list A) : list A := removelast (tl xs).

Definition process_code_block (lines : list str) : str :=
  join [NL] (map strip (interior lines)).

(** ** convert_to_tana *)

(** An output node: its nesting depth and its content. *)
Record node := mkNode { n_depth : nat; n_text : str }.

(** [f"{indent}- {content}"] with [indent = "  " * depth]. *)
Definition render (n : node) : str :=
  str_mul (py "  ") (n_depth n) ++ py "- " ++ n_text n.

(** The [while] loop that follows the parent chain. *)
Fixpoint walk (fuel : nat) (hl : list Line) (current_parent : Line)
    (depth : nat) : result nat :=
  match fuel with
  | 0 => Loops
  | S fuel' =>
      match parent current_parent with
      | Some p =>
          if (0 <=? p)%Z then
            cp <- index hl (Z.to_nat p) ;;
            walk fuel' hl cp (S depth)
          else Ok depth
      | None => Ok depth
      end
  end.

Definition depth_of (hl : list Line) (line : Line) : result nat :=
  match parent line with
  | Some p =>
      if (0 <=? p)%Z then
        cp <- index hl (Z.to_nat p) ;;
        walk (S (List.length hl)) hl cp 1
      else Ok 0
  | None => Ok 0
  end.

Definition header_re : re :=               (* ^(#{1,6})\s+(.+)$ *)
  seqs [Bol false; Grp 1 (rng (is_chr (ch "#")) 1 6); ws1; Grp 2 (plus not_nl);
        Eol false].

Definition list_marker_re : re :=          (* ^[-*+]\s+(?!\[[ x]\]) *)
  seqs [Bol false; Cls (one_of "-*+"); ws1;
        NegLook (seqs [L "["; Cls (one_of " x"); L "]"])].

(** The content of a node that is not a code block. *)
Definition process_content (line : Line) (content : str) : result str :=
  if is_header line then
    match re_match header_re content with
    | Some m => Ok (py "!! " ++ group_s m 2)
    | None => Ok content
    end
  else
    t1 <- re_sub list_marker_re (fun _ => Ok []) content ;;
    t2 <- convert_fields t1 ;;
    t3 <- convert_dates t2 ;;
    process_inline_formatting t3.

Record emit_state := mkEmit {
  in_code_block : bool;
  code_block_lines : list str
}.

(** One iteration of the output loop: the new state and the node appended to
    [output], if any. *)
Definition emit_step (hl : list Line) (st : emit_state) (line : Line)
    : result (emit_state * option node) :=
  let content := strip (content line) in
  match content with
  | [] => Ok (st, None)
  | _ :: _ =>
    depth <- depth_of hl line ;;
    if (is_code_block line || in_code_block st)%bool then
      if negb (in_code_block st) then
        Ok (mkEmit true [raw line], None)
      else if is_code_block line then
        Ok (mkEmit false [],
            Some (mkNode depth
                    (process_code_block (code_block_lines st ++ [raw line]))))
      else
        Ok (mkEmit true (code_block_lines st ++ [raw line]), None)
    else
      processed_content <- process_content line content ;;
      Ok (st, Some (mkNode depth processed_content))
  end.

(** The output loop over the lines from index [i] on; every node comes with
    the index of the line at which it is appended. *)
Fixpoint emit_loop (hl : list Line) (st : emit_state) (i : nat)
    (lines : list Line) : result (emit_state * list (nat * node)) :=
  match lines with
  | [] => Ok (st, [])
  | line :: rest =>
      o <- emit_step hl st line ;;
      t <- emit_loop hl (fst o) (S i) rest ;;
      Ok (fst t,
          match snd o with
          | Some n => (i, n) :: snd t
          | None => snd t
          end)
  end.

Definition header_token : str := py "%%tana%%".
Definition no_text : str := py "No text selected.".

(** The nodes of the output, in order. *)
Definition convert_nodes (input_text : str) : result (list (nat * node)) :=
  let lines := map parse_line (split_nl input_text) in
  hierarchical_lines <- build_hierarchy lines ;;
  o <- emit_loop hierarchical_lines (mkEmit false []) 0 hierarchical_lines ;;
  Ok (snd o).

Definition convert_to_tana (input_text : str) : result str :=
  match input_text with
  | [] => Ok no_text
  | _ :: _ =>
      nodes <- convert_nodes input_text ;;
      Ok (join [NL] (header_token :: map (fun n => render (snd n)) nodes))
  end.

(** ** chunk_content *)

Definition len (s : str) : Z := Z.of_nat (List.length s).

Fixpoint chunk_loop (max_chunk_size : Z) (lines : list str)
    (chunks : list str) (current_chunk : list str) (current_size : Z)
    : list str * list str :=
  match lines with
  | [] => (chunks, current_chunk)
  | line :: rest =>
      let line_size := (len line + 1)%Z in
      if ((current_size + line_size >? max_chunk_size)%Z
          && (1 <? List.length current_chunk))%bool
      then chunk_loop max_chunk_size rest
             (chunks ++ [join [NL] current_chunk])
             ([header_token] ++ [line])
             (len (header_token ++ [NL]) + line_size)%Z
      else chunk_loop max_chunk_size rest chunks
             (current_chunk ++ [line]) (current_size + line_size)%Z
  end.

Definition chunk_content (content : str) (max_chunk_size : Z) : list str :=
  if (len content <=? max_chunk_size)%Z then [content]
  else
    let lines := split_nl content in
    let lines :=
      match lines with
      | l0 :: rest => if str_eqb l0 header_token then rest else lines
      | [] => lines
      end in
    let o := chunk_loop max_chunk_size lines [] [header_token]
               (len (header_token ++ [NL])) in
    if 1 <? List.length (snd o)
    then fst o ++ [join [NL] (snd o)]
    else fst o.

(** ** The claims of the specification that the code does not meet, as stated *)

(** "No chunk's length exceeds the budget except when a single line alone
    exceeds the budget (that line then forms its own oversized chunk)." *)
Definition chunk_budget_as_stated (content : str) (max_chunk_size : Z) : Prop :=
  Forall (fun c =>
            (len c <= max_chunk_size)%Z \/
            exists l, In l (split_nl content) /\ (max_chunk_size < len l)%Z /\
                      c = join [NL] [header_token; l])
         (chunk_content content max_chunk_size).

(** A chunk as [chunk_content] builds it: the header line, then the lines of
    the chunk. *)
Definition chunk_of (body : list str) : str := join [NL] (header_token :: body).

(** A chunk is within the budget, or it holds a single line. *)
Definition chunk_fits (max_chunk_size : Z) (body : list str) : Prop :=
  (len (chunk_of body) <= max_chunk_size)%Z \/ exists l, body = [l].

(** The size the loop of [chunk_content] counts for a list of lines. *)
Fixpoint lines_size (b : list str) : Z :=
  match b with
  | [] => 0%Z
  | l :: b' => (len l + 1 + lines_size b')%Z
  end.

(** The invariant of the chunking loop: the open chunk is empty, holds one
    line, or is within the budget. *)
Definition open_ok (max_chunk_size : Z) (b : list str) : Prop :=
  b = [] \/ (exists l, b = [l]) \/ (9 + lines_size b <= max_chunk_size)%Z.

(** A line without content: both loops skip it. *)
Definition blank (l : Line) : Prop := strip (content l) = [].

(** ** Kinds of lines, as the two loops tell them apart *)

Definition nonblankb (l : Line) : bool :=
  match strip (content l) with [] => false | _ :: _ => true end.

(** A fence line: it opens or closes a code block in the output loop. *)
Definition fenceb (l : Line) : bool := (nonblankb l && is_code_block l)%bool.

(** A line the hierarchy builder handles as a header. *)
Definition hdrb (l : Line) : bool :=
  (nonblankb l && negb (is_code_block l) && is_header l)%bool.

(** A list item or a paragraph line without indentation. *)
Definition plain0b (l : Line) : bool :=
  (nonblankb l && negb (is_code_block l) && negb (is_header l)
   && (indent l =? 0))%bool.

(** Whether a code block is open in the output loop after the lines [ls]. *)
Definition fence_open (ls : list Line) : bool :=
  fold_left (fun b l => if fenceb l then negb b else b) ls false.

(** [l'] is [l] with some parent. *)
Definition shape (l l' : Line) : Prop := exists p, l' = set_parent l p.

(** The character before the position once the matcher has passed [run]. *)
Definition prev_after (prev : option char) (run : str) : option char :=
  last (map Some run) prev.

(** The first character of a string is not a whitespace character. *)
Definition starts_solid (s : str) : Prop :=
  match s with [] => True | c :: _ => isspace c = false end.

(** All characters of a string are whitespace characters. *)
Definition all_space (s : str) : Prop := Forall (fun c => isspace c = true) s.

(** A heading line of the input: optional indentation, [level] hash signs,
    whitespace, the heading text, optional trailing whitespace. *)
Definition heading_line (level : nat) (text line : str) : Prop :=
  exists lead ws trail,
    line = lead ++ repeat (ch "#") level ++ ws ++ text ++ trail
    /\ all_space lead /\ all_space ws /\ ws <> [] /\ all_space trail
    /\ text <> [] /\ strip text = text.

(** The lines of the input as the converter parses them. *)
Definition parsed (lines : list str) : list Line := map parse_line lines.

(** C1 as stated: the node of a heading of level [level] has depth
    [level - 1]. *)
Definition heading_depth_as_stated (input : str) : Prop :=
  forall pre line post level text nodes,
    split_nl input = pre ++ line :: post ->
    heading_line level text line -> 1 <= level <= 6 ->
    convert_nodes input = Ok nodes ->
    In (List.length pre, mkNode (level - 1) (py "!! " ++ text)) nodes.

(** C2 as stated, second part: a list item without indentation that follows
    a paragraph line under a heading is one level deeper than the
    paragraph. *)
Definition list_under_paragraph_as_stated (input : str) : Prop :=
  forall pre heading para item post nodes np ni,
    split_nl input = pre ++ heading :: para :: item :: post ->
    hdrb (parse_line heading) = true ->
    plain0b (parse_line para) = true ->
    plain0b (parse_line item) = true ->
    convert_nodes input = Ok nodes ->
    In (List.length pre + 1, np) nodes ->
    In (List.length pre + 2, ni) nodes ->
    n_depth ni = S (n_depth np).

(** The text of the node of a code block whose interior lines are [mid]:
    the lines that are not blank, each one stripped, joined with line
    breaks. *)
Definition code_text (mid : list str) : str :=
  join [NL] (map strip (filter (fun l => nonblankb (parse_line l)) mid)).

(** C4 as stated: the node of a code block holds its interior raw lines
    joined with line breaks. *)
Definition code_block_text_as_stated (input : str) : Prop :=
  forall pre opening mid closing post nodes,
    split_nl input = pre ++ opening :: mid ++ closing :: post ->
    fence_open (parsed pre) = false ->
    fenceb (parse_line opening) = true ->
    fenceb (parse_line closing) = true ->
    Forall (fun l => fenceb (parse_line l) = false) mid ->
    convert_nodes input = Ok nodes ->
    exists d,
      In (List.length pre + List.length mid + 1, mkNode d (join [NL] mid)) nodes.

(** Every captured group satisfies a property of strings. *)
Definition caps_all (Q : str -> Prop) (g : caps) : Prop :=
  Forall (fun b => Q (snd b)) g.

(** A string without line break. *)
Definition no_nl (s : str) : Prop := Forall (fun c => c <> NL) s.

Definition no_nlb (s : str) : bool := forallb (fun c => negb (N.eqb c NL)) s.

(** A line of the output of the form [indent + "- " + content], the indent
    being two spaces per nesting level. *)
Definition node_line (l : str) : Prop :=
  exists d c, l = str_mul (py "  ") d ++ py "- " ++ c.

(** C5 as stated: the first line of the output is the header token and every
    later line that is not empty is a node line. *)
Definition output_format_as_stated (input : str) : Prop :=
  exists out, convert_to_tana input = Ok out /\
    match split_nl out with
    | first :: rest =>
        first = header_token /\ Forall (fun l => l = [] \/ node_line l) rest
    | [] => False
    end.

(** A list item or a paragraph line, with any indentation: the last branch
    of the loop of [build_hierarchy]. *)
Definition plainb (l : Line) : bool :=
  (nonblankb l && negb (is_code_block l) && negb (is_header l))%bool.

(** The level of a header line as [build_hierarchy] computes it: the number
    of hash signs at the start of the content. *)
Definition header_level (l : Line) : nat :=
  match re_match hashes_re (strip (content l)) with
  | Some m => List.length (m_text m)
  | None => 1
  end.

(** Whether the lines can be placed when [d] indent levels are open: a blank
    line and a fence line leave the open levels as they are, a header of
    level [n] leaves [min n d + 1] of them, and a list item or paragraph line
    of indent [e] needs [e <= d] and leaves [e + 1]. *)
Fixpoint placeable (d : nat) (ls : list Line) : bool :=
  match ls with
  | [] => true
  | l :: rest =>
      if negb (nonblankb l) then placeable d rest
      else if is_code_block l then placeable d rest
      else if is_header l then placeable (Nat.min (header_level l) d + 1) rest
      else (indent l <=? d) && placeable (indent l + 1) rest
  end.

(** Whether [re.match(r, t)] finds a match. *)
Definition matches (r : re) (t : str) : bool :=
  match re_match r t with Some _ => true | None => false end.

(** The texts on which [parse_date] reaches a branch that unpacks
    [m.groups()]: one of the six patterns tried before the plain ISO date,
    or the month and year pattern tried after it. *)
Definition unpacking_match (t : str) : bool :=
  (matches week_re t || matches week_range_re t || matches iso_time_re t
   || matches legacy_time_re t || matches duration_re t
   || matches iso_duration_re t
   || (negb (matches iso_re t) && matches month_year_re t))%bool.

(** The indices of the lines at which the output loop of [convert_to_tana]
    appends a node, from index [i] on, [open] telling whether a code block is
    open: a line outside a code block that is neither blank nor a fence, and
    the fence that closes a code block. *)
Fixpoint node_indices (open : bool) (i : nat) (ls : list Line) : list nat :=
  match ls with
  | [] => []
  | l :: rest =>
      if negb (nonblankb l) then node_indices open (S i) rest
      else if is_code_block l then
        if open then i :: node_indices false (S i) rest
        else node_indices true (S i) rest
      else if open then node_indices open (S i) rest
      else i :: node_indices open (S i) rest
  end.

(** The lines [chunk_content] distributes over the chunks: the lines of the
    content, without the first one when it is the header token. *)
Definition chunk_lines (content : str) : list str :=
  let lines := split_nl content in
  match lines with
  | l0 :: rest => if str_eqb l0 header_token then rest else lines
  | [] => lines
  end.

(** Chunks filled greedily: the first line of a chunk did not fit into the
    chunk before it, that is, with this line and the line break the loop
    counts after every line the chunk before would be longer than the
    budget. *)
Fixpoint packed (max_chunk_size : Z) (bodies : list (list str)) : Prop :=
  match bodies with
  | b1 :: rest =>
      match rest with
      | b2 :: _ =>
          (exists l r, b2 = l :: r
             /\ (max_chunk_size <= len (chunk_of (b1 ++ [l])))%Z)
          /\ packed max_chunk_size rest
      | [] => True
      end
  | [] => True
  end.

(** A chunk of several lines as the loop of [chunk_content] closes it: with
    the line break the loop counts after every line it is within the budget,
    so the chunk itself is shorter than the budget; or it holds a single
    line. *)
Definition chunk_tight (max_chunk_size : Z) (body : list str) : Prop :=
  (len (chunk_of body) < max_chunk_size)%Z \/ exists l, body = [l].

(** The lines distributed greedily over chunks: the chunks hold the lines in
    order, none is empty, each has room for the line break the loop counts
    or holds a single line, and the first line of the next chunk did not
    fit. *)
Definition greedy (max_chunk_size : Z) (lines : list str)
    (bodies : list (list str)) : Prop :=
  List.concat bodies = lines
  /\ Forall (fun b => b <> []) bodies
  /\ Forall (chunk_tight max_chunk_size) bodies
  /\ packed max_chunk_size bodies.

(** The computation of [main] between reading the input and writing the
    chunks: the conversion, then the chunking of its result. *)
Definition main_chunks (input_text : str) (chunk_size : Z)
    : result (list str) :=
  tana_output <- convert_to_tana input_text ;;
  Ok (chunk_content tana_output chunk_size).

(** A pattern that cannot match a text made of [ok]-characters: it has to
    pass a character that is not [ok]. *)
Fixpoint blocked (ok : char -> bool) (r : re) : Prop :=
  match r with
  | Cls p => forall c, ok c = true -> p c = false
  | Lit s => Exists (fun x => ok x = false) s
  | Rep p lo _ _ => 1 <= lo /\ forall c, ok c = true -> p c = false
  | Seq a b => blocked ok a \/ blocked ok b
  | Alt a b => blocked ok a /\ blocked ok b
  | Grp _ a => blocked ok a
  | _ => False
  end.

(** A character that takes no part in a reference, a link, a tag, a field,
    a highlight or a date: no digit and none of the characters [[], [=], [(]
    and [:]. *)
Definition quiet_char (c : char) : bool :=
  negb (isdigit c || one_of "[=(:" c).

(** A character of plain text: a quiet character other than the asterisk of
    bold and italic text. *)
Definition plain_char (c : char) : bool :=
  (quiet_char c && negb (is_chr (ch "*") c))%bool.

(** A character of a text of words in lower case: a letter from a to z or
    a space. *)
Definition word_char (c : char) : bool :=
  (is_lower c || is_chr (ch " ") c)%bool.

(** A pattern that cannot match at a character [x], whatever follows:
    [cant_start x r]; and a pattern that passes no character when it is
    tried at [x]: [skips x r]. *)
Fixpoint cant_start (x : char) (r : re) : Prop :=
  match r with
  | Cls p => p x = false
  | Lit s => match s with c :: _ => x <> c | [] => False end
  | Rep p lo _ _ => 1 <= lo /\ p x = false
  | Seq a b => cant_start x a \/ (skips x a /\ cant_start x b)
  | Alt a b => cant_start x a /\ cant_start x b
  | Grp _ a => cant_start x a
  | _ => False
  end
with skips (x : char) (r : re) : Prop :=
  match r with
  | Eps | NegLook _ | Bol _ | Eol _ => True
  | Opt a => cant_start x a
  | _ => False
  end.

(** The characters of an ISO date, and of an ISO date with time. *)
Definition iso_char (c : char) : bool := (isdigit c || is_chr (ch "-") c)%bool.
Definition stamp_char (c : char) : bool := (isdigit c || one_of "- :" c)%bool.

(** An ISO date YYYY-MM-DD of the parts [y], [mo] and [d]. *)
Definition iso_text (y mo d : str) : str := y ++ py "-" ++ mo ++ py "-" ++ d.

(** An ISO date with a time HH:MM behind the whitespace [ws]. *)
Definition stamp_text (y mo d ws hh mi : str) : str :=
  iso_text y mo d ++ ws ++ hh ++ py ":" ++ mi.

(** ** Example inputs *)

Definition chunk_example : str :=
  py "%%tana%%" ++ [NL] ++ py "- aaaaaaaaaaaaa" ++ [NL] ++ py "- b".

(** Three lines of which two fill a chunk to exactly 16 characters. *)
Definition exact_example : str :=
  py "%%tana%%" ++ [NL] ++ py "- a" ++ [NL] ++ py "- b" ++ [NL] ++ py "- c".

Definition indented_example : str := py "    foo".
Definition legacy_example : str := py "March 5th, 2024, 3:00 PM".
Definition meeting_example : str := py "Meeting on March 5th, 2024, 3:00 PM".

Definition heading_example : str := py "## Title".

Definition list_example : str :=
  py "# Title" ++ [NL] ++ py "Some text" ++ [NL] ++ py "- item".

Definition code_example : str :=
  py "```" ++ [NL] ++ py "  x" ++ [NL] ++ py "```".

Definition code_lines_example : str :=
  py "```" ++ [NL] ++ py "a" ++ [NL] ++ py "b" ++ [NL] ++ py "```".

(** A heading, a nested list and a code block of two lines. *)
Definition nested_example : str :=
  py "# Title" ++ [NL] ++ py "- a" ++ [NL] ++ py "  - b" ++ [NL]
  ++ py "```" ++ [NL] ++ py "x" ++ [NL] ++ py "y" ++ [NL] ++ py "```".

(** A thousand references, one after the other. *)
Definition thousand_refs : str := List.concat (repeat (py "[[a]]") 1000).

Definition jump_example : str :=
  py "# Title" ++ [NL] ++ py "- a" ++ [NL] ++ [NL] ++ py "    - b".

(** The lines of [list_example] with the parents [build_hierarchy] gives
    them. *)
Definition list_example_hierarchy : list Line :=
  [set_parent (parse_line (py "# Title")) (Some (-1)%Z);
   set_parent (parse_line (py "Some text")) (Some 0%Z);
   set_parent (parse_line (py "- item")) (Some 0%Z)].

Definition main_example_chunks : list str :=
  Eval vm_compute in
    match main_chunks list_example 30 with Ok c => c | _ => [] end.

(** The nodes of [list_example], each with the index of its line. *)
Definition list_example_nodes : list (nat * node) :=
  [(0, mkNode 0 (py "!! Title")); (1, mkNode 1 (py "Some text"));
   (2, mkNode 1 (py "item"))].

(** * Properties *)

Unset Implicit Arguments.

(** ** Strings *)

Lemma join_cons (sep x : str) (y : str) (ys : list str) :
  join sep (x :: y :: ys) = x ++ sep ++ join sep (y :: ys).
Proof. reflexivity. Qed.

Lemma split_nl_not_nil (s : str) : split_nl s <> [].
Proof.
  destruct s as [|c s]; simpl; [discriminate|].
  destruct (N.eqb c NL); [discriminate|].
  destruct (split_nl s); discriminate.
Qed.

Lemma join_split_nl (s : str) : join [NL] (split_nl s) = s.
Proof.
  induction s as [|c s IH]; [reflexivity|].
  simpl. destruct (N.eqb c NL) eqn:E.
  - apply N.eqb_eq in E. subst c.
    destruct (split_nl s) as [|l ls] eqn:Es.
    + exfalso. eapply split_nl_not_nil; eauto.
    + rewrite join_cons, IH. reflexivity.
  - destruct (split_nl s) as [|l ls] eqn:Es.
    + exfalso. eapply split_nl_not_nil; eauto.
    + rewrite <- IH. destruct ls; reflexivity.
Qed.

Lemma split_nl_Forall (P : char -> Prop) (s : str) :
  Forall P s -> Forall (Forall P) (split_nl s).
Proof.
  induction s as [|c s IH]; intros H.
  - repeat constructor.
  - inversion H as [|? ? Hc Hs]; subst. specialize (IH Hs). simpl.
    destruct (N.eqb c NL).
    + constructor; [constructor | exact IH].
    + destruct (split_nl s) as [|l ls].
      * repeat constructor; assumption.
      * inversion IH; subst. constructor; [constructor|]; assumption.
Qed.

Lemma split_nl_no_nl (s : str) :
  Forall (Forall (fun c => c <> NL)) (split_nl s).
Proof.
  induction s as [|c s IH]; [repeat constructor|].
  simpl. destruct (N.eqb c NL) eqn:E.
  - constructor; [constructor | exact IH].
  - apply N.eqb_neq in E. destruct (split_nl s) as [|l ls].
    + repeat constructor; assumption.
    + inversion IH; subst. constructor; [constructor|]; assumption.
Qed.

Lemma lstrip_all_space (s : str) :
  Forall (fun c => isspace c = true) s -> lstrip s = [].
Proof.
  induction 1 as [|c s Hc _ IH]; [reflexivity|]. simpl. now rewrite Hc.
Qed.

Lemma rstrip_all_space (s : str) :
  Forall (fun c => isspace c = true) s -> rstrip s = [].
Proof.
  intros H. unfold rstrip. rewrite lstrip_all_space; [reflexivity|].
  apply Forall_rev. exact H.
Qed.

Lemma Forall_skipn {A} (P : A -> Prop) (n : nat) (l : list A) :
  Forall P l -> Forall P (skipn n l).
Proof.
  revert l. induction n as [|n IH]; intros l H; [exact H|].
  destruct l; [constructor|]. simpl. apply IH. now inversion H.
Qed.

Lemma Forall_firstn {A} (P : A -> Prop) (n : nat) (l : list A) :
  Forall P l -> Forall P (firstn n l).
Proof.
  revert l. induction n as [|n IH]; intros l H; [constructor|].
  destruct l; [constructor|]. simpl. inversion H; subst.
  constructor; [assumption | now apply IH].
Qed.

(** ** chunk_content *)

Section Chunks.

Open Scope Z_scope.

Lemma len_app (a b : str) : len (a ++ b) = len a + len b.
Proof. unfold len. rewrite length_app. lia. Qed.

Lemma len_nonneg (a : str) : 0 <= len a.
Proof. unfold len. lia. Qed.

Lemma lines_size_nonneg (b : list str) : 0 <= lines_size b.
Proof. induction b; simpl; [lia|]. pose proof (len_nonneg a). lia. Qed.

Lemma lines_size_app (a b : list str) :
  lines_size (a ++ b) = lines_size a + lines_size b.
Proof. induction a; simpl; lia. Qed.

Lemma len_join (x : str) (b : list str) :
  len (join [NL] (x :: b)) = len x + lines_size b.
Proof.
  revert x. induction b as [|y b IH]; intros x.
  - simpl. lia.
  - rewrite join_cons, !len_app, IH. cbn [lines_size].
    change (len [NL]) with 1. lia.
Qed.

Lemma len_chunk_of (b : list str) : len (chunk_of b) = 8 + lines_size b.
Proof. unfold chunk_of. rewrite len_join. reflexivity. Qed.

Lemma chunk_loop_spec (max_chunk_size : Z) (lines : list str) :
  forall chunks b,
    open_ok max_chunk_size b ->
    exists bodies b',
      chunk_loop max_chunk_size lines chunks (header_token :: b)
                 (9 + lines_size b)
      = (chunks ++ map chunk_of bodies, header_token :: b')
      /\ List.concat bodies ++ b' = b ++ lines
      /\ Forall (chunk_fits max_chunk_size) bodies
      /\ open_ok max_chunk_size b'.
Proof.
  induction lines as [|line rest IH]; intros chunks b Hb.
  - exists [], b. simpl. rewrite !app_nil_r. repeat split; [constructor | exact Hb].
  - cbn [chunk_loop].
    destruct ((9 + lines_size b + (len line + 1) >? max_chunk_size)
              && (1 <? List.length (header_token :: b))%nat)%bool eqn:E.
    + apply andb_true_iff in E. destruct E as [E1 E2].
      apply Nat.ltb_lt in E2.
      rewrite Z.gtb_ltb in E1. apply Z.ltb_lt in E1.
      assert (Hne : b <> []) by (intros ->; simpl in E2; lia).
      destruct (IH (chunks ++ [join [NL] (header_token :: b)]) [line])
        as (bodies & b' & Hl & Hc & Hf & Ho).
      { right. left. now exists line. }
      exists (b :: bodies), b'.
      replace (len (header_token ++ [NL]) + (len line + 1))
        with (9 + lines_size [line])
        by (cbn [lines_size]; change (len (header_token ++ [NL])) with 9; lia).
      change ([header_token] ++ [line]) with (header_token :: [line]).
      rewrite Hl. repeat split.
      * simpl. now rewrite <- app_assoc.
      * simpl. rewrite <- app_assoc. now rewrite Hc.
      * constructor; [|exact Hf].
        destruct Hb as [Hb | [Hb | Hb]]; [contradiction | now right |].
        left. rewrite len_chunk_of. lia.
      * exact Ho.
    + destruct (IH chunks (b ++ [line])) as (bodies & b' & Hl & Hc & Hf & Ho).
      { apply andb_false_iff in E. destruct E as [E | E].
        - right. right. rewrite lines_size_app. cbn [lines_size].
          rewrite Z.gtb_ltb in E. apply Z.ltb_ge in E. lia.
        - apply Nat.ltb_ge in E. destruct b; [|simpl in E; lia].
          right. left. now exists line. }
      exists bodies, b'.
      change ((header_token :: b) ++ [line]) with (header_token :: (b ++ [line])).
      replace (9 + lines_size b + (len line + 1))
        with (9 + lines_size (b ++ [line]))
        by (rewrite lines_size_app; cbn [lines_size]; lia).
      rewrite Hl. repeat split; try assumption.
      now rewrite Hc, <- app_assoc.
Qed.

(** C6 (amended): for a text whose first line is the header token,
    [chunk_content] returns chunks that each consist of the header line
    followed by whole lines of the text, in order and without loss, and each
    chunk is within the budget unless it holds the header and one single
    line. *)
Theorem chunk_content_chunks (content : str) (max_chunk_size : Z)
    (body : list str) :
  split_nl content = header_token :: body ->
  exists bodies,
    chunk_content content max_chunk_size = map chunk_of bodies
    /\ List.concat bodies = body
    /\ Forall (chunk_fits max_chunk_size) bodies.
Proof.
  intros Hs. unfold chunk_content.
  destruct (len content <=? max_chunk_size) eqn:E.
  - apply Z.leb_le in E. exists [body]. simpl. rewrite app_nil_r.
    assert (Hc : chunk_of body = content).
    { unfold chunk_of. rewrite <- Hs. apply join_split_nl. }
    rewrite Hc. repeat split. constructor; [|constructor].
    left. now rewrite Hc.
  - rewrite Hs.
    replace (str_eqb header_token header_token) with true by reflexivity.
    destruct (chunk_loop_spec max_chunk_size body [] [])
      as (bodies & b' & Hl & Hc & Hf & Ho); [now left|].
    change (len (header_token ++ [NL])) with (9 + lines_size []).
    rewrite Hl. cbn [fst snd app].
    destruct b' as [|l b'].
    + exists bodies. rewrite app_nil_r in Hc. now repeat split.
    + exists (bodies ++ [l :: b']).
      replace (1 <? List.length (header_token :: l :: b'))%nat with true
        by (symmetry; apply Nat.ltb_lt; simpl; lia).
      repeat split.
      * now rewrite map_app.
      * rewrite concat_app. simpl. now rewrite app_nil_r.
      * apply Forall_app. split; [exact Hf|]. constructor; [|constructor].
        destruct Ho as [Ho | [Ho | Ho]]; [discriminate | now right |].
        left. rewrite len_chunk_of. lia.
Qed.

End Chunks.

Lemma chunk_content_chunks_witness :
  exists bodies,
    chunk_content chunk_example 20 = map chunk_of bodies
    /\ List.concat bodies = [py "- aaaaaaaaaaaaa"; py "- b"]
    /\ Forall (chunk_fits 20) bodies.
Proof. apply (chunk_content_chunks chunk_example 20). reflexivity. Defined.

(** C6 as stated fails: with a budget of 20 the first chunk of the example
    has 24 characters although no line of the text is longer than 15. *)
Lemma chunk_budget_counterexample : ~ chunk_budget_as_stated chunk_example 20.
Proof.
  unfold chunk_budget_as_stated. intros H.
  assert (E : chunk_content chunk_example 20
              = [py "%%tana%%" ++ [NL] ++ py "- aaaaaaaaaaaaa";
                 py "%%tana%%" ++ [NL] ++ py "- b"])
    by (vm_compute; reflexivity).
  rewrite E in H. apply Forall_inv in H.
  destruct H as [H | (l & Hin & Hlen & _)].
  - vm_compute in H. now apply H.
  - assert (Es : split_nl chunk_example
                 = [py "%%tana%%"; py "- aaaaaaaaaaaaa"; py "- b"])
      by (vm_compute; reflexivity).
    rewrite Es in Hin. simpl in Hin.
    destruct Hin as [<- | [<- | [<- | []]]]; vm_compute in Hlen; discriminate.
Qed.

(** ** Failures of the conversion *)

(** C3 (the code fails the claim): on a first line indented by four spaces
    the hierarchy builder reads [last_parent_at_level[1]] of a stack of
    length one, and [convert_to_tana] raises [IndexError]. *)
Theorem convert_indented_raises :
  convert_to_tana indented_example = Raise IndexError.
Proof. vm_compute. reflexivity. Qed.

(** C7 (the code fails the claim): the empty input gives the fallback
    message, but the fallback is not the only failure that can be observed:
    the indented line above makes the conversion raise. *)
Theorem convert_empty_fallback_not_only_failure :
  convert_to_tana [] = Ok no_text
  /\ convert_to_tana indented_example = Raise IndexError.
Proof. split; vm_compute; reflexivity. Qed.

(** C9 (the code fails the claim): the long-form pattern matches the example
    and binds six groups, the source unpacks them into seven names, and
    [parse_date] raises [ValueError] before the AM/PM conversion; so does the
    date pass on a text that contains the date. *)
Theorem parse_date_legacy_raises :
  (exists m, re_match legacy_time_re legacy_example = Some m
             /\ groups m = [Some (py "March"); Some (py "5"); Some (py "2024");
                            Some (py "3"); Some (py "00"); Some (py "PM")])
  /\ parse_date legacy_example = Raise ValueError
  /\ convert_dates meeting_example = Raise ValueError.
Proof.
  split; [|split]; [|vm_compute; reflexivity ..].
  destruct (re_match legacy_time_re legacy_example) as [m|] eqn:E;
    [|vm_compute in E; discriminate].
  exists m. split; [reflexivity|].
  vm_compute in E. injection E as <-. vm_compute. reflexivity.
Qed.

(** ** Blank input *)

Lemma parse_line_blank (l : str) :
  Forall (fun c => isspace c = true) l -> blank (parse_line l).
Proof.
  intros H. unfold blank, parse_line. cbn [content].
  rewrite rstrip_all_space; [reflexivity|]. now apply Forall_skipn.
Qed.

Lemma bh_loop_blank (lines : list Line) :
  Forall blank lines -> forall st i, bh_loop st i lines = Ok (st, lines).
Proof.
  induction 1 as [|l lines Hl _ IH]; intros st i; [reflexivity|].
  cbn [bh_loop]. unfold bh_step. rewrite Hl. cbn. now rewrite IH.
Qed.

Lemma emit_loop_blank (hl lines : list Line) :
  Forall blank lines -> forall st i, emit_loop hl st i lines = Ok (st, []).
Proof.
  induction 1 as [|l lines Hl _ IH]; intros st i; [reflexivity|].
  cbn [emit_loop]. unfold emit_step. rewrite Hl. cbn. now rewrite IH.
Qed.

(** C10: a non-empty input of whitespace characters and newlines only is
    converted to the header line alone, not to the fallback message. *)
Theorem convert_whitespace_only (s : str) :
  s <> [] ->
  Forall (fun c => isspace c = true) s ->
  convert_to_tana s = Ok header_token /\ convert_to_tana s <> Ok no_text.
Proof.
  intros Hne Hs.
  assert (E : convert_to_tana s = Ok header_token).
  { destruct s as [|c s]; [contradiction|].
    unfold convert_to_tana, convert_nodes, build_hierarchy.
    assert (Hb : Forall blank (map parse_line (split_nl (c :: s)))).
    { apply Forall_map. apply split_nl_Forall in Hs.
      eapply Forall_impl; [|exact Hs]. intros l. apply parse_line_blank. }
    rewrite (bh_loop_blank _ Hb). cbn [bind snd].
    rewrite (emit_loop_blank _ _ Hb). reflexivity. }
  split; [exact E|]. rewrite E. discriminate.
Qed.

Lemma convert_whitespace_only_witness :
  convert_to_tana (py "  " ++ [NL] ++ py " ") = Ok header_token
  /\ convert_to_tana (py "  " ++ [NL] ++ py " ") <> Ok no_text.
Proof.
  apply convert_whitespace_only; [discriminate|].
  repeat constructor.
Defined.

(** ** The two loops *)

Lemma bind_ok {A B} (r : result A) (f : A -> result B) (b : B) :
  bind r f = Ok b -> exists a, r = Ok a /\ f a = Ok b.
Proof. destruct r; simpl; intros H; try discriminate. now exists a. Qed.

Lemma Ok_inj {A} (a b : A) : Ok a = Ok b -> a = b.
Proof. now intros [= ->]. Qed.

Ltac bind_inv H :=
  let a := fresh "o" in
  let E := fresh "E" in
  apply bind_ok in H; destruct H as (a & E & H).

Tactic Notation "bind_as" hyp(H) "as" ident(a) ident(E) :=
  apply bind_ok in H; destruct H as (a & E & H).

Lemma bh_loop_app (a b : list Line) : forall st i,
  bh_loop st i (a ++ b) =
  (o1 <- bh_loop st i a ;;
   o2 <- bh_loop (fst o1) (i + List.length a) b ;;
   Ok (fst o2, snd o1 ++ snd o2)).
Proof.
  induction a as [|l a IH]; intros st i.
  - simpl. rewrite Nat.add_0_r. destruct (bh_loop st i b) as [[? ?]| |]; reflexivity.
  - cbn [app bh_loop]. destruct (bh_step st i l) as [[st1 l1]| |]; try reflexivity.
    cbn [bind fst snd]. rewrite IH.
    destruct (bh_loop st1 (S i) a) as [[st2 ha]| |]; try reflexivity.
    cbn [bind fst snd List.length]. rewrite Nat.add_succ_r, ?Nat.add_succ_l.
    destruct (bh_loop st2 (S (i + List.length a)) b) as [[? ?]| |]; reflexivity.
Qed.

Lemma emit_loop_app (hl a b : list Line) : forall st i,
  emit_loop hl st i (a ++ b) =
  (o1 <- emit_loop hl st i a ;;
   o2 <- emit_loop hl (fst o1) (i + List.length a) b ;;
   Ok (fst o2, snd o1 ++ snd o2)).
Proof.
  induction a as [|l a IH]; intros st i.
  - simpl. rewrite Nat.add_0_r.
    destruct (emit_loop hl st i b) as [[? ?]| |]; reflexivity.
  - cbn [app emit_loop]. destruct (emit_step hl st l) as [[st1 n1]| |]; try reflexivity.
    cbn [bind fst snd]. rewrite IH.
    destruct (emit_loop hl st1 (S i) a) as [[st2 na]| |]; try reflexivity.
    cbn [bind fst snd List.length]. rewrite Nat.add_succ_r, ?Nat.add_succ_l.
    destruct (emit_loop hl st2 (S (i + List.length a)) b) as [[? ?]| |];
      try reflexivity.
    cbn [bind fst snd]. destruct n1; reflexivity.
Qed.

Lemma shape_refl (l : Line) : shape l l.
Proof. exists (parent l). now destruct l. Qed.

Lemma shape_set (l : Line) (p : option Z) : shape l (set_parent l p).
Proof. now exists p. Qed.

Lemma shape_fields (l l' : Line) :
  shape l l' ->
  content l' = content l /\ indent l' = indent l /\ raw l' = raw l /\
  is_header l' = is_header l /\ is_code_block l' = is_code_block l.
Proof. intros [p ->]. now repeat split. Qed.

Lemma shape_nonblankb l l' : shape l l' -> nonblankb l' = nonblankb l.
Proof. intros [p ->]. reflexivity. Qed.

Lemma shape_fenceb l l' : shape l l' -> fenceb l' = fenceb l.
Proof. intros [p ->]. reflexivity. Qed.

Lemma shape_hdrb l l' : shape l l' -> hdrb l' = hdrb l.
Proof. intros [p ->]. reflexivity. Qed.

Lemma shape_plain0b l l' : shape l l' -> plain0b l' = plain0b l.
Proof. intros [p ->]. reflexivity. Qed.

(** What one iteration of the hierarchy builder does, by the kind of the
    line.  The flag [in_code_block] of the builder is false at the start of
    every iteration: the iteration that sets it clears it again. *)
Lemma bh_step_cases (st st' : bh_state) (i : nat) (l l' : Line) :
  bh_in_code_block st = false ->
  bh_step st i l = Ok (st', l') ->
  bh_in_code_block st' = false /\ shape l l' /\
  (hdrb l = true -> last_header st' = Some i /\ parent l' = Some (-1)%Z) /\
  (hdrb l = false -> last_header st' = last_header st) /\
  (plain0b l = true ->
   parent l' = Some (match last_header st with
                     | Some h => Z.of_nat h
                     | None => (-1)%Z
                     end)).
Proof.
  intros Hc H. unfold bh_step in H.
  unfold hdrb, plain0b, nonblankb.
  destruct (strip (content l)) as [|c0 cs] eqn:Es.
  - injection H as <- <-. repeat split; try assumption; try discriminate.
    apply shape_refl.
  - rewrite Hc in H. rewrite orb_false_r in H.
    destruct (is_code_block l) eqn:Ecb.
    + cbn [andb negb].
      destruct (last_elem (last_parent_at_level st)) as [p| |] eqn:El;
        try discriminate.
      cbn in H. injection H as <- <-. cbn.
      repeat split; try discriminate. apply shape_set.
    + cbn [andb negb]. destruct (is_header l) eqn:Eh.
      * injection H as <- <-. cbn.
        repeat split; try assumption; try discriminate. apply shape_set.
      * cbn [andb negb] in *.
        bind_inv H. injection H as <- <-. cbn.
        repeat split; try assumption; try discriminate; [apply shape_set|].
        intros Hi. apply Nat.eqb_eq in Hi. rewrite Hi in E.
        destruct (last_header st); injection E as <-; reflexivity.
Qed.

Lemma Forall2_shape_length (a b : list Line) :
  Forall2 shape a b -> List.length b = List.length a.
Proof. intros H. symmetry. eapply Forall2_length; eauto. Qed.

(** The state of the hierarchy builder after the lines [a]. *)
Lemma bh_loop_inv (a : list Line) : forall st ha,
  bh_loop bh_init 0 a = Ok (st, ha) ->
  bh_in_code_block st = false
  /\ Forall2 shape a ha
  /\ (forall h, last_header st = Some h ->
      exists lh, nth_error ha h = Some lh /\ parent lh = Some (-1)%Z)
  /\ (existsb hdrb a = true -> last_header st <> None).
Proof.
  induction a as [|l a IH] using rev_ind; intros st ha H.
  - injection H as <- <-. repeat split; try discriminate. constructor.
  - rewrite bh_loop_app in H. bind_inv H. destruct o as [st1 h1].
    bind_inv H. destruct o as [st2 h2]. cbn [fst snd] in *.
    injection H as <- <-.
    destruct (IH _ _ E) as (I1 & I2 & I3 & I4).
    cbn [bh_loop] in E0. bind_inv E0. destruct o as [st3 l3].
    cbn in E0. injection E0 as <- <-.
    cbn [Nat.add] in E1.
    destruct (bh_step_cases _ _ _ _ _ I1 E1) as (S1 & S2 & S3 & S4 & S5).
    pose proof (Forall2_shape_length _ _ I2) as Hlen.
    split; [exact S1|]. split.
    { apply Forall2_app; [exact I2|]. constructor; [exact S2|constructor]. }
    destruct (hdrb l) eqn:Eh.
    + destruct (S3 eq_refl) as [S3a S3b]. split.
      * intros h Hh. rewrite S3a in Hh. injection Hh as <-.
        exists l3. split; [|exact S3b].
        rewrite nth_error_app2 by lia. rewrite Hlen, Nat.sub_diag.
        reflexivity.
      * intros _. rewrite S3a. discriminate.
    + rewrite (S4 eq_refl). split.
      * intros h Hh. destruct (I3 _ Hh) as (lh & Hn & Hp).
        exists lh. split; [|exact Hp].
        rewrite nth_error_app1; [exact Hn|].
        apply nth_error_Some. rewrite Hn. discriminate.
      * rewrite existsb_app. cbn. rewrite Eh, !orb_false_r. exact I4.
Qed.

Lemma fence_open_app (a b : list Line) :
  fence_open (a ++ b)
  = fold_left (fun x l => if fenceb l then negb x else x) b (fence_open a).
Proof. unfold fence_open. now rewrite fold_left_app. Qed.

Lemma fold_fence_shape (a ha : list Line) :
  Forall2 shape a ha -> forall x,
  fold_left (fun x l => if fenceb l then negb x else x) ha x
  = fold_left (fun x l => if fenceb l then negb x else x) a x.
Proof.
  induction 1 as [|l l' a ha Hs _ IH]; intros x; [reflexivity|].
  cbn [fold_left]. rewrite (shape_fenceb _ _ Hs). apply IH.
Qed.

Lemma fence_open_shape (a ha : list Line) :
  Forall2 shape a ha -> fence_open ha = fence_open a.
Proof. intros H. apply (fold_fence_shape _ _ H). Qed.

(** A fence line toggles the flag of the output loop; no other line
    changes it. *)
Lemma emit_step_flag hl st l st' on :
  emit_step hl st l = Ok (st', on) ->
  in_code_block st' = if fenceb l then negb (in_code_block st)
                      else in_code_block st.
Proof.
  unfold emit_step, fenceb, nonblankb. intros H.
  destruct (strip (content l)) as [|c0 cs].
  - injection H as <- <-. reflexivity.
  - bind_inv H. cbn [andb].
    destruct (is_code_block l), (in_code_block st) eqn:Ei; cbn in H.
    + injection H as <- <-. reflexivity.
    + injection H as <- <-. reflexivity.
    + injection H as <- <-. reflexivity.
    + bind_inv H. injection H as <- <-. exact Ei.
Qed.

Lemma emit_loop_flag hl (ls : list Line) : forall st i st' ns,
  emit_loop hl st i ls = Ok (st', ns) ->
  in_code_block st'
  = fold_left (fun x l => if fenceb l then negb x else x) ls (in_code_block st).
Proof.
  induction ls as [|l ls IH]; intros st i st' ns H.
  - injection H as <- <-. reflexivity.
  - cbn [emit_loop] in H. bind_inv H. destruct o as [st1 on].
    bind_inv H. destruct o as [st2 ns2]. cbn [fst snd] in *.
    injection H as <- <-. cbn [fold_left].
    apply emit_step_flag in E. rewrite <- E. eapply IH. exact E0.
Qed.

(** Every node carries the index of a line of the loop. *)
Lemma emit_loop_bounds hl (ls : list Line) : forall st i st' ns,
  emit_loop hl st i ls = Ok (st', ns) ->
  Forall (fun p => i <= fst p < i + List.length ls) ns.
Proof.
  induction ls as [|l ls IH]; intros st i st' ns H.
  - injection H as <- <-. constructor.
  - cbn [emit_loop] in H. bind_inv H. destruct o as [st1 on].
    bind_inv H. destruct o as [st2 ns2]. cbn [fst snd] in *.
    injection H as <- <-.
    assert (Hs : Forall (fun p => i <= fst p < i + List.length (l :: ls)) ns2).
    { eapply Forall_impl; [|eapply IH; exact E0].
      intros p. cbn [List.length]. lia. }
    destruct on; [|exact Hs]. constructor; [|exact Hs].
    cbn [fst List.length]. lia.
Qed.

(** The output loop at the line of index [length a]: the flag before the
    line is the parity of the fences before it, and the nodes of that index
    are what the iteration on that line appends. *)
Lemma emit_at hl (a : list Line) (l : Line) (b : list Line) est nodes :
  emit_loop hl (mkEmit false []) 0 (a ++ l :: b) = Ok (est, nodes) ->
  exists sta stl on,
    in_code_block sta = fence_open a
    /\ emit_step hl sta l = Ok (stl, on)
    /\ (forall n, In (List.length a, n) nodes <-> on = Some n).
Proof.
  intros H. rewrite emit_loop_app in H.
  bind_inv H. destruct o as [sta na]. bind_inv H. destruct o as [stb nb].
  cbn [fst snd] in *. injection H as <- <-.
  cbn [emit_loop Nat.add] in E0. bind_inv E0. destruct o as [stl on].
  bind_inv E0. destruct o as [stc nc]. cbn [fst snd] in *.
  injection E0 as <- <-.
  exists sta, stl, on. split; [|split; [exact E1|]].
  - apply emit_loop_flag in E. exact E.
  - pose proof E as Ba. apply emit_loop_bounds in Ba.
    pose proof E2 as Bc. apply emit_loop_bounds in Bc.
    rewrite Forall_forall in Ba, Bc.
    intros n. rewrite in_app_iff. split.
    + intros [Hin | Hin].
      * apply Ba in Hin. cbn [fst] in Hin. lia.
      * destruct on as [n0|].
        -- destruct Hin as [Hin | Hin]; [now injection Hin as <-|].
           apply Bc in Hin. cbn [fst] in Hin. lia.
        -- apply Bc in Hin. cbn [fst] in Hin. lia.
    + intros ->. right. now left.
Qed.

(** The hierarchy builder at the line of index [length a]. *)
Lemma bh_at (a : list Line) (l : Line) (b : list Line) st hl :
  bh_loop bh_init 0 (a ++ l :: b) = Ok (st, hl) ->
  exists sta ha stl l' hb,
    bh_loop bh_init 0 a = Ok (sta, ha)
    /\ bh_step sta (List.length a) l = Ok (stl, l')
    /\ hl = ha ++ l' :: hb
    /\ Forall2 shape a ha.
Proof.
  intros H. rewrite bh_loop_app in H.
  bind_inv H. destruct o as [sta ha]. bind_inv H. destruct o as [stb hb].
  cbn [fst snd] in *. injection H as <- <-.
  cbn [bh_loop Nat.add] in E0. bind_inv E0. destruct o as [stl l'].
  bind_inv E0. destruct o as [stc hc]. cbn [fst snd] in *.
  injection E0 as <- <-.
  exists sta, ha, stl, l', hc. pose proof E as E'.
  repeat split; try assumption.
  apply bh_loop_inv in E. now destruct E as (_ & I2 & _).
Qed.

Lemma depth_of_root hl l : parent l = Some (-1)%Z -> depth_of hl l = Ok 0.
Proof. intros H. unfold depth_of. now rewrite H. Qed.

Lemma depth_of_child hl l h lh :
  parent l = Some (Z.of_nat h) ->
  nth_error hl h = Some lh ->
  parent lh = Some (-1)%Z ->
  depth_of hl l = Ok 1.
Proof.
  intros Hp Hn Hl. unfold depth_of. rewrite Hp.
  replace (0 <=? Z.of_nat h)%Z with true by (symmetry; apply Z.leb_le; lia).
  unfold index. rewrite Nat2Z.id, Hn. cbn [bind walk]. now rewrite Hl.
Qed.

(** An iteration of the output loop on a line that is neither blank nor a
    fence, outside a code block. *)
Lemma emit_step_plain hl st l st' on :
  in_code_block st = false ->
  nonblankb l = true ->
  is_code_block l = false ->
  emit_step hl st l = Ok (st', on) ->
  exists d t,
    depth_of hl l = Ok d
    /\ process_content l (strip (content l)) = Ok t
    /\ on = Some (mkNode d t).
Proof.
  unfold emit_step, nonblankb. intros Hi Hn Hc H.
  destruct (strip (content l)) as [|c0 cs]; [discriminate|].
  bind_inv H. rewrite Hi, Hc in H. cbn in H. bind_inv H.
  injection H as <- <-. now exists o, o0.
Qed.

(** ** Stripping *)

Lemma lstrip_split (s : str) :
  exists lead, s = lead ++ lstrip s /\ all_space lead /\ starts_solid (lstrip s).
Proof.
  induction s as [|c s (lead & E & Hl & Hs)].
  - exists []. repeat split. constructor.
  - simpl. destruct (isspace c) eqn:Ec.
    + exists (c :: lead). repeat split; [simpl; now f_equal | | exact Hs].
      constructor; assumption.
    + exists []. repeat split; [constructor | exact Ec].
Qed.

Lemma lstrip_solid (s : str) : starts_solid s -> lstrip s = s.
Proof. destruct s as [|c s]; simpl; [reflexivity|]. now intros ->. Qed.

Lemma lstrip_app_space (a b : str) : all_space a -> lstrip (a ++ b) = lstrip b.
Proof. induction 1 as [|c a Hc _ IH]; [reflexivity|]. simpl. now rewrite Hc. Qed.

Lemma rstrip_app_space (a b : str) : all_space b -> rstrip (a ++ b) = rstrip a.
Proof.
  intros H. unfold rstrip. rewrite rev_app_distr, lstrip_app_space; [reflexivity|].
  now apply Forall_rev.
Qed.

Lemma rstrip_app_solid (a b : str) (c : char) :
  isspace c = false -> rstrip (a ++ b ++ [c]) = a ++ b ++ [c].
Proof.
  intros H. unfold rstrip. rewrite app_assoc, rev_app_distr. simpl.
  rewrite H. simpl. now rewrite rev_involutive.
Qed.

Lemma lstrip_length (s : str) : List.length (lstrip s) <= List.length s.
Proof.
  induction s as [|c s IH]; simpl; [lia|]. destruct (isspace c); simpl; lia.
Qed.

Lemma rstrip_length (s : str) : List.length (rstrip s) <= List.length s.
Proof.
  unfold rstrip. rewrite length_rev. pose proof (lstrip_length (rev s)) as H.
  now rewrite length_rev in H.
Qed.

(** A non-empty string that stripping leaves unchanged starts and ends with a
    character that is not whitespace. *)
Lemma strip_fixed (t : str) :
  t <> [] -> strip t = t ->
  starts_solid t /\ exists t' c, t = t' ++ [c] /\ isspace c = false.
Proof.
  intros Hne H. unfold strip in H.
  assert (Hl : lstrip t = t).
  { destruct t as [|c t]; [reflexivity|]. simpl in *.
    destruct (isspace c); [|reflexivity].
    pose proof (rstrip_length (lstrip t)) as H1.
    pose proof (lstrip_length t) as H2. rewrite H in H1. simpl in H1. lia. }
  rewrite Hl in H. split.
  - destruct t as [|c t]; [exact I|]. simpl in Hl |- *.
    destruct (isspace c); [|reflexivity].
    pose proof (lstrip_length t) as H2. rewrite Hl in H2. simpl in H2. lia.
  - destruct (exists_last Hne) as (t' & c & ->). exists t', c. split; [reflexivity|].
    unfold rstrip in H. rewrite rev_app_distr in H. simpl in H.
    destruct (isspace c); [|reflexivity].
    apply (f_equal (@List.length _)) in H.
    rewrite length_rev, length_app in H. simpl in H.
    pose proof (lstrip_length (rev t')) as H2. rewrite length_rev in H2. lia.
Qed.

(** ** The matcher on runs of a class *)

Lemma last_cons_default {A} (l : list A) : forall o d d',
  last (o :: l) d = last (o :: l) d'.
Proof.
  induction l as [|y l IH]; intros o d d'; [reflexivity|].
  change (last (y :: l) d = last (y :: l) d'). apply IH.
Qed.

Lemma prev_after_cons prev x run :
  prev_after (Some x) run = prev_after prev (x :: run).
Proof.
  unfold prev_after. simpl. destruct (map Some run) eqn:E; [reflexivity|].
  apply last_cons_default.
Qed.

(** A greedy repetition takes the whole run when the rest of the pattern
    matches after it. *)
Lemma mrep_greedy_run {R} (p : char -> bool) (run rest : str)
    (k : cur -> option R) (r : R) : forall lo hi pos prev,
  Forall (fun c => p c = true) run ->
  (match rest with x :: _ => p x = false | [] => True end
   \/ hi = Some (List.length run)) ->
  lo <= List.length run ->
  match hi with Some h => List.length run <= h | None => True end ->
  k (Cur (pos + List.length run) (prev_after prev run) rest) = Some r ->
  mrep p true lo hi pos prev (run ++ rest) k = Some r.
Proof.
  induction run as [|x run IH]; intros lo hi pos prev Hrun Hstop Hlo Hhi Hk.
  - simpl in *. assert (lo = 0) by lia. subst lo.
    rewrite Nat.add_0_r in Hk. unfold prev_after in Hk. simpl in Hk.
    destruct rest as [|y rest]; simpl.
    + exact Hk.
    + destruct Hstop as [Hy | Hh].
      * now rewrite Hy.
      * subst hi. simpl. destruct (p y); exact Hk.
  - inversion Hrun as [|? ? Hx Hr]; subst. cbn [app mrep]. rewrite Hx.
    assert (Hp : exists hi', hi_pred hi = Some hi'
                 /\ match hi' with Some h => List.length run <= h | None => True end
                 /\ (hi = Some (List.length (x :: run)) ->
                     hi' = Some (List.length run))).
    { destruct hi as [[|h]|]; simpl in *; try lia.
      - exists (Some h). repeat split; [lia|]. intros E. injection E as ->.
        reflexivity.
      - exists None. repeat split. discriminate. }
    destruct Hp as (hi' & Ep & Hhi' & Hst). rewrite Ep.
    rewrite (IH (pred lo) hi' (S pos) (Some x)); try assumption.
    + reflexivity.
    + destruct Hstop as [Hs | Hs]; [now left | right; auto].
    + simpl in Hlo. lia.
    + rewrite prev_after_cons with (prev := prev).
      simpl in Hk. now rewrite Nat.add_succ_r in Hk.
Qed.

(** ** parse_line without the matcher *)

Lemma firstn_length_app {A} (a b : list A) : firstn (List.length a) (a ++ b) = a.
Proof. rewrite firstn_app, Nat.sub_diag, firstn_all. simpl. apply app_nil_r. Qed.

Lemma skipn_length_app {A} (a b : list A) : skipn (List.length a) (a ++ b) = b.
Proof. rewrite skipn_app, Nat.sub_diag, skipn_all. reflexivity. Qed.

Lemma leading_ws_match (lead body : str) :
  all_space lead -> starts_solid body ->
  exists m, re_match leading_ws_re (lead ++ body) = Some m
            /\ group_s m 1 = lead.
Proof.
  intros Hl Hb. unfold re_match, match_at, leading_ws_re, star.
  cbn [seqs fold_right rmatch at_bol c_prev c_pos c_rest].
  erewrite mrep_greedy_run; [| exact Hl | left | lia | exact I | reflexivity].
  - eexists. split; [reflexivity|].
    unfold group_s, group. cbn [m_caps lookup Nat.eqb c_pos].
    rewrite Nat.sub_0_r. cbn [Nat.add]. apply firstn_length_app.
  - destruct body; [exact I | exact Hb].
Qed.

Lemma parse_line_eq (line : str) :
  parse_line line
  = mkLine (rstrip (lstrip line))
           ((List.length line - List.length (lstrip line)) / 2) line
           (startswith (py "#") (rstrip (lstrip line)))
           (startswith (py "```") (rstrip (lstrip line))) None.
Proof.
  destruct (lstrip_split line) as (lead & E & Hl & Hs).
  remember (lstrip line) as b eqn:Eb.
  destruct (leading_ws_match lead b Hl Hs) as (m & Em & Eg).
  unfold parse_line.
  replace (re_match leading_ws_re line) with (Some m)
    by (rewrite E; symmetry; exact Em).
  rewrite Eg.
  replace (skipn (List.length lead) line) with b
    by (rewrite E; symmetry; apply skipn_length_app).
  replace (List.length line - List.length b) with (List.length lead)
    by (rewrite E, length_app; lia).
  reflexivity.
Qed.

(** ** Heading lines *)

Lemma isspace_not_hash (c : char) : isspace c = true -> is_chr (ch "#") c = false.
Proof.
  intros H. unfold is_chr. destruct (N.eqb_spec c (ch "#")) as [->|]; [|reflexivity].
  vm_compute in H. discriminate.
Qed.

Lemma Forall_repeat {A} (P : A -> Prop) (x : A) (n : nat) :
  P x -> Forall P (repeat x n).
Proof. intros H. induction n; simpl; constructor; assumption. Qed.

Lemma header_re_match (level : nat) (ws text : str) :
  1 <= level <= 6 ->
  all_space ws -> ws <> [] ->
  text <> [] -> starts_solid text ->
  Forall (fun c => not_nl c = true) text ->
  exists m, re_match header_re (repeat (ch "#") level ++ ws ++ text) = Some m
            /\ group_s m 2 = text.
Proof.
  intros Hl Hws Hne Ht Hs Hnl.
  replace (repeat (ch "#") level ++ ws ++ text)
    with (repeat (ch "#") level ++ ws ++ text ++ [])
    by now rewrite app_nil_r.
  unfold re_match, match_at, header_re, rng, ws1, plus.
  cbn [seqs fold_right rmatch at_bol c_prev c_pos c_rest].
  erewrite mrep_greedy_run; cycle 1.
  - apply Forall_repeat. reflexivity.
  - left. destruct ws as [|w ws]; [contradiction|].
    inversion Hws; subst. now apply isspace_not_hash.
  - rewrite repeat_length. lia.
  - rewrite repeat_length. lia.
  - cbn [rmatch c_pos c_prev c_rest].
    eapply mrep_greedy_run.
    + exact Hws.
    + left. destruct text as [|t text]; [contradiction|]. exact Hs.
    + destruct ws; [contradiction|]. simpl. lia.
    + exact I.
    + cbn [rmatch c_pos c_prev c_rest].
      eapply mrep_greedy_run.
      * exact Hnl.
      * now left.
      * destruct text; [contradiction|]. simpl. lia.
      * exact I.
      * cbn [rmatch at_eol c_rest c_pos]. reflexivity.
  - eexists. split; [reflexivity|].
    unfold group_s, group. cbn [m_caps lookup Nat.eqb c_pos].
    rewrite repeat_length.
    match goal with |- firstn ?n _ = _ =>
      replace n with (List.length text) by lia end.
    apply firstn_length_app.
Qed.

Lemma rstrip_keep (a : str) (c : char) :
  isspace c = false -> rstrip (a ++ [c]) = a ++ [c].
Proof.
  intros H. unfold rstrip. rewrite rev_app_distr. simpl. rewrite H.
  simpl. now rewrite rev_involutive.
Qed.

Lemma heading_parse (level : nat) (text line : str) :
  heading_line level text line -> 1 <= level ->
  exists ws,
    all_space ws /\ ws <> []
    /\ content (parse_line line) = repeat (ch "#") level ++ ws ++ text
    /\ strip (content (parse_line line)) = content (parse_line line)
    /\ is_header (parse_line line) = true
    /\ is_code_block (parse_line line) = false.
Proof.
  intros (lead & ws & trail & E & Hlead & Hws & Hne & Htrail & Ht & Hst) Hl.
  destruct (strip_fixed text Ht Hst) as (_ & t' & c & Et & Hc).
  destruct level as [|level]; [lia|].
  set (hs := repeat (ch "#") level) in *.
  assert (Hk : rstrip (ch "#" :: hs ++ ws ++ text) = ch "#" :: hs ++ ws ++ text).
  { rewrite Et.
    replace (ch "#" :: hs ++ ws ++ t' ++ [c])
      with ((ch "#" :: hs ++ ws ++ t') ++ [c])
      by (simpl; now rewrite <- !app_assoc).
    now apply rstrip_keep. }
  assert (Hl1 : lstrip line = (ch "#" :: hs ++ ws ++ text) ++ trail).
  { rewrite E, lstrip_app_space by exact Hlead.
    simpl. now rewrite <- !app_assoc. }
  exists ws. rewrite parse_line_eq. cbn [content is_header is_code_block].
  rewrite Hl1, rstrip_app_space, Hk by exact Htrail.
  repeat split; assumption.
Qed.

(** ** The node of a line *)

(** Both loops at the line that follows the lines [pre] of the input. *)
Lemma convert_at (input : str) (pre : list str) (line : str) (post : list str)
    (nodes : list (nat * node)) :
  split_nl input = pre ++ line :: post ->
  convert_nodes input = Ok nodes ->
  exists bst ha stl l' hb est est' on,
    bh_loop bh_init 0 (parsed pre) = Ok (bst, ha)
    /\ bh_step bst (List.length pre) (parse_line line) = Ok (stl, l')
    /\ Forall2 shape (parsed pre) ha
    /\ in_code_block est = fence_open (parsed pre)
    /\ emit_step (ha ++ l' :: hb) est l' = Ok (est', on)
    /\ (forall n, In (List.length pre, n) nodes <-> on = Some n).
Proof.
  intros Hs H. unfold convert_nodes, build_hierarchy in H.
  rewrite Hs, map_app in H. cbn [map] in H.
  bind_inv H. bind_inv E. destruct o0 as [bstf hl]. injection E as <-.
  cbn [snd] in H. bind_inv H. destruct o as [estf ns]. injection H as <-.
  cbn [snd].
  apply bh_at in E0.
  destruct E0 as (bst & ha & stl & l' & hb & B1 & B2 & -> & B4).
  apply emit_at in E.
  destruct E as (est & est' & on & F1 & F2 & F3).
  pose proof (Forall2_shape_length _ _ B4) as Hlen.
  unfold parsed in *. rewrite length_map in B2, Hlen.
  exists bst, ha, stl, l', hb, est, est', on.
  repeat split; try assumption.
  - rewrite F1. apply fence_open_shape. exact B4.
  - rewrite <- Hlen. apply F3.
  - rewrite <- Hlen. apply F3.
Qed.

Lemma process_content_shape (l l' : Line) (c : str) :
  shape l l' -> process_content l' c = process_content l c.
Proof. intros [p ->]. reflexivity. Qed.

(** The node of a header line outside a code block: depth 0. *)
Lemma header_node (input : str) (pre : list str) (line : str) (post : list str)
    (nodes : list (nat * node)) :
  split_nl input = pre ++ line :: post ->
  hdrb (parse_line line) = true ->
  fence_open (parsed pre) = false ->
  convert_nodes input = Ok nodes ->
  exists t,
    process_content (parse_line line) (strip (content (parse_line line))) = Ok t
    /\ forall n, In (List.length pre, n) nodes <-> n = mkNode 0 t.
Proof.
  intros Hs Hh Hf H.
  destruct (convert_at _ _ _ _ _ Hs H)
    as (bst & ha & stl & l' & hb & est & est' & on & B1 & B2 & B3 & F1 & F2 & F3).
  apply bh_loop_inv in B1. destruct B1 as (I1 & _).
  destruct (bh_step_cases _ _ _ _ _ I1 B2) as (_ & Sh & S3 & _).
  destruct (S3 Hh) as [_ Hp].
  unfold hdrb in Hh. apply andb_true_iff in Hh. destruct Hh as [Hh Hh3].
  apply andb_true_iff in Hh. destruct Hh as [Hh1 Hh2].
  apply negb_true_iff in Hh2.
  destruct (shape_fields _ _ Sh) as (Ec & _ & _ & _ & Ecb).
  rewrite Hf in F1.
  assert (Hn : nonblankb l' = true) by now rewrite (shape_nonblankb _ _ Sh).
  assert (Hcb : is_code_block l' = false) by now rewrite Ecb.
  destruct (emit_step_plain _ _ _ _ _ F1 Hn Hcb F2) as (d & t & Hd & Ht & Ho).
  rewrite depth_of_root in Hd by exact Hp. injection Hd as <-.
  rewrite (process_content_shape _ _ _ Sh), Ec in Ht.
  exists t. split; [exact Ht|]. intros n. rewrite F3, Ho.
  split; [now intros [= <-] | now intros ->].
Qed.

Lemma heading_line_no_nl (level : nat) (text line : str) :
  heading_line level text line ->
  Forall (fun c => c <> NL) line ->
  Forall (fun c => not_nl c = true) text.
Proof.
  intros (lead & ws & trail & E & _) H. subst line.
  do 3 (apply Forall_app in H; destruct H as [_ H]).
  apply Forall_app in H. destruct H as [H _].
  eapply Forall_impl; [|exact H]. intros c Hc. unfold not_nl.
  apply negb_true_iff. now apply N.eqb_neq.
Qed.

Lemma heading_example_line : heading_line 2 (py "Title") heading_example.
Proof.
  exists [], (py " "), []. repeat split; try discriminate;
    repeat constructor.
Qed.

(** C1 (amended): for every heading line of level 1 to 6 that is not inside
    a code block, the node that [convert_to_tana] emits for the line has
    depth 0 (no indentation, whatever the level), and its content is the
    heading text after the prefix "!! ", without the hash signs and the
    whitespace after them. *)
Theorem heading_node (input : str) (pre post : list str) (line text : str)
    (level : nat) (nodes : list (nat * node)) :
  split_nl input = pre ++ line :: post ->
  heading_line level text line -> 1 <= level <= 6 ->
  fence_open (parsed pre) = false ->
  convert_nodes input = Ok nodes ->
  convert_to_tana input
  = Ok (join [NL] (header_token :: map (fun p => render (snd p)) nodes))
  /\ forall n, In (List.length pre, n) nodes
               <-> n = mkNode 0 (py "!! " ++ text).
Proof.
  intros Hs Hh Hl Hf H. split.
  - destruct input as [|c input].
    + destruct pre as [|? [|? ?]]; try discriminate.
      injection Hs as <-.
      destruct Hh as (lead & ws & trail & E & _ & _ & _ & _ & Ht & _).
      symmetry in E. apply app_eq_nil in E. destruct E as [_ E].
      apply app_eq_nil in E. destruct E as [_ E].
      apply app_eq_nil in E. destruct E as [_ E].
      apply app_eq_nil in E. destruct E as [E _]. contradiction.
    + unfold convert_to_tana. now rewrite H.
  - assert (Hnl : Forall (fun c => not_nl c = true) text).
    { apply (heading_line_no_nl level text line Hh).
      pose proof (split_nl_no_nl input) as Hall. rewrite Hs in Hall.
      apply Forall_app in Hall. destruct Hall as [_ Hall].
      now inversion Hall. }
    destruct (heading_parse level text line Hh) as
      (ws & Hws & Hne & Ec & Est & Eh & Ecb); [lia|].
    assert (Hhdr : hdrb (parse_line line) = true).
    { unfold hdrb, nonblankb. rewrite Est, Ec, Eh, Ecb.
      destruct level; [lia|]. reflexivity. }
    destruct (header_node input pre line post nodes Hs Hhdr Hf H)
      as (t & Ht & Hn).
    destruct Hh as (_ & _ & _ & _ & _ & _ & _ & _ & Htne & Hst).
    destruct (strip_fixed text Htne Hst) as (Hsolid & _).
    destruct (header_re_match level ws text Hl Hws Hne Htne Hsolid Hnl)
      as (m & Em & Eg).
    unfold process_content in Ht. rewrite Eh, Est, Ec, Em, Eg in Ht.
    injection Ht as <-. exact Hn.
Qed.

Lemma heading_node_witness :
  convert_to_tana heading_example
  = Ok (join [NL] (header_token
                   :: map (fun p => render (snd p))
                          [(0, mkNode 0 (py "!! Title"))]))
  /\ forall n, In (0, n) [(0, mkNode 0 (py "!! Title"))]
               <-> n = mkNode 0 (py "!! " ++ py "Title").
Proof.
  apply (heading_node heading_example [] [] heading_example (py "Title") 2).
  - reflexivity.
  - exact heading_example_line.
  - lia.
  - reflexivity.
  - vm_compute. reflexivity.
Defined.

(** C1 as stated fails: the heading of level 2 of the example is emitted at
    depth 0, not at depth 1. *)
Lemma heading_depth_counterexample : ~ heading_depth_as_stated heading_example.
Proof.
  intros H.
  specialize (H [] heading_example [] 2 (py "Title")
                [(0, mkNode 0 (py "!! Title"))]).
  destruct H as [H | []].
  - reflexivity.
  - exact heading_example_line.
  - lia.
  - vm_compute. reflexivity.
  - vm_compute in H. discriminate.
Qed.

(** ** Lines without indentation under a heading *)

(** Inside a code block only a fence line appends a node. *)
Lemma emit_step_inside hl st l st' on :
  in_code_block st = true ->
  fenceb l = false ->
  emit_step hl st l = Ok (st', on) ->
  on = None.
Proof.
  unfold emit_step, fenceb, nonblankb. intros Hi Hf H.
  destruct (strip (content l)) as [|c0 cs].
  - now injection H as <- <-.
  - cbn [andb] in Hf. bind_inv H. rewrite Hi, Hf in H. cbn in H.
    now injection H as <- <-.
Qed.

(** The node of a header line has depth 0, wherever the line stands. *)
Lemma header_node_depth (input : str) (pre : list str) (line : str)
    (post : list str) (nodes : list (nat * node)) (n : node) :
  split_nl input = pre ++ line :: post ->
  hdrb (parse_line line) = true ->
  convert_nodes input = Ok nodes ->
  In (List.length pre, n) nodes ->
  n_depth n = 0.
Proof.
  intros Hs Hh H Hin.
  destruct (fence_open (parsed pre)) eqn:Hf.
  - destruct (convert_at _ _ _ _ _ Hs H)
      as (bst & ha & stl & l' & hb & est & est' & on & B1 & B2 & B3 & F1 & F2 & F3).
    apply bh_loop_inv in B1. destruct B1 as (I1 & _).
    destruct (bh_step_cases _ _ _ _ _ I1 B2) as (_ & Sh & _).
    rewrite Hf in F1.
    assert (Hfe : fenceb l' = false).
    { rewrite (shape_fenceb _ _ Sh). unfold hdrb in Hh. unfold fenceb.
      destruct (nonblankb (parse_line line)), (is_code_block (parse_line line));
        try reflexivity; discriminate. }
    rewrite (emit_step_inside _ _ _ _ _ F1 Hfe F2) in F3.
    apply F3 in Hin. discriminate.
  - destruct (header_node _ _ _ _ _ Hs Hh Hf H) as (t & _ & Hn).
    apply Hn in Hin. now subst n.
Qed.

(** C2 (amended): a list item or paragraph line without indentation that
    follows a heading, outside a code block, is emitted at depth 1, one
    level below the node of a heading (every heading node has depth 0).
    This holds with and without paragraph lines between the heading and the
    list item: a paragraph line without indentation is itself at depth 1,
    so the list item is at the depth of the paragraph, not one deeper. *)
Theorem plain_line_under_heading (input : str) (pre post : list str)
    (line : str) (nodes : list (nat * node)) :
  split_nl input = pre ++ line :: post ->
  plain0b (parse_line line) = true ->
  existsb hdrb (parsed pre) = true ->
  fence_open (parsed pre) = false ->
  convert_nodes input = Ok nodes ->
  (exists t, forall n, In (List.length pre, n) nodes <-> n = mkNode 1 t)
  /\ (forall pre' h post' n,
        split_nl input = pre' ++ h :: post' ->
        hdrb (parse_line h) = true ->
        In (List.length pre', n) nodes -> n_depth n = 0).
Proof.
  intros Hs Hp Hex Hf H. split.
  - destruct (convert_at _ _ _ _ _ Hs H)
      as (bst & ha & stl & l' & hb & est & est' & on & B1 & B2 & B3 & F1 & F2 & F3).
    apply bh_loop_inv in B1. destruct B1 as (I1 & _ & I3 & I4).
    destruct (bh_step_cases _ _ _ _ _ I1 B2) as (_ & Sh & _ & _ & S5).
    specialize (S5 Hp). specialize (I4 Hex).
    destruct (last_header bst) as [h|] eqn:Elh; [|contradiction].
    destruct (I3 h eq_refl) as (lh & Hn & Hpar).
    unfold plain0b in Hp. apply andb_true_iff in Hp. destruct Hp as [Hp _].
    apply andb_true_iff in Hp. destruct Hp as [Hp _].
    apply andb_true_iff in Hp. destruct Hp as [Hp1 Hp2].
    apply negb_true_iff in Hp2.
    destruct (shape_fields _ _ Sh) as (Ec & _ & _ & _ & Ecb).
    rewrite Hf in F1.
    assert (Hnb : nonblankb l' = true) by now rewrite (shape_nonblankb _ _ Sh).
    assert (Hcb : is_code_block l' = false) by now rewrite Ecb.
    destruct (emit_step_plain _ _ _ _ _ F1 Hnb Hcb F2) as (d & t & Hd & Ht & Ho).
    rewrite (depth_of_child _ _ h lh S5) in Hd; [| |exact Hpar].
    + injection Hd as <-. exists t. intros n. rewrite F3, Ho.
      split; [now intros [= <-] | now intros ->].
    + rewrite nth_error_app1; [exact Hn|].
      apply nth_error_Some. rewrite Hn. discriminate.
  - intros pre' h post' n Hs' Hh Hin.
    exact (header_node_depth _ _ _ _ _ _ Hs' Hh H Hin).
Qed.

Lemma plain_line_under_heading_witness :
  (exists t, forall n,
      In (2, n) [(0, mkNode 0 (py "!! Title")); (1, mkNode 1 (py "Some text"));
                 (2, mkNode 1 (py "item"))]
      <-> n = mkNode 1 t)
  /\ (forall pre' h post' n,
        split_nl list_example = pre' ++ h :: post' ->
        hdrb (parse_line h) = true ->
        In (List.length pre', n)
           [(0, mkNode 0 (py "!! Title")); (1, mkNode 1 (py "Some text"));
            (2, mkNode 1 (py "item"))] ->
        n_depth n = 0).
Proof.
  apply (plain_line_under_heading list_example [py "# Title"; py "Some text"]
           [] (py "- item")).
  - reflexivity.
  - reflexivity.
  - reflexivity.
  - reflexivity.
  - vm_compute. reflexivity.
Defined.

(** C2 as stated fails: in the example the list item that follows the
    paragraph is at depth 1, the depth of the paragraph. *)
Lemma list_under_paragraph_counterexample :
  ~ list_under_paragraph_as_stated list_example.
Proof.
  intros H.
  specialize (H [] (py "# Title") (py "Some text") (py "- item") []
                [(0, mkNode 0 (py "!! Title")); (1, mkNode 1 (py "Some text"));
                 (2, mkNode 1 (py "item"))]
                (mkNode 1 (py "Some text")) (mkNode 1 (py "item"))).
  cbn [n_depth] in H. assert (E : 1 = 2); [apply H|discriminate].
  - reflexivity.
  - reflexivity.
  - reflexivity.
  - reflexivity.
  - vm_compute. reflexivity.
  - right. left. reflexivity.
  - right. right. left. reflexivity.
Qed.

(** ** Code blocks *)

Lemma emit_interior hl (hm : list Line) : forall acc i st' ns,
  Forall (fun l => fenceb l = false) hm ->
  emit_loop hl (mkEmit true acc) i hm = Ok (st', ns) ->
  st' = mkEmit true (acc ++ map raw (filter nonblankb hm)) /\ ns = [].
Proof.
  induction hm as [|l hm IH]; intros acc i st' ns Hf H.
  - injection H as <- <-. simpl. now rewrite app_nil_r.
  - inversion Hf as [|? ? Hl Hm]; subst.
    cbn [emit_loop] in H. bind_inv H. destruct o as [st1 on].
    bind_inv H. destruct o as [st2 ns2]. cbn [fst snd] in *.
    injection H as <- <-.
    unfold emit_step in E. unfold fenceb in Hl. cbn [filter].
    unfold nonblankb in Hl |- *.
    destruct (strip (content l)) as [|c0 cs].
    + injection E as <- <-. apply (IH _ _ _ _ Hm E0).
    + cbn [andb] in Hl. bind_inv E. rewrite Hl in E. cbn in E.
      injection E as <- <-.
      destruct (IH _ _ _ _ Hm E0) as [-> ->].
      cbn [map]. now rewrite <- app_assoc.
Qed.

Lemma process_code_block_interior (o c : str) (xs : list str) :
  process_code_block ([o] ++ xs ++ [c]) = join [NL] (map strip xs).
Proof.
  unfold process_code_block, interior. cbn [app tl].
  now rewrite removelast_last.
Qed.

(** The output loop on a code block: one node, appended at the closing
    fence. *)
Lemma emit_block hl st i o' (hm : list Line) c' st' ns :
  in_code_block st = false ->
  fenceb o' = true ->
  Forall (fun l => fenceb l = false) hm ->
  fenceb c' = true ->
  emit_loop hl st i (o' :: hm ++ [c']) = Ok (st', ns) ->
  exists d,
    ns = [(i + List.length hm + 1,
           mkNode d (join [NL] (map strip (map raw (filter nonblankb hm)))))].
Proof.
  intros Hi Ho Hm Hc H.
  cbn [emit_loop] in H. bind_as H as o1 S1. destruct o1 as [st1 on1].
  bind_as H as o2 S2. destruct o2 as [st2 ns2]. cbn [fst snd] in *.
  injection H as <- <-.
  rewrite emit_loop_app in S2. bind_as S2 as o3 S3. destruct o3 as [st3 ns3].
  bind_as S2 as o4 S4. destruct o4 as [st4 ns4]. cbn [fst snd] in *.
  injection S2 as <- <-.
  cbn [emit_loop] in S4. bind_as S4 as o5 S5. destruct o5 as [st5 on5].
  cbn in S4. injection S4 as <- <-.
  (* the opening fence *)
  unfold emit_step in S1. unfold fenceb, nonblankb in Ho.
  destruct (strip (content o')) as [|a0 a1]; [discriminate|].
  cbn [andb] in Ho. bind_as S1 as d1 D1. rewrite Hi, Ho in S1. cbn in S1.
  injection S1 as <- <-.
  (* the interior *)
  destruct (emit_interior _ _ _ _ _ _ Hm S3) as [-> ->].
  (* the closing fence *)
  unfold emit_step in S5. unfold fenceb, nonblankb in Hc.
  destruct (strip (content c')) as [|b0 b1]; [discriminate|].
  cbn [andb] in Hc. bind_as S5 as d5 D5. rewrite Hc in S5. cbn in S5.
  injection S5 as <- <-.
  exists d5. rewrite removelast_last. cbn [app]. do 2 f_equal. lia.
Qed.

Lemma shape_raws (mid : list str) (hm : list Line) :
  Forall2 shape (parsed mid) hm ->
  map raw (filter nonblankb hm)
  = filter (fun l => nonblankb (parse_line l)) mid.
Proof.
  revert hm. induction mid as [|l mid IH]; intros hm H; inversion H; subst.
  - reflexivity.
  - cbn [filter]. rewrite (shape_nonblankb _ _ H2).
    destruct (shape_fields _ _ H2) as (_ & _ & Er & _).
    destruct (nonblankb (parse_line l)); cbn [map]; rewrite ?Er, IH;
      try assumption; reflexivity.
Qed.

Lemma shape_fences (mid : list str) (hm : list Line) :
  Forall2 shape (parsed mid) hm ->
  Forall (fun l => fenceb (parse_line l) = false) mid ->
  Forall (fun l => fenceb l = false) hm.
Proof.
  revert hm. induction mid as [|l mid IH]; intros hm H Hf; inversion H; subst.
  - constructor.
  - inversion Hf; subst. constructor; [|now apply IH].
    now rewrite (shape_fenceb _ _ H2).
Qed.

(** C4 (amended): for every fenced code block of the input that opens
    outside a code block (any number of interior lines, also none),
    [convert_to_tana] emits exactly one node for the lines of the block, at
    the closing fence; its text is made of the interior lines that are not
    blank, each stripped of the whitespace around it, joined with line
    breaks; the two fence lines are not part of it. *)
Theorem code_block_node (input : str) (pre : list str) (opening : str)
    (mid : list str) (closing : str) (post : list str)
    (nodes : list (nat * node)) :
  split_nl input = pre ++ opening :: mid ++ closing :: post ->
  fence_open (parsed pre) = false ->
  fenceb (parse_line opening) = true ->
  fenceb (parse_line closing) = true ->
  Forall (fun l => fenceb (parse_line l) = false) mid ->
  convert_nodes input = Ok nodes ->
  exists d, forall k n,
    List.length pre <= k <= List.length pre + List.length mid + 1 ->
    (In (k, n) nodes
     <-> k = List.length pre + List.length mid + 1
         /\ n = mkNode d (code_text mid)).
Proof.
  intros Hs Hf Ho Hc Hm H. unfold convert_nodes, build_hierarchy in H.
  replace (pre ++ opening :: mid ++ closing :: post)
    with (pre ++ (opening :: mid ++ [closing]) ++ post) in Hs
    by (simpl; now rewrite <- app_assoc).
  rewrite Hs in H. bind_as H as hl B. bind_as B as bo B1.
  destruct bo as [bst hl']. injection B as <-. cbn [snd] in H.
  bind_as H as eo E1. destruct eo as [est ns]. injection H as <-. cbn [snd].
  apply bh_loop_inv in B1. destruct B1 as (_ & Sh & _).
  rewrite !map_app in Sh. cbn [map] in Sh. rewrite map_app in Sh.
  cbn [map] in Sh.
  apply Forall2_app_inv_l in Sh.
  destruct Sh as (ha & hr & Sha & Shr & ->).
  apply Forall2_app_inv_l in Shr.
  destruct Shr as (hblock & hb & Shb & _ & ->).
  inversion Shb as [|? o' ? hmc So Smc]; subst.
  apply Forall2_app_inv_l in Smc.
  destruct Smc as (hm & hc & Shm & Shc & ->).
  inversion Shc as [|? c' ? hnil Sc Snil]; subst. inversion Snil; subst.
  (* the output loop on the three parts *)
  rewrite emit_loop_app in E1. bind_as E1 as o1 F1. destruct o1 as [sta na].
  bind_as E1 as o2 F2. destruct o2 as [stb nbb]. cbn [fst snd] in *.
  injection E1 as <- <-.
  rewrite emit_loop_app in F2. bind_as F2 as o3 F3. destruct o3 as [stc nblock].
  bind_as F2 as o4 F4. destruct o4 as [std nb]. cbn [fst snd] in *.
  injection F2 as <- <-.
  pose proof F1 as Ba. apply emit_loop_bounds in Ba.
  pose proof F4 as Bb. apply emit_loop_bounds in Bb.
  rewrite Forall_forall in Ba, Bb.
  apply emit_loop_flag in F1. cbn [in_code_block] in F1.
  change (in_code_block sta = fence_open ha) in F1.
  unfold parsed in Hf. rewrite (fence_open_shape _ _ Sha), Hf in F1.
  assert (Ho' : fenceb o' = true) by now rewrite (shape_fenceb _ _ So).
  assert (Hm' : Forall (fun l => fenceb l = false) hm)
    by now apply (shape_fences mid).
  assert (Hc' : fenceb c' = true) by now rewrite (shape_fenceb _ _ Sc).
  destruct (emit_block _ _ _ _ _ _ _ _ F1 Ho' Hm' Hc' F3) as (d & ->).
  pose proof (Forall2_shape_length _ _ Sha) as La.
  pose proof (Forall2_shape_length _ _ Shm) as Lm.
  unfold parsed in La, Lm. rewrite length_map in La, Lm.
  rewrite (shape_raws mid hm Shm). fold (code_text mid).
  exists d. intros k n Hk. rewrite !in_app_iff. cbn [In Nat.add].
  rewrite La, Lm. split.
  - intros [Hin | [[Hin | []] | Hin]].
    + apply Ba in Hin. cbn [fst] in Hin. lia.
    + injection Hin as <- <-. split; [lia | reflexivity].
    + apply Bb in Hin. cbn [fst] in Hin.
      rewrite La in Hin. cbn [List.length] in Hin. rewrite length_app in Hin.
      cbn [List.length] in Hin. lia.
  - intros [-> ->]. right. left. left. f_equal; lia.
Qed.

Lemma code_block_node_witness :
  exists d, forall k n,
    List.length (@nil str) <= k
    <= List.length (@nil str) + List.length [py "  x"] + 1 ->
    (In (k, n) [(2, mkNode 1 (py "x"))]
     <-> k = List.length (@nil str) + List.length [py "  x"] + 1
         /\ n = mkNode d (code_text [py "  x"])).
Proof.
  apply (code_block_node code_example [] (py "```") [py "  x"] (py "```") []).
  - reflexivity.
  - reflexivity.
  - reflexivity.
  - reflexivity.
  - repeat constructor.
  - vm_compute. reflexivity.
Defined.

(** C4 as stated fails: the interior line of the example is indented, and
    the node holds it without its indentation. *)
Lemma code_block_text_counterexample : ~ code_block_text_as_stated code_example.
Proof.
  intros H.
  destruct (H [] (py "```") [py "  x"] (py "```") [] [(2, mkNode 1 (py "x"))])
    as (d & [Hin | []]).
  - reflexivity.
  - reflexivity.
  - reflexivity.
  - reflexivity.
  - repeat constructor.
  - vm_compute. reflexivity.
  - vm_compute in Hin. discriminate.
Qed.

(** ** What a match and a substitution are made of

    A property [P] of characters that holds for all characters of the
    subject holds for the matched text and for every captured group; a
    substitution whose replacements keep [P] keeps it. *)

Section Preserve.

Variable P : char -> Prop.

Lemma advance_keeps (p : char -> bool) (c c' : cur) :
  advance p c = Some c' -> Forall P (c_rest c) -> Forall P (c_rest c').
Proof.
  unfold advance. destruct (c_rest c) as [|x rest]; [discriminate|].
  destruct (p x); [|discriminate]. intros [= <-] H. now inversion H.
Qed.

Lemma lit_keeps (s : str) : forall c c',
  lit s c = Some c' -> Forall P (c_rest c) -> Forall P (c_rest c').
Proof.
  induction s as [|x s IH]; intros c c' H Hc.
  - now injection H as <-.
  - cbn [lit] in H. destruct (advance (is_chr x) c) as [c1|] eqn:E;
      [|discriminate].
    eapply IH; [exact H|]. eapply advance_keeps; eauto.
Qed.

Lemma mrep_reach {R} (p : char -> bool) (greedy : bool) (k : cur -> option R)
    (res : R) (rest : str) : forall lo hi pos prev,
  mrep p greedy lo hi pos prev rest k = Some res ->
  Forall P rest ->
  exists c', k c' = Some res /\ Forall P (c_rest c').
Proof.
  induction rest as [|x rest IH]; intros lo hi pos prev H Hr.
  - cbn [mrep] in H. destruct greedy, lo; try discriminate.
    + eexists; split; [exact H|exact Hr].
    + destruct (k (Cur pos prev [])) eqn:Ek; [|discriminate].
      injection H as <-. eexists; split; [exact Ek|exact Hr].
  - inversion Hr as [|? ? Hx Hrest]; subst. cbn [mrep] in H.
    assert (Hmore : forall lo' hi', 
               mrep p greedy lo' hi' (S pos) (Some x) rest k = Some res ->
               exists c', k c' = Some res /\ Forall P (c_rest c')).
    { intros lo' hi' Hm. eapply IH; eauto. }
    destruct greedy.
    + destruct (p x).
      * destruct (hi_pred hi) as [hi'|].
        -- destruct (mrep p true (pred lo) hi' (S pos) (Some x) rest k) eqn:Em.
           ++ injection H as <-. eapply Hmore; eauto.
           ++ destruct lo; [|discriminate]. eexists; split; [exact H|exact Hr].
        -- destruct lo; [|discriminate]. eexists; split; [exact H|exact Hr].
      * destruct lo; [|discriminate]. eexists; split; [exact H|exact Hr].
    + destruct lo.
      * destruct (k (Cur pos prev (x :: rest))) eqn:Ek.
        -- injection H as <-. eexists; split; [exact Ek|exact Hr].
        -- destruct (p x); [|discriminate].
           destruct (hi_pred hi) as [hi'|]; [|discriminate].
           eapply Hmore; eauto.
      * destruct (p x); [|discriminate].
        destruct (hi_pred hi) as [hi'|]; [|discriminate].
        eapply Hmore; eauto.
Qed.

Lemma rmatch_reach {R} (r : re) : forall (c : cur) (g : caps)
    (k : cur -> caps -> option R) (res : R),
  rmatch r c g k = Some res ->
  Forall P (c_rest c) -> caps_all (Forall P) g ->
  exists c' g', k c' g' = Some res
                /\ Forall P (c_rest c') /\ caps_all (Forall P) g'.
Proof.
  induction r as [|p|s|p lo hi greedy|a IHa b IHb|a IHa b IHb|a IHa|n a IHa
                 |a IHa|ml|ml]; intros c g k res H Hc Hg; cbn [rmatch] in H.
  - now exists c, g.
  - destruct (advance p c) as [c1|] eqn:E; [|discriminate].
    exists c1, g. repeat split; try assumption. eapply advance_keeps; eauto.
  - destruct (lit s c) as [c1|] eqn:E; [|discriminate].
    exists c1, g. repeat split; try assumption. eapply lit_keeps; eauto.
  - apply mrep_reach in H; [|exact Hc]. destruct H as (c' & Hk & Hc').
    now exists c', g.
  - apply IHa in H; try assumption. destruct H as (c1 & g1 & H & Hc1 & Hg1).
    apply IHb in H; assumption.
  - destruct (rmatch a c g k) eqn:Ea.
    + injection H as <-. eapply IHa; eauto.
    + eapply IHb; eauto.
  - destruct (rmatch a c g k) eqn:Ea.
    + injection H as <-. eapply IHa; eauto.
    + now exists c, g.
  - apply IHa in H; try assumption. destruct H as (c1 & g1 & H & Hc1 & Hg1).
    eexists c1, _. split; [exact H|]. split; [exact Hc1|].
    constructor; [|exact Hg1]. cbn [snd]. now apply Forall_firstn.
  - destruct (rmatch a c g (fun _ _ => Some tt)); [discriminate|].
    now exists c, g.
  - destruct (at_bol ml c); [|discriminate]. now exists c, g.
  - destruct (at_eol ml c); [|discriminate]. now exists c, g.
Qed.

Lemma lookup_all (Q : str -> Prop) (g : caps) (n : nat) (t : str) :
  caps_all Q g -> lookup n g = Some t -> Q t.
Proof.
  induction 1 as [|[i u] g Hu _ IH]; [discriminate|]. cbn [lookup].
  destruct (Nat.eqb i n); [|exact IH]. now intros [= <-].
Qed.

(** A match on a subject made of [P]-characters. *)
Lemma match_at_keeps (r : re) (c : cur) (m : mobj) :
  match_at r c = Some m -> Forall P (c_rest c) ->
  Forall P (m_text m) /\ caps_all (Forall P) (m_caps m)
  /\ m_ngroups m = ngroups r.
Proof.
  unfold match_at. intros H Hc.
  destruct (rmatch r c [] (fun c' g => Some (c', g))) as [[c1 g1]|] eqn:E;
    [|discriminate].
  injection H as <-. cbn [m_text m_caps m_ngroups].
  apply rmatch_reach in E; [|exact Hc|constructor].
  destruct E as (c' & g' & [= <- <-] & _ & Hg).
  repeat split; [now apply Forall_firstn | exact Hg].
Qed.

Lemma group_s_keeps (m : mobj) (n : nat) :
  Forall P (m_text m) -> caps_all (Forall P) (m_caps m) ->
  Forall P (group_s m n).
Proof.
  intros Ht Hg. unfold group_s, group. destruct n; [exact Ht|].
  destruct (lookup (S n) (m_caps m)) eqn:E; [|constructor].
  eapply lookup_all; eauto.
Qed.

(** The substitution loop: when every replacement is made of
    [P]-characters and keeps an invariant [Q] of the state, so is the
    result. *)
Lemma sub_scan_keeps {St} (Q : St -> Prop) (r : re)
    (repl : St -> mobj -> result (str * St)) :
  (forall st m o,
      Q st -> Forall P (m_text m) -> caps_all (Forall P) (m_caps m) ->
      m_ngroups m = ngroups r ->
      repl st m = Ok o -> Forall P (fst o) /\ Q (snd o)) ->
  forall rest st pos prev skip o,
    Q st -> Forall P rest ->
    sub_scan r repl st pos prev rest skip = Ok o ->
    Forall P (fst o) /\ Q (snd o).
Proof.
  intros Hrepl. induction rest as [|x rest IH];
    intros st pos prev skip o Hq Hr H; cbn [sub_scan] in H.
  - destruct skip.
    + destruct (match_at r (Cur pos prev [])) as [m|] eqn:Em.
      * apply match_at_keeps in Em; [|exact Hr].
        destruct Em as (M1 & M2 & M3). eapply Hrepl; eauto.
      * injection H as <-. split; [constructor|exact Hq].
    + injection H as <-. split; [constructor|exact Hq].
  - inversion Hr as [|? ? Hx Hrest]; subst. destruct skip.
    + destruct (match_at r (Cur pos prev (x :: rest))) as [m|] eqn:Em.
      * apply match_at_keeps in Em; [|exact Hr].
        destruct Em as (M1 & M2 & M3).
        bind_as H as o1 E1.
        destruct (Hrepl _ _ _ Hq M1 M2 M3 E1) as [Ho1 Hq1].
        destruct (List.length (m_text m)).
        -- bind_as H as o2 E2. injection H as <-. cbn [fst snd].
           destruct (IH _ _ _ _ _ Hq1 Hrest E2) as [Ho2 Hq2].
           split; [|exact Hq2]. apply Forall_app. split; [exact Ho1|].
           now constructor.
        -- bind_as H as o2 E2. injection H as <-. cbn [fst snd].
           destruct (IH _ _ _ _ _ Hq1 Hrest E2) as [Ho2 Hq2].
           split; [|exact Hq2]. apply Forall_app. now split.
      * bind_as H as o2 E2. injection H as <-. cbn [fst snd].
        destruct (IH _ _ _ _ _ Hq Hrest E2) as [Ho2 Hq2].
        split; [|exact Hq2]. now constructor.
    + eapply IH; eauto.
Qed.

Lemma re_sub_st_keeps {St} (Q : St -> Prop) (r : re)
    (repl : St -> mobj -> result (str * St)) (st : St) (s : str)
    (o : str * St) :
  (forall st m o,
      Q st -> Forall P (m_text m) -> caps_all (Forall P) (m_caps m) ->
      m_ngroups m = ngroups r ->
      repl st m = Ok o -> Forall P (fst o) /\ Q (snd o)) ->
  Q st -> Forall P s ->
  re_sub_st r repl st s = Ok o ->
  Forall P (fst o) /\ Q (snd o).
Proof.
  intros Hrepl Hq Hs H. unfold re_sub_st in H.
  eapply sub_scan_keeps; eauto.
Qed.

Lemma re_sub_keeps (r : re) (repl : mobj -> result str) (s t : str) :
  (forall m o,
      Forall P (m_text m) -> caps_all (Forall P) (m_caps m) ->
      m_ngroups m = ngroups r ->
      repl m = Ok o -> Forall P o) ->
  Forall P s ->
  re_sub r repl s = Ok t ->
  Forall P t.
Proof.
  intros Hrepl Hs H. unfold re_sub in H. bind_as H as o E. injection H as <-.
  eapply (re_sub_st_keeps (fun _ => True)) in E; eauto; [now destruct E|].
  intros [] m o' _ M1 M2 M3 Hm. bind_as Hm as u Eu. injection Hm as <-.
  split; [|exact I]. cbn [fst]. eapply Hrepl; eauto.
Qed.

End Preserve.

(** ** Line breaks in the content of a node *)

Lemma no_nlb_ok (s : str) : no_nlb s = true -> no_nl s.
Proof.
  unfold no_nlb, no_nl. rewrite forallb_forall, Forall_forall.
  intros H c Hc. apply H in Hc. apply negb_true_iff in Hc.
  now apply N.eqb_neq.
Qed.

Ltac literal := apply no_nlb_ok; reflexivity.

Ltac no_nl_app :=
  repeat first
    [ assumption
    | literal
    | apply Forall_nil
    | apply Forall_cons; [discriminate|]
    | match goal with
      | H : no_nl (?c :: ?s) |- Forall _ (?c :: _) =>
          apply Forall_cons; [exact (Forall_inv H)|]
      | H : no_nl (?c :: ?s) |- Forall _ (?s ++ _) =>
          apply Forall_app; split; [exact (Forall_inv_tail H)|]
      end
    | apply Forall_app; split ].

Lemma no_nl_lstrip (s : str) : no_nl s -> no_nl (lstrip s).
Proof.
  induction 1 as [|c s Hc Hs IH]; [constructor|]. simpl.
  destruct (isspace c); [exact IH | now constructor].
Qed.

Lemma no_nl_rstrip (s : str) : no_nl s -> no_nl (rstrip s).
Proof.
  intros H. unfold rstrip. apply Forall_rev, no_nl_lstrip, Forall_rev, H.
Qed.

Lemma no_nl_strip (s : str) : no_nl s -> no_nl (strip s).
Proof. intros H. apply no_nl_rstrip, no_nl_lstrip, H. Qed.

Lemma no_nl_str_of_nat_fuel (fuel : nat) : forall n acc,
  no_nl acc -> no_nl (str_of_nat_fuel fuel n acc).
Proof.
  induction fuel as [|fuel IH]; intros n acc H; [exact H|].
  cbn [str_of_nat_fuel].
  assert (Hd : no_nl (digit_char (n mod 10) :: acc)).
  { constructor; [|exact H]. unfold digit_char, NL. lia. }
  destruct (n / 10 =? 0); [exact Hd | now apply IH].
Qed.

Lemma no_nl_placeholder (n : nat) : no_nl (placeholder n).
Proof.
  unfold placeholder. no_nl_app.
  apply no_nl_str_of_nat_fuel. constructor.
Qed.

Lemma no_nl_zfill2 (s : str) : no_nl s -> no_nl (zfill2 s).
Proof.
  intros H. destruct s as [|a [|b s]]; cbn [zfill2]; [literal| |exact H].
  constructor; [discriminate|exact H].
Qed.

Lemma no_nl_group_s (m : mobj) (n : nat) :
  no_nl (m_text m) -> caps_all no_nl (m_caps m) -> no_nl (group_s m n).
Proof. apply group_s_keeps. Qed.

(** The protecting substitution. *)
Lemma protect_keeps (text : str) (o : str * list str) :
  no_nl text ->
  re_sub_st protect_re protect_repl [] text = Ok o ->
  no_nl (fst o) /\ Forall no_nl (snd o).
Proof.
  intros Ht H.
  apply (re_sub_st_keeps (fun c => c <> NL) (Forall no_nl)
           protect_re protect_repl [] text o);
    [ | constructor | exact Ht | exact H].
  intros st m o' Hq M1 M2 _ Hr. unfold protect_repl in Hr.
  injection Hr as <-. cbn [fst snd]. split; [apply no_nl_placeholder|].
  apply Forall_app. split; [exact Hq|]. now constructor.
Qed.

(** The restoring substitution. *)
Lemma restore_keeps (items : list str) (text t : str) :
  Forall no_nl items -> no_nl text ->
  re_sub restore_re (restore_repl items) text = Ok t ->
  no_nl t.
Proof.
  intros Hi Ht H.
  apply (re_sub_keeps (fun c => c <> NL) restore_re (restore_repl items)
           text t); [ | exact Ht | exact H].
  intros m o _ _ _ Hr. unfold restore_repl in Hr.
  destruct (int_of_digits (group_s m 1)) as [n| |]; try discriminate.
  cbn [bind] in Hr. unfold index in Hr. destruct (nth_error items (N.to_nat n)) eqn:En;
    [|discriminate].
  injection Hr as <-. apply nth_error_In in En.
  rewrite Forall_forall in Hi. now apply Hi.
Qed.

(** A branch of [parse_date] that unpacks [m.groups()] into one name more
    than the pattern has groups raises. *)
Ltac unpack_raises E H :=
  unfold re_match in E;
  apply (match_at_keeps (fun c => c <> NL)) in E; [|assumption];
  destruct E as (_ & _ & E);
  match type of E with
  | _ = ?n => let v := eval compute in n in change n with v in E
  end;
  unfold groups in H; rewrite E in H; cbn [seq map] in H; discriminate.

Lemma parse_date_keeps (t : str) (d : ParsedDate) :
  no_nl t -> parse_date t = Ok (Some d) -> no_nl (format_tana_date d).
Proof.
  intros Ht H. unfold parse_date in H.
  destruct (startswith (py "[[date:") t && endswith (py "]]") t)%bool.
  { injection H as <-. exact Ht. }
  destruct (re_match week_re t) as [m|] eqn:E1; [unpack_raises E1 H|].
  destruct (re_match week_range_re t) as [m|] eqn:E2; [unpack_raises E2 H|].
  destruct (re_match iso_time_re t) as [m|] eqn:E3; [unpack_raises E3 H|].
  destruct (re_match legacy_time_re t) as [m|] eqn:E4; [unpack_raises E4 H|].
  destruct (re_match duration_re t) as [m|] eqn:E5; [unpack_raises E5 H|].
  destruct (re_match iso_duration_re t) as [m|] eqn:E6; [unpack_raises E6 H|].
  destruct (re_match iso_re t) as [m|] eqn:E7.
  { injection H as <-. unfold re_match in E7.
    apply (match_at_keeps (fun c => c <> NL)) in E7; [|assumption].
    destruct E7 as (M1 & M2 & _). unfold format_tana_date.
    cbn [is_processed d_value]. pose proof (no_nl_group_s m 1 M1 M2).
    no_nl_app. }
  destruct (re_match month_year_re t) as [m|] eqn:E8; [unpack_raises E8 H|].
  destruct (re_match year_re t) as [m|] eqn:E9; [|discriminate].
  injection H as <-. unfold re_match in E9.
  apply (match_at_keeps (fun c => c <> NL)) in E9; [|assumption].
  destruct E9 as (M1 & M2 & _). unfold format_tana_date.
  cbn [is_processed d_value]. pose proof (no_nl_group_s m 1 M1 M2).
  no_nl_app.
Qed.

(** On a text without line break [parse_date] returns only from its first
    branch and from the branches of the ISO date and of the year. *)
Lemma date_repl_keeps (m : mobj) (o : str) :
  no_nl (m_text m) -> date_repl m = Ok o -> no_nl o.
Proof.
  intros Hm H. unfold date_repl in H. bind_as H as d E.
  destruct d as [d|]; [|now injection H as <-].
  bind_as H as d' E'. destruct d' as [d'|]; [|discriminate].
  injection H as <-. eapply parse_date_keeps; eauto.
Qed.

Lemma convert_dates_keeps (text t : str) :
  no_nl text -> convert_dates text = Ok t -> no_nl t.
Proof.
  intros Ht H. unfold convert_dates in H.
  bind_as H as o E. apply protect_keeps in E; [|exact Ht].
  destruct E as [Ho Hi]. bind_as H as t1 E1.
  apply (restore_keeps (snd o) t1 t Hi); [|exact H].
  apply (re_sub_keeps (fun c => c <> NL) date_pattern date_repl (fst o) t1);
    [ | exact Ho | exact E1].
  intros m o' M1 _ _ Hr. now apply (date_repl_keeps m).
Qed.

Lemma convert_fields_keeps (text t : str) :
  no_nl text -> convert_fields text = Ok t -> no_nl t.
Proof.
  intros Ht H. unfold convert_fields in H.
  destruct (contains (py "::") text); [now injection H as <-|].
  destruct (contains (py "|") text); [now injection H as <-|].
  apply (re_sub_keeps (fun c => c <> NL) field_re field_repl text t);
    [ | exact Ht | exact H].
  intros m o M1 M2 _ Hr. unfold field_repl in Hr.
  pose proof (no_nl_group_s m 1 M1 M2). pose proof (no_nl_group_s m 2 M1 M2).
  pose proof (no_nl_group_s m 3 M1 M2).
  destruct (negb (startswith (py "[[") (group_s m 3)));
    injection Hr as <-; no_nl_app.
Qed.

Lemma inline_keeps (text t : str) :
  no_nl text -> process_inline_formatting text = Ok t -> no_nl t.
Proof.
  intros Ht H. unfold process_inline_formatting in H.
  bind_as H as o E. apply protect_keeps in E; [|exact Ht].
  destruct E as [Ho Hi].
  bind_as H as t1 E1. bind_as H as t2 E2. bind_as H as t3 E3.
  bind_as H as t4 E4. bind_as H as t5 E5. bind_as H as t6 E6.
  apply (restore_keeps (snd o) t6 t Hi); [|exact H].
  assert (H1 : no_nl t1).
  { eapply (re_sub_keeps (fun c => c <> NL)); [ | exact Ho | exact E1].
    intros m o' M1 M2 _ [= <-]. pose proof (no_nl_group_s m 1 M1 M2).
    no_nl_app. }
  assert (H2 : no_nl t2).
  { eapply (re_sub_keeps (fun c => c <> NL)); [ | exact H1 | exact E2].
    intros m o' M1 M2 _ [= <-]. pose proof (no_nl_group_s m 1 M1 M2).
    no_nl_app. }
  assert (H3 : no_nl t3).
  { eapply (re_sub_keeps (fun c => c <> NL)); [ | exact H2 | exact E3].
    intros m o' M1 M2 _ [= <-]. pose proof (no_nl_group_s m 1 M1 M2).
    no_nl_app. }
  assert (H4 : no_nl t4).
  { eapply (re_sub_keeps (fun c => c <> NL)); [ | exact H3 | exact E4].
    intros m o' M1 M2 _ Hr. unfold image_repl in Hr.
    pose proof (no_nl_group_s m 1 M1 M2). pose proof (no_nl_group_s m 2 M1 M2).
    destruct (group_s m 1); injection Hr as <-; no_nl_app. }
  assert (H5 : no_nl t5).
  { eapply (re_sub_keeps (fun c => c <> NL)); [ | exact H4 | exact E5].
    intros m o' M1 M2 _ [= <-].
    pose proof (no_nl_group_s m 1 M1 M2). pose proof (no_nl_group_s m 2 M1 M2).
    no_nl_app. }
  eapply (re_sub_keeps (fun c => c <> NL)); [ | exact H5 | exact E6].
  intros m o' M1 M2 _ Hr. unfold tag_repl in Hr.
  pose proof (no_nl_group_s m 1 M1 M2).
  destruct (contains (py " ") (group_s m 1));
    [|destruct (negb (startswith (py "[[") (group_s m 1)))];
    injection Hr as <-; no_nl_app.
Qed.

(** The content of a node that is not a code block has no line break. *)
Lemma process_content_keeps (l : Line) (c t : str) :
  no_nl c -> process_content l c = Ok t -> no_nl t.
Proof.
  intros Hc H. unfold process_content in H. destruct (is_header l).
  - destruct (re_match header_re c) as [m|] eqn:E; [|now injection H as <-].
    injection H as <-. unfold re_match in E.
    apply (match_at_keeps (fun c => c <> NL)) in E; [|assumption].
    destruct E as (M1 & M2 & _). pose proof (no_nl_group_s m 2 M1 M2).
    no_nl_app.
  - bind_as H as t1 E1. bind_as H as t2 E2. bind_as H as t3 E3.
    apply (inline_keeps t3 t); [|exact H].
    apply (convert_dates_keeps t2 t3); [|exact E3].
    apply (convert_fields_keeps t1 t2); [|exact E2].
    eapply (re_sub_keeps (fun c => c <> NL)); [ | exact Hc | exact E1].
    intros m o _ _ _ [= <-]. constructor.
Qed.

(** ** The lines of the output *)

Lemma split_nl_app_nl (a b : str) :
  split_nl (a ++ NL :: b) = split_nl a ++ split_nl b.
Proof.
  induction a as [|c a IH]; [reflexivity|].
  cbn [app split_nl]. rewrite IH. destruct (N.eqb c NL); [reflexivity|].
  destruct (split_nl a) as [|l ls] eqn:E; [|reflexivity].
  exfalso. now apply (split_nl_not_nil a).
Qed.

Lemma split_nl_join (x : str) (xs : list str) :
  split_nl (join [NL] (x :: xs)) = List.concat (map split_nl (x :: xs)).
Proof.
  revert x. induction xs as [|y xs IH]; intros x.
  - simpl. now rewrite app_nil_r.
  - rewrite join_cons. change ([NL] ++ join [NL] (y :: xs))
      with (NL :: join [NL] (y :: xs)).
    rewrite split_nl_app_nl, IH. reflexivity.
Qed.

Lemma split_nl_single (s : str) : no_nl s -> split_nl s = [s].
Proof.
  induction 1 as [|c s Hc _ IH]; [reflexivity|].
  cbn [split_nl]. apply N.eqb_neq in Hc. now rewrite Hc, IH.
Qed.

Lemma split_nl_prefix (p t : str) :
  no_nl p ->
  split_nl (p ++ t) = (p ++ hd [] (split_nl t)) :: tl (split_nl t).
Proof.
  induction 1 as [|c p Hc _ IH].
  - simpl. destruct (split_nl t) eqn:E; [|reflexivity].
    exfalso. now apply (split_nl_not_nil t).
  - cbn [app split_nl]. apply N.eqb_neq in Hc. now rewrite Hc, IH.
Qed.

Lemma no_nl_indent (d : nat) : no_nl (str_mul (py "  ") d).
Proof. induction d; cbn [str_mul]; no_nl_app. Qed.

Lemma no_nl_render (n : node) : no_nl (n_text n) -> no_nl (render n).
Proof.
  intros H. unfold render. pose proof (no_nl_indent (n_depth n)). no_nl_app.
Qed.

Lemma no_nl_parse_line (l : str) : no_nl l -> no_nl (content (parse_line l)).
Proof.
  intros H. rewrite parse_line_eq. cbn [content].
  now apply no_nl_rstrip, no_nl_lstrip.
Qed.

(** The node an iteration of the output loop appends: its depth is the
    depth of the line of the iteration, and outside a code block its text is
    the processed content of the line. *)
Lemma emit_step_node hl st l st' (n : node) :
  emit_step hl st l = Ok (st', Some n) ->
  depth_of hl l = Ok (n_depth n)
  /\ (is_code_block l = false ->
      process_content l (strip (content l)) = Ok (n_text n)).
Proof.
  unfold emit_step. intros H.
  destruct (strip (content l)) as [|c0 cs]; [discriminate|].
  bind_as H as d Ed.
  destruct (is_code_block l) eqn:Ecb, (in_code_block st) eqn:Ei; cbn in H.
  - injection H as <- <-. split; [exact Ed|discriminate].
  - discriminate.
  - discriminate.
  - bind_as H as t Et. injection H as <- <-. split; [exact Ed|].
    intros _. exact Et.
Qed.

Lemma shape_no_nl (ls : list str) (hl : list Line) :
  Forall2 shape (parsed ls) hl ->
  Forall no_nl ls ->
  Forall (fun l => no_nl (content l)) hl.
Proof.
  revert hl. induction ls as [|l ls IH]; intros hl H Hn;
    inversion H; subst; [constructor|].
  inversion Hn; subst. constructor; [|now apply IH].
  destruct (shape_fields _ _ H2) as (-> & _). now apply no_nl_parse_line.
Qed.

(** The lines of a rendered node. *)
Lemma render_lines (n : node) :
  split_nl (render n)
  = (str_mul (py "  ") (n_depth n) ++ py "- " ++ hd [] (split_nl (n_text n)))
    :: tl (split_nl (n_text n)).
Proof.
  unfold render. rewrite app_assoc, split_nl_prefix.
  - now rewrite <- app_assoc.
  - pose proof (no_nl_indent (n_depth n)). no_nl_app.
Qed.

(** C5 (amended): for every non-empty input on which [convert_to_tana]
    returns, the first line of the output is the header token, and the
    lines after it are the lines of the emitted nodes in order.  Every node
    belongs to a line of the hierarchy and is rendered as indent + "- " +
    content, the indent being two spaces per nesting level of that line,
    that is, per parent link between the line and a root of the hierarchy
    (a line whose parent is -1 or not set), as [depth_of] counts them.
    The first line of every node has this form, and a node that is not a
    code block is that one line; the node of a code block holds the interior
    lines of the block joined with line breaks, so that its later lines are
    bare. *)
Theorem output_format (input out : str) :
  input <> [] ->
  convert_to_tana input = Ok out ->
  exists hl nodes,
    build_hierarchy (parsed (split_nl input)) = Ok hl
    /\ convert_nodes input = Ok nodes
    /\ split_nl out
       = header_token
         :: List.concat (map (fun p => split_nl (render (snd p))) nodes)
    /\ Forall (fun p => exists line,
                 nth_error hl (fst p) = Some line
                 /\ depth_of hl line = Ok (n_depth (snd p))
                 /\ split_nl (render (snd p))
                    = (str_mul (py "  ") (n_depth (snd p)) ++ py "- "
                       ++ hd [] (split_nl (n_text (snd p))))
                      :: tl (split_nl (n_text (snd p)))
                 /\ (is_code_block line = false ->
                     split_nl (render (snd p))
                     = [str_mul (py "  ") (n_depth (snd p)) ++ py "- "
                        ++ n_text (snd p)])) nodes.
Proof.
  intros Hne H. destruct input as [|c0 input]; [contradiction|].
  unfold convert_to_tana in H. bind_as H as nodes E.
  apply Ok_inj in H. rename H into Eo.
  pose proof E as En. unfold convert_nodes in E.
  bind_as E as hl B. bind_as E as eo E1. destruct eo as [est ns].
  injection E as <-. cbn [snd] in *.
  exists hl, ns. split; [exact B|]. split; [exact En|]. split.
  { rewrite <- Eo, split_nl_join. cbn [map List.concat]. rewrite map_map.
    reflexivity. }
  assert (Hnl : Forall (fun l => no_nl (content l)) hl).
  { unfold build_hierarchy in B. bind_as B as bo B1. destruct bo as [bst hl'].
    injection B as <-. cbn [snd]. apply bh_loop_inv in B1.
    destruct B1 as (_ & Sh & _).
    apply (shape_no_nl (split_nl (c0 :: input))); [exact Sh|].
    apply split_nl_no_nl. }
  apply Forall_forall. intros [i n] Hin. cbn [fst snd].
  pose proof (emit_loop_bounds _ _ _ _ _ _ E1) as Hb.
  rewrite Forall_forall in Hb. specialize (Hb _ Hin). cbn [fst] in Hb.
  destruct (nth_error hl i) as [line|] eqn:Hi;
    [|apply nth_error_None in Hi; lia].
  destruct (nth_error_split _ _ Hi) as (a & b & Ehl & Ha).
  assert (E2 : emit_loop hl (mkEmit false []) 0 (a ++ line :: b)
               = Ok (est, ns)) by (rewrite <- Ehl; exact E1).
  destruct (emit_at _ _ _ _ _ _ E2) as (sta & stl & on & _ & Es & Hon).
  rewrite Ha in Hon. apply Hon in Hin. subst on.
  destruct (emit_step_node _ _ _ _ _ Es) as [Hd Ht].
  exists line. split; [reflexivity|]. split; [exact Hd|].
  split; [apply render_lines|].
  intros Hcb. specialize (Ht Hcb).
  assert (Hn : no_nl (n_text n)).
  { apply (process_content_keeps line (strip (content line))); [|exact Ht].
    apply no_nl_strip. rewrite Forall_forall in Hnl. apply Hnl.
    eapply nth_error_In. exact Hi. }
  apply split_nl_single. now apply no_nl_render.
Qed.

Lemma output_format_witness :
  exists hl nodes,
    build_hierarchy (parsed (split_nl nested_example)) = Ok hl
    /\ convert_nodes nested_example = Ok nodes
    /\ split_nl (py "%%tana%%" ++ [NL] ++ py "- !! Title" ++ [NL]
                 ++ py "  - a" ++ [NL] ++ py "    - b" ++ [NL]
                 ++ py "    - x" ++ [NL] ++ py "y")
       = header_token
         :: List.concat (map (fun p => split_nl (render (snd p))) nodes)
    /\ Forall (fun p => exists line,
                 nth_error hl (fst p) = Some line
                 /\ depth_of hl line = Ok (n_depth (snd p))
                 /\ split_nl (render (snd p))
                    = (str_mul (py "  ") (n_depth (snd p)) ++ py "- "
                       ++ hd [] (split_nl (n_text (snd p))))
                      :: tl (split_nl (n_text (snd p)))
                 /\ (is_code_block line = false ->
                     split_nl (render (snd p))
                     = [str_mul (py "  ") (n_depth (snd p)) ++ py "- "
                        ++ n_text (snd p)])) nodes.
Proof.
  apply (output_format nested_example).
  - discriminate.
  - vm_compute. reflexivity.
Defined.

(** C5 as stated fails on the empty input, whose output is the fallback
    message, and on a code block of two lines, whose second line is emitted
    bare. *)
Lemma output_format_counterexample :
  ~ output_format_as_stated [] /\ ~ output_format_as_stated code_lines_example.
Proof.
  split; intros (out & H & Hm).
  - change (convert_to_tana []) with (Ok no_text) in H.
    apply Ok_inj in H. subst out.
    assert (E : split_nl no_text = [no_text]) by reflexivity.
    rewrite E in Hm. destruct Hm as [Hm _]. discriminate.
  - assert (E : convert_to_tana code_lines_example
                = Ok (py "%%tana%%" ++ [NL] ++ py "  - a" ++ [NL] ++ py "b"))
      by (vm_compute; reflexivity).
    rewrite E in H. apply Ok_inj in H. subst out.
    assert (Es : split_nl (py "%%tana%%" ++ [NL] ++ py "  - a" ++ [NL] ++ py "b")
                 = [py "%%tana%%"; py "  - a"; py "b"]) by reflexivity.
    rewrite Es in Hm. destruct Hm as [_ Hm].
    apply Forall_inv_tail, Forall_inv in Hm.
    destruct Hm as [Hm | (d & c & Hm)]; [discriminate|].
    destruct d; cbn in Hm; discriminate.
Qed.

(** ** Canonical date references *)

Lemma prev_after_app (prev : option char) (a b : str) :
  prev_after (prev_after prev a) b = prev_after prev (a ++ b).
Proof.
  revert prev. induction a as [|x a IH]; intros prev; [reflexivity|].
  rewrite <- (prev_after_cons prev x a). rewrite IH.
  change ((x :: a) ++ b) with (x :: (a ++ b)).
  now rewrite <- (prev_after_cons prev x (a ++ b)).
Qed.

Lemma lit_app (s rest : str) : forall pos prev,
  lit s (Cur pos prev (s ++ rest))
  = Some (Cur (pos + List.length s) (prev_after prev s) rest).
Proof.
  induction s as [|x s IH]; intros pos prev.
  - simpl. now rewrite Nat.add_0_r.
  - cbn [lit app advance c_rest c_pos]. unfold is_chr at 1.
    rewrite N.eqb_refl, IH. cbn [List.length].
    rewrite Nat.add_succ_r, (prev_after_cons prev x s). reflexivity.
Qed.

(** A lazy repetition stops at the first position where the rest of the
    pattern matches. *)
Lemma mrep_lazy_run {R} (p : char -> bool) (run rest : str)
    (k : cur -> option R) (r : R) : forall pos prev,
  Forall (fun c => p c = true) run ->
  (forall run1 run2, run = run1 ++ run2 -> run2 <> [] ->
     k (Cur (pos + List.length run1) (prev_after prev run1) (run2 ++ rest))
     = None) ->
  k (Cur (pos + List.length run) (prev_after prev run) rest) = Some r ->
  mrep p false 0 None pos prev (run ++ rest) k = Some r.
Proof.
  induction run as [|x run IH]; intros pos prev Hrun Hfail Hk.
  - simpl in Hk. rewrite Nat.add_0_r in Hk. unfold prev_after in Hk.
    simpl in Hk. destruct rest; cbn [app mrep]; now rewrite Hk.
  - inversion Hrun as [|? ? Hx Hr]; subst. cbn [app mrep].
    pose proof (Hfail [] (x :: run) eq_refl) as H0.
    cbn [List.length app] in H0. rewrite Nat.add_0_r in H0.
    unfold prev_after in H0 at 1. simpl in H0.
    rewrite H0 by discriminate. rewrite Hx. cbn [hi_pred pred].
    apply IH; [exact Hr | |].
    + intros run1 run2 E Hne.
      specialize (Hfail (x :: run1) run2). cbn [List.length] in Hfail.
      rewrite Nat.add_succ_r in Hfail.
      rewrite (prev_after_cons prev x run1). apply Hfail; [|exact Hne].
      now rewrite E.
    + cbn [List.length] in Hk. rewrite Nat.add_succ_r in Hk.
      now rewrite (prev_after_cons prev x run).
Qed.

(** After a match the loop passes the rest of the matched text. *)
Lemma sub_scan_skip {St} (r : re) (repl : St -> mobj -> result (str * St))
    (st : St) (rest : str) : forall pos prev,
  sub_scan r repl st pos prev rest (List.length rest)
  = sub_scan r repl st (pos + List.length rest) (prev_after prev rest) [] 0.
Proof.
  induction rest as [|x rest IH]; intros pos prev.
  - simpl. now rewrite Nat.add_0_r.
  - cbn [sub_scan List.length]. rewrite IH, Nat.add_succ_r.
    now rewrite (prev_after_cons prev x rest).
Qed.

(** The protecting pattern matches a canonical date reference as a whole. *)
Lemma span_match (v : str) :
  no_nl v -> Forall (fun c => c <> ch "]") v ->
  match_at protect_re (Cur 0 None (py "[[date:" ++ v ++ py "]]"))
  = Some (Mobj 0 (py "[[date:" ++ v ++ py "]]") [] 0).
Proof.
  intros Hnl Hbr.
  assert (Etext : py "[[date:" ++ v ++ py "]]"
                  = py "[[" ++ (py "date:" ++ v) ++ py "]]" ++ []).
  { rewrite app_nil_r, <- !app_assoc. reflexivity. }
  unfold match_at, protect_re, bracket_ref, L.
  cbn [alts seqs fold_right rmatch c_pos c_rest c_prev].
  rewrite Etext at 1. rewrite lit_app. cbn [c_pos c_prev c_rest].
  erewrite mrep_lazy_run; cycle 1.
  - apply Forall_app. split; [repeat constructor|].
    eapply Forall_impl; [|exact Hnl]. intros c Hc. unfold not_nl.
    apply negb_true_iff. now apply N.eqb_neq.
  - intros run1 run2 E Hne. cbn [rmatch].
    destruct run2 as [|x run2]; [contradiction|].
    assert (Hx : x <> ch "]").
    { assert (Hall : Forall (fun c => c <> ch "]") (py "date:" ++ v)).
      { apply Forall_app. split; [repeat constructor; discriminate|exact Hbr]. }
      rewrite E in Hall. apply Forall_app in Hall. destruct Hall as [_ Hall].
      now inversion Hall. }
    apply N.eqb_neq in Hx.
    change (py "]]") with [ch "]"; ch "]"].
    cbn [lit app advance c_rest]. unfold is_chr at 1. now rewrite Hx.
  - cbn [rmatch]. rewrite lit_app. reflexivity.
  - cbn [c_pos c_rest]. f_equal. f_equal.
    apply firstn_all2. rewrite !length_app. cbn [List.length py map
      list_ascii_of_string]. lia.
Qed.

Lemma protect_span (v : str) :
  no_nl v -> Forall (fun c => c <> ch "]") v ->
  re_sub_st protect_re protect_repl [] (py "[[date:" ++ v ++ py "]]")
  = Ok (placeholder 0, [py "[[date:" ++ v ++ py "]]"]).
Proof.
  intros Hnl Hbr. unfold re_sub_st.
  pose proof (span_match v Hnl Hbr) as Hm.
  remember (py "[[date:" ++ v ++ py "]]") as span eqn:Es.
  assert (Hc : exists x rest, span = x :: rest).
  { rewrite Es. now eexists _, _. }
  destruct Hc as (x & rest & Ex). rewrite Ex at 1.
  cbn [sub_scan]. rewrite <- Ex, Hm. cbn [protect_repl bind m_text fst snd].
  replace (List.length span) with (S (List.length rest))
    by (rewrite Ex; reflexivity).
  rewrite sub_scan_skip. cbn [sub_scan].
  replace (match_at protect_re
             (Cur (1 + List.length rest) (prev_after (Some x) rest) []))
    with (@None mobj) by reflexivity.
  cbn [bind fst snd app List.length Nat.sub]. now rewrite app_nil_r.
Qed.

Lemma restore_single (t : str) :
  re_sub restore_re (restore_repl [t]) (placeholder 0) = Ok t.
Proof.
  transitivity (Ok (t ++ [])); [vm_compute; reflexivity|].
  now rewrite app_nil_r.
Qed.

Lemma dates_of_placeholder :
  re_sub date_pattern date_repl (placeholder 0) = Ok (placeholder 0).
Proof. vm_compute. reflexivity. Qed.

(** After a match the loop passes the rest of the matched text and goes on
    behind it. *)
Lemma sub_scan_skip_app {St} (r : re) (repl : St -> mobj -> result (str * St))
    (st : St) (a b : str) : forall pos prev,
  sub_scan r repl st pos prev (a ++ b) (List.length a)
  = sub_scan r repl st (pos + List.length a) (prev_after prev a) b 0.
Proof.
  induction a as [|x a IH]; intros pos prev.
  - cbn [app List.length]. now rewrite Nat.add_0_r.
  - cbn [app sub_scan List.length]. rewrite IH, Nat.add_succ_r.
    now rewrite (prev_after_cons prev x a).
Qed.

(** The substitution loop at a match, and at a position without match. *)
Lemma sub_scan_match {St} (r : re) (repl : St -> mobj -> result (str * St))
    (st : St) (pos : nat) (prev : option char) (a b : str) (m : mobj)
    (o : str * St) :
  a <> [] ->
  match_at r (Cur pos prev (a ++ b)) = Some m ->
  m_text m = a ->
  repl st m = Ok o ->
  sub_scan r repl st pos prev (a ++ b) 0
  = (t <- sub_scan r repl (snd o) (pos + List.length a) (prev_after prev a) b 0 ;;
     Ok (fst o ++ fst t, snd t)).
Proof.
  intros Hne Hm Ht Hr. destruct a as [|x a]; [contradiction|].
  change ((x :: a) ++ b) with (x :: (a ++ b)) in *.
  cbn [sub_scan]. rewrite Hm, Hr, Ht. cbn [bind List.length].
  rewrite sub_scan_skip_app, Nat.add_succ_r.
  now rewrite (prev_after_cons prev x a).
Qed.

Lemma sub_scan_nomatch {St} (r : re) (repl : St -> mobj -> result (str * St))
    (st : St) (pos : nat) (prev : option char) (x : char) (rest : str) :
  match_at r (Cur pos prev (x :: rest)) = None ->
  sub_scan r repl st pos prev (x :: rest) 0
  = (t <- sub_scan r repl st (S pos) (Some x) rest 0 ;;
     Ok (x :: fst t, snd t)).
Proof. intros H. cbn [sub_scan]. now rewrite H. Qed.

Lemma sub_scan_end {St} (r : re) (repl : St -> mobj -> result (str * St))
    (st : St) (pos : nat) (prev : option char) :
  match_at r (Cur pos prev []) = None ->
  sub_scan r repl st pos prev [] 0 = Ok ([], st).
Proof. intros H. cbn [sub_scan]. now rewrite H. Qed.

(** The substitution loop passes the characters at which the pattern does
    not match. *)
Lemma sub_scan_pass {St} (r : re) (repl : St -> mobj -> result (str * St))
    (st : St) (a b : str) : forall pos prev,
  (forall x rest pos prev,
      In x a -> match_at r (Cur pos prev (x :: rest)) = None) ->
  sub_scan r repl st pos prev (a ++ b) 0
  = (t <- sub_scan r repl st (pos + List.length a) (prev_after prev a) b 0 ;;
     Ok (a ++ fst t, snd t)).
Proof.
  induction a as [|x a IH]; intros pos prev Hn.
  - cbn [app List.length]. rewrite Nat.add_0_r.
    change (prev_after prev []) with prev.
    now destruct (sub_scan r repl st pos prev b 0) as [[? ?]| |].
  - cbn [app]. rewrite sub_scan_nomatch by (apply Hn; now left).
    rewrite IH by (intros; apply Hn; now right).
    cbn [List.length]. rewrite Nat.add_succ_r, (prev_after_cons prev x a).
    change (S pos + List.length a) with (S (pos + List.length a)).
    now destruct (sub_scan r repl st (S (pos + List.length a))
                    (prev_after prev (x :: a)) b 0) as [[? ?]| |].
Qed.

(** The protecting pattern matches a reference in double brackets up to the
    first closing brackets. *)
Lemma bracket_match (body rest : str) (pos : nat) (prev : option char) :
  no_nl body -> Forall (fun c => c <> ch "]") body ->
  match_at protect_re (Cur pos prev (py "[[" ++ body ++ py "]]" ++ rest))
  = Some (Mobj pos (py "[[" ++ body ++ py "]]") [] 0).
Proof.
  intros Hnl Hbr.
  unfold match_at, protect_re, bracket_ref, L.
  cbn [alts seqs fold_right rmatch c_pos c_rest c_prev].
  rewrite lit_app. cbn [c_pos c_prev c_rest].
  erewrite mrep_lazy_run; cycle 1.
  - eapply Forall_impl; [|exact Hnl]. intros c Hc. unfold not_nl.
    apply negb_true_iff. now apply N.eqb_neq.
  - intros run1 run2 E Hne. cbn [rmatch].
    destruct run2 as [|x run2]; [contradiction|].
    assert (Hx : x <> ch "]").
    { rewrite E in Hbr. apply Forall_app in Hbr. destruct Hbr as [_ Hall].
      now inversion Hall. }
    apply N.eqb_neq in Hx.
    change (py "]]") with [ch "]"; ch "]"].
    cbn [lit app advance c_rest]. unfold is_chr at 1. now rewrite Hx.
  - cbn [rmatch]. rewrite lit_app. reflexivity.
  - cbn [c_pos c_rest]. f_equal. f_equal.
    replace (pos + List.length (py "[[") + List.length body
             + List.length (py "]]") - pos)
      with (List.length (py "[[" ++ body ++ py "]]"))
      by (rewrite !length_app; lia).
    replace (py "[[" ++ body ++ py "]]" ++ rest)
      with ((py "[[" ++ body ++ py "]]") ++ rest)
      by (now rewrite <- !app_assoc).
    apply firstn_length_app.
Qed.

(** It matches only at an opening bracket or at the letter h. *)
Lemma protect_start (x : char) (rest : str) (pos : nat) (prev : option char) :
  x <> ch "[" -> x <> ch "h" ->
  match_at protect_re (Cur pos prev (x :: rest)) = None.
Proof.
  intros H1 H2. apply N.eqb_neq in H1, H2.
  unfold match_at, protect_re, bracket_ref, L.
  cbn [alts seqs fold_right rmatch].
  cbn [py map list_ascii_of_string lit advance c_rest]. unfold is_chr.
  unfold ch in H1, H2. now rewrite H1, H2.
Qed.

Lemma date_ref_brackets (v : str) :
  date_ref v = py "[[" ++ (py "date:" ++ v) ++ py "]]" ++ [].
Proof. unfold date_ref. rewrite app_nil_r, <- !app_assoc. reflexivity. Qed.

Lemma date_ref_match (v : str) (pos : nat) (prev : option char) :
  no_nl v -> Forall (fun c => c <> ch "]") v ->
  match_at protect_re (Cur pos prev (date_ref v ++ []))
  = Some (Mobj pos (date_ref v) [] 0).
Proof.
  intros Hnl Hbr. rewrite app_nil_r. rewrite (date_ref_brackets v) at 1.
  rewrite bracket_match.
  - reflexivity.
  - apply Forall_app. split; [|exact Hnl]. apply no_nlb_ok. reflexivity.
  - apply Forall_app. split; [repeat constructor; discriminate|exact Hbr].
Qed.

Lemma date_ref_not_nil (v : str) : date_ref v <> [].
Proof. discriminate. Qed.

(** The masking pass on a text that holds a placeholder of its own before
    the date reference. *)
Lemma protect_collision (v : str) :
  no_nl v -> Forall (fun c => c <> ch "]") v ->
  re_sub_st protect_re protect_repl [] (py "[[a]] __PROTECTED_0" ++ date_ref v)
  = Ok (py "__PROTECTED_0__ __PROTECTED_0__PROTECTED_1__",
        [py "[[a]]"; date_ref v]).
Proof.
  intros Hnl Hbr. unfold re_sub_st.
  replace (py "[[a]] __PROTECTED_0" ++ date_ref v)
    with (py "[[a]]" ++ (py " __PROTECTED_0" ++ (date_ref v ++ [])))
    by (now rewrite app_nil_r).
  erewrite sub_scan_match; cycle 1.
  - discriminate.
  - apply (bracket_match (py "a")); [apply no_nlb_ok; reflexivity|].
    repeat constructor; discriminate.
  - reflexivity.
  - reflexivity.
  - cbn [snd fst protect_repl].
    rewrite sub_scan_pass; cycle 1.
    { intros x rest pos prev Hin. apply protect_start;
        intros ->; cbn in Hin; repeat (destruct Hin as [Hin|Hin];
          [discriminate|]); exact Hin. }
    erewrite sub_scan_match; cycle 1.
    + apply date_ref_not_nil.
    + apply date_ref_match; assumption.
    + reflexivity.
    + reflexivity.
    + rewrite sub_scan_end by reflexivity. reflexivity.
Qed.


(** The masking pass on a text that starts with a placeholder of its own. *)
Lemma protect_stray (v : str) :
  no_nl v -> Forall (fun c => c <> ch "]") v ->
  re_sub_st protect_re protect_repl [] (py "__PROTECTED_1__" ++ date_ref v)
  = Ok (py "__PROTECTED_1____PROTECTED_0__", [date_ref v]).
Proof.
  intros Hnl Hbr. unfold re_sub_st.
  replace (py "__PROTECTED_1__" ++ date_ref v)
    with (py "__PROTECTED_1__" ++ (date_ref v ++ []))
    by (now rewrite app_nil_r).
  rewrite sub_scan_pass; cycle 1.
  { intros x rest pos prev Hin. apply protect_start;
      intros ->; cbn in Hin; repeat (destruct Hin as [Hin|Hin];
        [discriminate|]); exact Hin. }
  erewrite sub_scan_match; cycle 1.
  - apply date_ref_not_nil.
  - apply date_ref_match; assumption.
  - reflexivity.
  - reflexivity.
  - rewrite sub_scan_end by reflexivity. reflexivity.
Qed.

(** The date pass finds no date in these placeholders. *)
Lemma dates_of_collision :
  re_sub date_pattern date_repl
    (py "__PROTECTED_0__ __PROTECTED_0__PROTECTED_1__")
  = Ok (py "__PROTECTED_0__ __PROTECTED_0__PROTECTED_1__").
Proof. vm_compute. reflexivity. Qed.

Lemma dates_of_stray :
  re_sub date_pattern date_repl (py "__PROTECTED_1____PROTECTED_0__")
  = Ok (py "__PROTECTED_1____PROTECTED_0__").
Proof. vm_compute. reflexivity. Qed.

(** The restoring pass takes the second placeholder of the text for the
    reference of index 0 again; what is left of the placeholder of the date
    reference is no placeholder. *)
Lemma restore_collision (x y : str) :
  re_sub restore_re (restore_repl [x; y])
    (py "__PROTECTED_0__ __PROTECTED_0__PROTECTED_1__")
  = Ok (x ++ py " " ++ x ++ py "PROTECTED_1__").
Proof. vm_compute. reflexivity. Qed.

Lemma restore_stray (y : str) :
  re_sub restore_re (restore_repl [y]) (py "__PROTECTED_1____PROTECTED_0__")
  = Raise IndexError.
Proof. vm_compute. reflexivity. Qed.

(** C8 (a defect of the code): a canonical date reference [[date:VALUE]]
    (a value without closing bracket and without line break) that is the
    whole text goes through the date pass unchanged, and [parse_date]
    passes every text that starts with "[[date:" and ends with "]]" through
    as it is.  Within a text the reference can be lost, because the pass
    masks references with placeholders written into the text itself: after
    another reference and the text "__PROTECTED_0" the restoring pass takes
    the underscores of the placeholder of the date reference for the end of
    a placeholder of index 0, and the date reference is not in the result;
    after the text "__PROTECTED_1__" the pass raises [IndexError]; and
    after a thousand references the placeholder of the date reference has
    the index 1000, which the date scanner wraps as a year, so that the
    placeholder is not restored and the date reference is not in the
    result. *)
Theorem canonical_date_lost (v : str) :
  no_nl v -> Forall (fun c => c <> ch "]") v ->
  convert_dates (date_ref v) = Ok (date_ref v)
  /\ (forall text,
        startswith (py "[[date:") text = true ->
        endswith (py "]]") text = true ->
        exists d, parse_date text = Ok (Some d) /\ format_tana_date d = text)
  /\ convert_dates (py "[[a]] __PROTECTED_0" ++ date_ref v)
     = Ok (py "[[a]] [[a]]PROTECTED_1__")
  /\ contains (date_ref v) (py "[[a]] [[a]]PROTECTED_1__") = false
  /\ convert_dates (py "__PROTECTED_1__" ++ date_ref v) = Raise IndexError
  /\ convert_dates (thousand_refs ++ date_ref (py "2024-03-05"))
     = Ok (thousand_refs ++ py "__PROTECTED_[[date:1000]]__")
  /\ contains (date_ref (py "2024-03-05"))
       (thousand_refs ++ py "__PROTECTED_[[date:1000]]__") = false.
Proof.
  intros Hnl Hbr. split; [|split; [|split; [|split; [|split; [|split]]]]].
  - unfold convert_dates, date_ref. rewrite (protect_span v Hnl Hbr).
    cbn [bind fst snd]. rewrite dates_of_placeholder. cbn [bind].
    apply restore_single.
  - intros text Hs He. exists (mkDate Simple text true).
    unfold parse_date. rewrite Hs, He. split; reflexivity.
  - unfold convert_dates. rewrite (protect_collision v Hnl Hbr).
    cbn [bind fst snd]. rewrite dates_of_collision. cbn [bind].
    apply restore_collision.
  - reflexivity.
  - unfold convert_dates. rewrite (protect_stray v Hnl Hbr).
    cbn [bind fst snd]. rewrite dates_of_stray. cbn [bind].
    apply restore_stray.
  - vm_compute. reflexivity.
  - vm_compute. reflexivity.
Qed.

Lemma canonical_date_lost_witness :
  convert_dates (date_ref (py "2024-03-05")) = Ok (date_ref (py "2024-03-05"))
  /\ (forall text,
        startswith (py "[[date:") text = true ->
        endswith (py "]]") text = true ->
        exists d, parse_date text = Ok (Some d) /\ format_tana_date d = text)
  /\ convert_dates (py "[[a]] __PROTECTED_0" ++ date_ref (py "2024-03-05"))
     = Ok (py "[[a]] [[a]]PROTECTED_1__")
  /\ contains (date_ref (py "2024-03-05")) (py "[[a]] [[a]]PROTECTED_1__")
     = false
  /\ convert_dates (py "__PROTECTED_1__" ++ date_ref (py "2024-03-05"))
     = Raise IndexError
  /\ convert_dates (thousand_refs ++ date_ref (py "2024-03-05"))
     = Ok (thousand_refs ++ py "__PROTECTED_[[date:1000]]__")
  /\ contains (date_ref (py "2024-03-05"))
       (thousand_refs ++ py "__PROTECTED_[[date:1000]]__") = false.
Proof.
  apply (canonical_date_lost (py "2024-03-05")).
  - apply no_nlb_ok. reflexivity.
  - repeat constructor; discriminate.
Defined.

(** ** Termination of the parent walk

    The hierarchy builder only links a line to a line before it, so the
    [while] loop that follows the parent chain ends: the fuel of [walk] is
    never used up. *)

Lemma Forall_lt_weaken (i : nat) (xs : list Z) :
  Forall (fun z => (z < Z.of_nat i)%Z) xs ->
  Forall (fun z => (z < Z.of_nat (S i))%Z) xs.
Proof.
  intros H. eapply Forall_impl; [|exact H]. intros z Hz. cbn beta in *. lia.
Qed.

Lemma list_set_Forall (P : Z -> Prop) (xs : list Z) : forall i v,
  Forall P xs -> P v -> Forall P (list_set xs i v).
Proof.
  induction xs as [|x xs IH]; intros i v Hxs Hv; [constructor|].
  inversion Hxs; subst. destruct i; cbn [list_set]; constructor; auto.
Qed.

Lemma last_elem_Forall (P : Z -> Prop) (xs : list Z) (x : Z) :
  Forall P xs -> last_elem xs = Ok x -> P x.
Proof.
  intros H E. unfold last_elem in E. apply Forall_rev in H.
  destruct (rev xs); [discriminate|]. injection E as <-. now inversion H.
Qed.

Lemma index_Forall {A} (P : A -> Prop) (xs : list A) (i : nat) (x : A) :
  Forall P xs -> index xs i = Ok x -> P x.
Proof.
  intros H E. unfold index in E. destruct (nth_error xs i) eqn:En;
    [|discriminate].
  injection E as <-. rewrite Forall_forall in H. apply H.
  eapply nth_error_In; eauto.
Qed.

Lemma bh_step_below (st st' : bh_state) (i : nat) (l l' : Line) :
  Forall (fun z => (z < Z.of_nat i)%Z) (last_parent_at_level st) ->
  (forall h, last_header st = Some h -> h < i) ->
  bh_in_code_block st = false ->
  parent l = None ->
  bh_step st i l = Ok (st', l') ->
  Forall (fun z => (z < Z.of_nat (S i))%Z) (last_parent_at_level st')
  /\ (forall h, last_header st' = Some h -> h < S i)
  /\ (forall p, parent l' = Some p -> (p < Z.of_nat i)%Z).
Proof.
  intros Hst Hh Hc Hp H. unfold bh_step in H.
  destruct (strip (content l)) as [|c0 cs].
  - injection H as <- <-. repeat split.
    + now apply Forall_lt_weaken.
    + intros h E. apply Hh in E. lia.
    + intros p E. rewrite Hp in E. discriminate.
  - rewrite Hc, orb_false_r in H. destruct (is_code_block l).
    + destruct (last_elem (last_parent_at_level st)) as [p| |] eqn:El;
        try discriminate.
      cbn in H. injection H as <- <-. cbn. repeat split.
      * now apply Forall_lt_weaken.
      * intros h E. apply Hh in E. lia.
      * intros q [= <-]. eapply last_elem_Forall in El; eauto. exact El.
    + destruct (is_header l).
      * injection H as <- <-. cbn. repeat split.
        -- apply Forall_app. split.
           ++ apply Forall_lt_weaken. now apply Forall_firstn.
           ++ constructor; [lia|constructor].
        -- intros h [= <-]. lia.
        -- intros p [= <-]. lia.
      * bind_as H as p E. injection H as <- <-. cbn.
        assert (Hf : Forall (fun z => (z < Z.of_nat i)%Z)
                       (firstn (indent l + 1) (last_parent_at_level st)))
          by now apply Forall_firstn.
        repeat split.
        -- destruct (List.length (firstn (indent l + 1)
                                    (last_parent_at_level st)) <=? indent l).
           ++ apply Forall_app. split; [now apply Forall_lt_weaken|].
              constructor; [lia|constructor].
           ++ apply list_set_Forall; [now apply Forall_lt_weaken|lia].
        -- intros h Eh. apply Hh in Eh. lia.
        -- intros q [= <-]. destruct (indent l) as [|e].
           ++ destruct (last_header st) as [h|] eqn:Eh; injection E as <-.
              ** specialize (Hh h eq_refl). lia.
              ** lia.
           ++ eapply index_Forall in E; eauto. exact E.
Qed.

Lemma bh_loop_below (lines : list Line) : forall st i st' hl,
  Forall (fun z => (z < Z.of_nat i)%Z) (last_parent_at_level st) ->
  (forall h, last_header st = Some h -> h < i) ->
  bh_in_code_block st = false ->
  Forall (fun l => parent l = None) lines ->
  bh_loop st i lines = Ok (st', hl) ->
  forall j l p, nth_error hl j = Some l -> parent l = Some p ->
                (p < Z.of_nat (i + j))%Z.
Proof.
  induction lines as [|x lines IH]; intros st i st' hl Hst Hh Hc Hp H j l p Hn Hl.
  - injection H as <- <-. destruct j; discriminate.
  - inversion Hp as [|? ? Hx Hxs]; subst.
    cbn [bh_loop] in H. bind_as H as o1 S1. destruct o1 as [st1 l1].
    bind_as H as o2 S2. destruct o2 as [st2 hl2]. cbn [fst snd] in *.
    injection H as <- <-.
    destruct (bh_step_below _ _ _ _ _ Hst Hh Hc Hx S1) as (B1 & B2 & B3).
    destruct (bh_step_cases _ _ _ _ _ Hc S1) as (C1 & _).
    destruct j as [|j].
    + injection Hn as <-. rewrite Nat.add_0_r. now apply B3.
    + cbn [nth_error] in Hn. rewrite Nat.add_succ_r.
      apply (IH _ _ _ _ B1 B2 C1 Hxs S2 j l p Hn Hl).
Qed.

(** With parents that point backwards the walk from a line before index
    [n] returns with fuel [S n]. *)
Lemma walk_returns (hl : list Line) :
  (forall j l p, nth_error hl j = Some l -> parent l = Some p ->
                 (p < Z.of_nat j)%Z) ->
  forall n l d,
    (forall p, parent l = Some p -> (p < Z.of_nat n)%Z) ->
    n <= List.length hl ->
    exists d', walk (S n) hl l d = Ok d'.
Proof.
  intros Hb. induction n as [|n IH]; intros l d Hl Hn; cbn [walk].
  - destruct (parent l) as [p|]; [|now eexists].
    specialize (Hl p eq_refl).
    replace (0 <=? p)%Z with false by (symmetry; apply Z.leb_gt; lia).
    now eexists.
  - destruct (parent l) as [p|] eqn:Ep; [|now eexists].
    specialize (Hl p eq_refl).
    destruct (0 <=? p)%Z eqn:E0; [|now eexists].
    apply Z.leb_le in E0. unfold index.
    destruct (nth_error hl (Z.to_nat p)) as [cp|] eqn:En.
    + cbn [bind]. apply IH; [|lia].
      intros q Eq. specialize (Hb _ _ _ En Eq). lia.
    + apply nth_error_None in En. lia.
Qed.

Lemma depth_of_returns (hl : list Line) (j : nat) (l : Line) :
  (forall j l p, nth_error hl j = Some l -> parent l = Some p ->
                 (p < Z.of_nat j)%Z) ->
  nth_error hl j = Some l ->
  exists d, depth_of hl l = Ok d.
Proof.
  intros Hb Hn. unfold depth_of.
  destruct (parent l) as [p|] eqn:Ep; [|now eexists].
  destruct (0 <=? p)%Z eqn:E0; [|now eexists].
  apply Z.leb_le in E0. pose proof (Hb _ _ _ Hn Ep) as Hp.
  assert (Hj : j < List.length hl) by (apply nth_error_Some; now rewrite Hn).
  unfold index. destruct (nth_error hl (Z.to_nat p)) as [cp|] eqn:En.
  - cbn [bind]. apply (walk_returns hl Hb); [|lia].
    intros q Eq. specialize (Hb _ _ _ En Eq). lia.
  - apply nth_error_None in En. lia.
Qed.

Lemma bind_no_loop {A B} (r : result A) (f : A -> result B) :
  r <> Loops -> (forall a, r = Ok a -> f a <> Loops) -> bind r f <> Loops.
Proof.
  intros Hr Hf. destruct r as [a|e|]; cbn [bind];
    [now apply Hf | discriminate | contradiction].
Qed.

Lemma sub_scan_no_loop {St} (r : re) (repl : St -> mobj -> result (str * St)) :
  (forall st m, repl st m <> Loops) ->
  forall rest st pos prev skip, sub_scan r repl st pos prev rest skip <> Loops.
Proof.
  intros Hrepl. induction rest as [|x rest IH]; intros st pos prev skip;
    cbn [sub_scan].
  - destruct skip; [|discriminate].
    destruct (match_at r (Cur pos prev [])); [apply Hrepl|discriminate].
  - destruct skip; [|apply IH].
    destruct (match_at r (Cur pos prev (x :: rest))) as [m|].
    + apply bind_no_loop; [apply Hrepl|]. intros o _.
      destruct (List.length (m_text m)); (apply bind_no_loop; [apply IH|]);
        discriminate.
    + apply bind_no_loop; [apply IH|]. discriminate.
Qed.

Lemma re_sub_no_loop (r : re) (repl : mobj -> result str) (s : str) :
  (forall m, repl m <> Loops) -> re_sub r repl s <> Loops.
Proof.
  intros Hrepl. unfold re_sub, re_sub_st. apply bind_no_loop; [|discriminate].
  apply sub_scan_no_loop. intros [] m. apply bind_no_loop; [apply Hrepl|].
  discriminate.
Qed.

Ltac leaves :=
  repeat match goal with
         | |- context [match ?x with _ => _ end] => destruct x
         end;
  discriminate.

Lemma parse_date_no_loop (t : str) : parse_date t <> Loops.
Proof. unfold parse_date. leaves. Qed.

Lemma index_no_loop {A} (xs : list A) (i : nat) : index xs i <> Loops.
Proof. unfold index. leaves. Qed.

Lemma restore_no_loop (items : list str) (s : str) :
  re_sub restore_re (restore_repl items) s <> Loops.
Proof.
  apply re_sub_no_loop. intros m. unfold restore_repl, int_of_digits.
  destruct (4300 <? N.of_nat (List.length (group_s m 1)))%N; [discriminate|].
  destruct (int_acc 0 (group_s m 1)); [apply index_no_loop|discriminate].
Qed.

Lemma protect_no_loop (s : str) :
  re_sub_st protect_re protect_repl [] s <> Loops.
Proof. apply sub_scan_no_loop. discriminate. Qed.

Lemma convert_dates_no_loop (s : str) : convert_dates s <> Loops.
Proof.
  unfold convert_dates. apply bind_no_loop; [apply protect_no_loop|].
  intros o _. apply bind_no_loop; [|intros; apply restore_no_loop].
  apply re_sub_no_loop. intros m. unfold date_repl.
  apply bind_no_loop; [apply parse_date_no_loop|]. intros [d|] _;
    [|discriminate].
  apply bind_no_loop; [apply parse_date_no_loop|]. intros [d'|] _; discriminate.
Qed.

Lemma convert_fields_no_loop (s : str) : convert_fields s <> Loops.
Proof.
  unfold convert_fields.
  destruct (contains (py "::") s); [discriminate|].
  destruct (contains (py "|") s); [discriminate|].
  apply re_sub_no_loop. intros m. unfold field_repl. leaves.
Qed.

Lemma inline_no_loop (s : str) : process_inline_formatting s <> Loops.
Proof.
  unfold process_inline_formatting.
  apply bind_no_loop; [apply protect_no_loop|]. intros o _.
  repeat (apply bind_no_loop;
          [apply re_sub_no_loop; intros m;
           try unfold image_repl; try unfold tag_repl; leaves
          | intros ? _]).
  apply restore_no_loop.
Qed.

Lemma process_content_no_loop (l : Line) (c : str) :
  process_content l c <> Loops.
Proof.
  unfold process_content. destruct (is_header l).
  - destruct (re_match header_re c); discriminate.
  - apply bind_no_loop; [apply re_sub_no_loop; discriminate|]. intros t1 _.
    apply bind_no_loop; [apply convert_fields_no_loop|]. intros t2 _.
    apply bind_no_loop; [apply convert_dates_no_loop|]. intros t3 _.
    apply inline_no_loop.
Qed.

Lemma bh_loop_no_loop (lines : list Line) : forall st i,
  bh_loop st i lines <> Loops.
Proof.
  induction lines as [|l lines IH]; intros st i; cbn [bh_loop]; [discriminate|].
  apply bind_no_loop.
  - unfold bh_step, last_elem, index. leaves.
  - intros o _. apply bind_no_loop; [apply IH|]. discriminate.
Qed.

Lemma emit_loop_no_loop (hl : list Line) :
  (forall j l p, nth_error hl j = Some l -> parent l = Some p ->
                 (p < Z.of_nat j)%Z) ->
  forall ls st i,
    (forall j l, nth_error ls j = Some l -> nth_error hl (i + j) = Some l) ->
    emit_loop hl st i ls <> Loops.
Proof.
  intros Hb. induction ls as [|l ls IH]; intros st i Hin; cbn [emit_loop];
    [discriminate|].
  apply bind_no_loop.
  - unfold emit_step. destruct (strip (content l)); [discriminate|].
    destruct (depth_of_returns hl (i + 0) l Hb (Hin 0 l eq_refl)) as (d & ->).
    cbn [bind].
    destruct (is_code_block l || in_code_block st)%bool.
    + leaves.
    + apply bind_no_loop; [apply process_content_no_loop|]. discriminate.
  - intros o _. apply bind_no_loop; [|discriminate]. apply IH.
    intros j x Hx. rewrite Nat.add_succ_l, <- Nat.add_succ_r.
    now apply Hin.
Qed.

(** The conversion ends on every input: it returns a string or raises. *)
Lemma convert_to_tana_ends (input : str) : convert_to_tana input <> Loops.
Proof.
  unfold convert_to_tana. destruct input as [|c input]; [discriminate|].
  apply bind_no_loop; [|discriminate].
  unfold convert_nodes, build_hierarchy.
  apply bind_no_loop.
  - apply bind_no_loop; [apply bh_loop_no_loop|]. discriminate.
  - intros hl Hhl. bind_as Hhl as o B. apply Ok_inj in Hhl. subst hl.
    destruct o as [st hl]. cbn [snd].
    apply bind_no_loop; [|discriminate].
    apply emit_loop_no_loop; [|now intros j l].
    intros j l p Hn Hp.
    refine (bh_loop_below (map parse_line (split_nl (c :: input)))
              bh_init 0 st hl _ _ _ _ B j l p Hn Hp).
    + repeat constructor.
    + discriminate.
    + reflexivity.
    + apply Forall_map, Forall_forall. reflexivity.
Qed.

(** * Further properties of the code *)

(** ** The hierarchy builder *)

Lemma Forall_bounds_weaken (i : nat) (xs : list Z) :
  Forall (fun z => (-1 <= z < Z.of_nat i)%Z) xs ->
  Forall (fun z => (-1 <= z < Z.of_nat (S i))%Z) xs.
Proof.
  intros H. eapply Forall_impl; [|exact H]. intros z Hz. cbn beta in *. lia.
Qed.

(** One iteration keeps the stack within [-1, i) and gives the line a parent
    in that range, or none when the line is blank. *)
Lemma bh_step_parent (st st' : bh_state) (i : nat) (l l' : Line) :
  Forall (fun z => (-1 <= z < Z.of_nat i)%Z) (last_parent_at_level st) ->
  (forall h, last_header st = Some h -> h < i) ->
  bh_in_code_block st = false ->
  parent l = None ->
  bh_step st i l = Ok (st', l') ->
  Forall (fun z => (-1 <= z < Z.of_nat (S i))%Z) (last_parent_at_level st')
  /\ (forall h, last_header st' = Some h -> h < S i)
  /\ (nonblankb l = false -> parent l' = None)
  /\ (nonblankb l = true ->
      exists p, parent l' = Some p /\ (-1 <= p < Z.of_nat i)%Z).
Proof.
  intros Hst Hh Hc Hp H. unfold bh_step in H. unfold nonblankb.
  destruct (strip (content l)) as [|c0 cs].
  - injection H as <- <-. repeat split.
    + now apply Forall_bounds_weaken.
    + intros h E. apply Hh in E. lia.
    + intros _. exact Hp.
    + discriminate.
  - rewrite Hc, orb_false_r in H. destruct (is_code_block l).
    + destruct (last_elem (last_parent_at_level st)) as [p| |] eqn:El;
        try discriminate.
      cbn in H. injection H as <- <-. cbn. repeat split.
      * now apply Forall_bounds_weaken.
      * intros h E. apply Hh in E. lia.
      * discriminate.
      * intros _. exists p. split; [reflexivity|].
        eapply last_elem_Forall in El; eauto. exact El.
    + destruct (is_header l).
      * injection H as <- <-. cbn. repeat split.
        -- apply Forall_app. split.
           ++ apply Forall_bounds_weaken. now apply Forall_firstn.
           ++ constructor; [lia|constructor].
        -- intros h [= <-]. lia.
        -- discriminate.
        -- intros _. exists (-1)%Z. split; [reflexivity|lia].
      * bind_as H as p E. injection H as <- <-. cbn.
        assert (Hf : Forall (fun z => (-1 <= z < Z.of_nat i)%Z)
                       (firstn (indent l + 1) (last_parent_at_level st)))
          by now apply Forall_firstn.
        repeat split.
        -- destruct (List.length (firstn (indent l + 1)
                                    (last_parent_at_level st)) <=? indent l).
           ++ apply Forall_app. split; [now apply Forall_bounds_weaken|].
              constructor; [lia|constructor].
           ++ apply list_set_Forall; [now apply Forall_bounds_weaken|lia].
        -- intros h Eh. apply Hh in Eh. lia.
        -- discriminate.
        -- intros _. exists p. split; [reflexivity|].
           destruct (indent l) as [|e].
           ++ destruct (last_header st) as [h|] eqn:Eh; injection E as <-.
              ** specialize (Hh h eq_refl). lia.
              ** lia.
           ++ eapply index_Forall in E; eauto. exact E.
Qed.

Lemma bh_loop_parents (lines : list Line) : forall st i st' hl,
  Forall (fun z => (-1 <= z < Z.of_nat i)%Z) (last_parent_at_level st) ->
  (forall h, last_header st = Some h -> h < i) ->
  bh_in_code_block st = false ->
  Forall (fun l => parent l = None) lines ->
  bh_loop st i lines = Ok (st', hl) ->
  forall j l, nth_error hl j = Some l ->
    (nonblankb l = false -> parent l = None)
    /\ (nonblankb l = true ->
        exists p, parent l = Some p /\ (-1 <= p < Z.of_nat (i + j))%Z).
Proof.
  induction lines as [|x lines IH]; intros st i st' hl Hst Hh Hc Hp H j l Hn.
  - injection H as <- <-. destruct j; discriminate.
  - inversion Hp as [|? ? Hx Hxs]; subst.
    cbn [bh_loop] in H. bind_as H as o1 S1. destruct o1 as [st1 l1].
    bind_as H as o2 S2. destruct o2 as [st2 hl2]. cbn [fst snd] in *.
    injection H as <- <-.
    destruct (bh_step_parent _ _ _ _ _ Hst Hh Hc Hx S1) as (B1 & B2 & B3 & B4).
    destruct (bh_step_cases _ _ _ _ _ Hc S1) as (C1 & Sh & _).
    destruct j as [|j].
    + injection Hn as <-. rewrite Nat.add_0_r, (shape_nonblankb _ _ Sh).
      split; assumption.
    + cbn [nth_error] in Hn. rewrite Nat.add_succ_r.
      apply (IH _ _ _ _ B1 B2 C1 Hxs S2 j l Hn).
Qed.

Lemma parsed_no_parent (ls : list str) :
  Forall (fun l => parent l = None) (parsed ls).
Proof. apply Forall_map, Forall_forall. reflexivity. Qed.

(** X1: when [build_hierarchy] returns on the parsed lines of an input, it
    returns the same lines in the same order with only [parent] set: a blank
    line has no parent, and every other line has a parent that is -1 or the
    index of an earlier line, so no line is its own ancestor. *)
Theorem build_hierarchy_parents (ls : list str) (hl : list Line) :
  build_hierarchy (parsed ls) = Ok hl ->
  Forall2 shape (parsed ls) hl
  /\ forall j l, nth_error hl j = Some l ->
       (nonblankb l = false -> parent l = None)
       /\ (nonblankb l = true ->
           exists p, parent l = Some p /\ (-1 <= p < Z.of_nat j)%Z).
Proof.
  intros H. unfold build_hierarchy in H. bind_as H as o B.
  apply Ok_inj in H. subst hl. destruct o as [st hl]. cbn [snd]. split.
  - apply bh_loop_inv in B. now destruct B as (_ & Sh & _).
  - intros j l Hn.
    refine (bh_loop_parents (parsed ls) bh_init 0 st hl _ _ _ _ B j l Hn).
    + constructor; [cbn; lia|constructor].
    + discriminate.
    + reflexivity.
    + apply parsed_no_parent.
Qed.

Lemma build_hierarchy_parents_witness :
  Forall2 shape (parsed (split_nl list_example))
    [set_parent (parse_line (py "# Title")) (Some (-1)%Z);
     set_parent (parse_line (py "Some text")) (Some 0%Z);
     set_parent (parse_line (py "- item")) (Some 0%Z)]
  /\ forall j l,
       nth_error
         [set_parent (parse_line (py "# Title")) (Some (-1)%Z);
          set_parent (parse_line (py "Some text")) (Some 0%Z);
          set_parent (parse_line (py "- item")) (Some 0%Z)] j = Some l ->
       (nonblankb l = false -> parent l = None)
       /\ (nonblankb l = true ->
           exists p, parent l = Some p /\ (-1 <= p < Z.of_nat j)%Z).
Proof.
  apply (build_hierarchy_parents (split_nl list_example)).
  vm_compute. reflexivity.
Defined.

(** ** The depth of a line *)

(** With parents that point backwards, the walk from a line whose parent is
    before index [n] returns with any fuel above [n], after at most [n] steps
    that depend neither on the fuel nor on the starting depth. *)
Lemma walk_steps (hl : list Line) :
  (forall j l p, nth_error hl j = Some l -> parent l = Some p ->
                 (p < Z.of_nat j)%Z) ->
  forall n l,
    (forall p, parent l = Some p -> (p < Z.of_nat n)%Z) ->
    n <= List.length hl ->
    exists k, k <= n /\
      forall fuel d, n < fuel -> walk fuel hl l d = Ok (d + k).
Proof.
  intros Hb. induction n as [|n IH]; intros l Hl Hn.
  - exists 0. split; [lia|]. intros fuel d Hf.
    destruct fuel as [|fuel]; [lia|]. cbn [walk]. rewrite Nat.add_0_r.
    destruct (parent l) as [p|]; [|reflexivity].
    specialize (Hl p eq_refl).
    now replace (0 <=? p)%Z with false by (symmetry; apply Z.leb_gt; lia).
  - destruct (parent l) as [p|] eqn:Ep.
    + specialize (Hl p eq_refl). destruct (0 <=? p)%Z eqn:E0.
      * pose proof (proj1 (Z.leb_le _ _) E0) as G0.
        destruct (nth_error hl (Z.to_nat p)) as [cp|] eqn:En;
          [|apply nth_error_None in En; lia].
        destruct (IH cp) as (k & Hk & Hw); [|lia|].
        { intros q Eq. specialize (Hb _ _ _ En Eq). lia. }
        exists (S k). split; [lia|]. intros fuel d Hf.
        destruct fuel as [|fuel]; [lia|]. cbn [walk].
        rewrite Ep, E0. unfold index. rewrite En. cbn [bind].
        rewrite Hw by lia. f_equal. lia.
      * exists 0. split; [lia|]. intros fuel d Hf.
        destruct fuel as [|fuel]; [lia|]. cbn [walk].
        now rewrite Ep, E0, Nat.add_0_r.
    + exists 0. split; [lia|]. intros fuel d Hf.
      destruct fuel as [|fuel]; [lia|]. cbn [walk].
      now rewrite Ep, Nat.add_0_r.
Qed.

(** The depth of a line of a list with backward parents: it is computed, it
    is at most the index of the line, and it is one more than the depth of
    the parent line. *)
Lemma depth_of_backward (hl : list Line) :
  (forall j l p, nth_error hl j = Some l -> parent l = Some p ->
                 (p < Z.of_nat j)%Z) ->
  forall j l, nth_error hl j = Some l ->
    exists d, depth_of hl l = Ok d /\ d <= j
      /\ (forall p, parent l = Some p -> (p < 0)%Z -> d = 0)
      /\ (parent l = None -> d = 0)
      /\ (forall p, parent l = Some p -> (0 <= p)%Z ->
          exists q dq, nth_error hl (Z.to_nat p) = Some q
                       /\ depth_of hl q = Ok dq /\ d = S dq).
Proof.
  intros Hb j l Hn.
  assert (Hj : j < List.length hl) by (apply nth_error_Some; now rewrite Hn).
  unfold depth_of at 1. destruct (parent l) as [p|] eqn:Ep.
  - pose proof (Hb _ _ _ Hn Ep) as Hp. destruct (0 <=? p)%Z eqn:E0.
    + pose proof (proj1 (Z.leb_le _ _) E0) as G0.
      destruct (nth_error hl (Z.to_nat p)) as [cp|] eqn:En;
        [|apply nth_error_None in En; lia].
      unfold index. rewrite En. cbn [bind].
      destruct (walk_steps hl Hb (Z.to_nat p) cp) as (k & Hk & Hw); [|lia|].
      { intros q Eq. specialize (Hb _ _ _ En Eq). lia. }
      exists (1 + k). rewrite Hw by lia.
      split; [reflexivity|]. split; [lia|].
      split; [intros p' Ep' Hneg; injection Ep' as <-; lia|].
      split; [discriminate|].
      intros p' Ep' _. injection Ep' as <-. exists cp.
      specialize (Hw (S (Z.to_nat p)) 1 (Nat.lt_succ_diag_r _)).
      cbn [walk] in Hw.
      unfold depth_of. destruct (parent cp) as [pp|] eqn:Epp.
      * pose proof (Hb _ _ _ En Epp) as Hpp. destruct (0 <=? pp)%Z eqn:E1.
        -- pose proof (proj1 (Z.leb_le _ _) E1) as G1.
           destruct (nth_error hl (Z.to_nat pp)) as [cpp|] eqn:En2;
             [|apply nth_error_None in En2; lia].
           unfold index in *. rewrite En2 in *. cbn [bind] in *.
           destruct (walk_steps hl Hb (Z.to_nat pp) cpp) as (k2 & Hk2 & Hw2);
             [|lia|].
           { intros q Eq. specialize (Hb _ _ _ En2 Eq). lia. }
           exists (1 + k2). split; [exact En|].
           split; [apply Hw2; lia|].
           rewrite Hw2 in Hw by lia. apply Ok_inj in Hw. lia.
        -- exists 0. split; [exact En|]. split; [reflexivity|].
           apply Ok_inj in Hw. lia.
      * exists 0. split; [exact En|]. split; [reflexivity|].
        apply Ok_inj in Hw. lia.
    + apply Z.leb_gt in E0. exists 0.
      split; [reflexivity|]. split; [lia|]. split; [reflexivity|].
      split; [reflexivity|].
      intros p' Ep' H0. injection Ep' as <-. lia.
  - exists 0. split; [reflexivity|]. split; [lia|]. split; [reflexivity|].
    split; [reflexivity|]. discriminate.
Qed.

Lemma build_hierarchy_backward (ls : list str) (hl : list Line) :
  build_hierarchy (parsed ls) = Ok hl ->
  forall j l p, nth_error hl j = Some l -> parent l = Some p ->
                (p < Z.of_nat j)%Z.
Proof.
  intros H. unfold build_hierarchy in H. bind_as H as o B.
  apply Ok_inj in H. subst hl. destruct o as [st hl]. cbn [snd].
  intros j l p Hn Hp.
  refine (bh_loop_below (parsed ls) bh_init 0 st hl _ _ _ _ B j l p Hn Hp).
  - repeat constructor.
  - discriminate.
  - reflexivity.
  - apply parsed_no_parent.
Qed.

(** X2: on the lines that [build_hierarchy] returns, the indent computation
    of [convert_to_tana] never raises and never runs forever: every line has
    a depth, at most its index; the depth is 0 when the parent is -1 or
    absent and otherwise one more than the depth of the parent line. *)
Theorem build_hierarchy_depths (ls : list str) (hl : list Line) :
  build_hierarchy (parsed ls) = Ok hl ->
  forall j l, nth_error hl j = Some l ->
    exists d, depth_of hl l = Ok d /\ d <= j
      /\ (forall p, parent l = Some p -> (p < 0)%Z -> d = 0)
      /\ (parent l = None -> d = 0)
      /\ (forall p, parent l = Some p -> (0 <= p)%Z ->
          exists q dq, nth_error hl (Z.to_nat p) = Some q
                       /\ depth_of hl q = Ok dq /\ d = S dq).
Proof.
  intros H. apply depth_of_backward.
  exact (build_hierarchy_backward ls hl H).
Qed.

Lemma build_hierarchy_depths_witness :
  exists d,
    depth_of list_example_hierarchy
      (set_parent (parse_line (py "- item")) (Some 0%Z)) = Ok d
    /\ d <= 2
    /\ (forall p, parent (set_parent (parse_line (py "- item")) (Some 0%Z))
                  = Some p -> (p < 0)%Z -> d = 0)
    /\ (parent (set_parent (parse_line (py "- item")) (Some 0%Z)) = None ->
        d = 0)
    /\ (forall p, parent (set_parent (parse_line (py "- item")) (Some 0%Z))
                  = Some p -> (0 <= p)%Z ->
        exists q dq,
          nth_error list_example_hierarchy (Z.to_nat p) = Some q
          /\ depth_of list_example_hierarchy q = Ok dq /\ d = S dq).
Proof.
  apply (build_hierarchy_depths (split_nl list_example)
           list_example_hierarchy) with (j := 2).
  - vm_compute. reflexivity.
  - reflexivity.
Defined.

(** X3: [convert_to_tana] ends on every input: it returns a string or raises
    an exception; neither the hierarchy loop, the parent walk nor a
    substitution runs forever. *)
Theorem convert_to_tana_returns_or_raises (input : str) :
  (exists out, convert_to_tana input = Ok out)
  \/ (exists e, convert_to_tana input = Raise e).
Proof.
  pose proof (convert_to_tana_ends input) as H.
  destruct (convert_to_tana input) as [out|e|].
  - left. now exists out.
  - right. now exists e.
  - now contradiction H.
Qed.

(** ** Indentation the hierarchy builder cannot place *)

Lemma bh_step_raises (st : bh_state) (i : nat) (l : Line) (e : exn) :
  bh_step st i l = Raise e -> e = IndexError.
Proof.
  unfold bh_step, last_elem, index. intros H.
  repeat match type of H with
         | context [match ?x with _ => _ end] => destruct x; cbn in H
         end;
    try discriminate; now injection H as <-.
Qed.

Lemma bh_loop_raises (lines : list Line) : forall st i e,
  bh_loop st i lines = Raise e -> e = IndexError.
Proof.
  induction lines as [|l lines IH]; intros st i e H; [discriminate|].
  cbn [bh_loop] in H. destruct (bh_step st i l) as [[st1 l1]|e1|] eqn:E1.
  - cbn [bind fst snd] in H.
    destruct (bh_loop st1 (S i) lines) as [[st2 hl]|e2|] eqn:E2;
      try discriminate.
    cbn [bind] in H. injection H as <-. now apply IH in E2.
  - cbn [bind] in H. injection H as <-. now apply bh_step_raises in E1.
  - discriminate.
Qed.

(** When the loop raises at a line, the loop over any list that holds this
    line raises [IndexError], whatever the lines before do. *)
Lemma bh_loop_raises_at (a : list Line) (l : Line) (b : list Line) :
  (forall st, bh_in_code_block st = false ->
     (exists ha, bh_loop bh_init 0 a = Ok (st, ha)) ->
     bh_step st (List.length a) l = Raise IndexError) ->
  bh_loop bh_init 0 (a ++ l :: b) = Raise IndexError.
Proof.
  intros Hl. rewrite bh_loop_app.
  destruct (bh_loop bh_init 0 a) as [[sta ha]|e|] eqn:Ea.
  - cbn [bind fst snd bh_loop Nat.add]. rewrite Hl; [reflexivity| |now exists ha].
    apply bh_loop_inv in Ea. now destruct Ea as (Hc & _).
  - cbn [bind]. now rewrite (bh_loop_raises _ _ _ _ Ea).
  - now apply bh_loop_no_loop in Ea.
Qed.

Lemma convert_raises_of_hierarchy (input : str) :
  input <> [] ->
  bh_loop bh_init 0 (parsed (split_nl input)) = Raise IndexError ->
  convert_to_tana input = Raise IndexError.
Proof.
  intros Hne H. unfold convert_to_tana. destruct input as [|c s]; [easy|].
  unfold convert_nodes, build_hierarchy. fold (parsed (split_nl (c :: s))).
  now rewrite H.
Qed.

Lemma plainb_fields (l : Line) :
  plainb l = true ->
  strip (content l) <> [] /\ is_code_block l = false /\ is_header l = false.
Proof.
  unfold plainb, nonblankb. intros H.
  destruct (strip (content l)); [discriminate|].
  destruct (is_code_block l); [discriminate|].
  destruct (is_header l); [discriminate|]. now repeat split.
Qed.

(** A plain line whose indent is beyond the stack makes an iteration of the
    loop raise. *)
Lemma bh_step_plain_raises (st : bh_state) (i : nat) (l : Line) :
  bh_in_code_block st = false ->
  plainb l = true ->
  List.length (last_parent_at_level st) < indent l ->
  bh_step st i l = Raise IndexError.
Proof.
  intros Hc Hp Hi. apply plainb_fields in Hp. destruct Hp as (Hn & Hf & Hh).
  unfold bh_step. destruct (strip (content l)); [easy|].
  rewrite Hf, Hc, Hh. cbn [orb].
  destruct (indent l) as [|e] eqn:Ee; [lia|].
  unfold index.
  replace (nth_error (firstn (S e + 1) (last_parent_at_level st)) e)
    with (@None Z); [reflexivity|].
  symmetry. apply nth_error_None. rewrite length_firstn. lia.
Qed.

(** After an iteration on a plain line the stack holds one entry per indent
    level up to the one of the line. *)
Lemma bh_step_plain_stack (st st' : bh_state) (i : nat) (l l' : Line) :
  bh_in_code_block st = false ->
  plainb l = true ->
  bh_step st i l = Ok (st', l') ->
  List.length (last_parent_at_level st') = indent l + 1
  /\ bh_in_code_block st' = false.
Proof.
  intros Hc Hp H. apply plainb_fields in Hp. destruct Hp as (Hn & Hf & Hh).
  unfold bh_step in H. destruct (strip (content l)); [easy|].
  rewrite Hf, Hc, Hh in H. cbn [orb] in H. bind_as H as p E.
  injection H as <- <-. cbn. split; [|reflexivity].
  assert (Hlen : indent l <= List.length (firstn (indent l + 1)
                                             (last_parent_at_level st))).
  { destruct (indent l) as [|e]; [lia|]. unfold index in E.
    destruct (nth_error (firstn (S e + 1) (last_parent_at_level st)) e)
      eqn:En; [|discriminate].
    assert (e < List.length (firstn (S e + 1) (last_parent_at_level st)))
      by (apply nth_error_Some; now rewrite En).
    lia. }
  pose proof (firstn_le_length (indent l + 1) (last_parent_at_level st)) as Hle.
  destruct (List.length (firstn (indent l + 1) (last_parent_at_level st))
            <=? indent l) eqn:El.
  - apply Nat.leb_le in El. rewrite length_app. cbn [List.length]. lia.
  - apply Nat.leb_gt in El.
    assert (Hs : forall xs k v, List.length (list_set xs k v) = List.length xs).
    { induction xs as [|x xs IH]; intros k v; [reflexivity|].
      destruct k; cbn [list_set List.length]; [reflexivity|now rewrite IH]. }
    rewrite Hs. lia.
Qed.

Lemma split_nl_line_nonempty (input : str) (a : list str) (x : str)
    (b : list str) :
  split_nl input = a ++ x :: b ->
  nonblankb (parse_line x) = true ->
  input <> [].
Proof.
  intros Hs Hx ->. cbn in Hs.
  destruct a as [|a0 a]; [|destruct a; discriminate].
  injection Hs as <- <-. discriminate.
Qed.

(** X4: when the first line that is not blank is a list item or paragraph
    line indented by two levels or more (four whitespace characters), the
    lookup of its parent is out of range and [convert_to_tana] raises
    [IndexError]. *)
Theorem first_line_indented_raises (input : str) (pre : list str) (line : str)
    (post : list str) :
  split_nl input = pre ++ line :: post ->
  Forall blank (parsed pre) ->
  plainb (parse_line line) = true ->
  2 <= indent (parse_line line) ->
  convert_to_tana input = Raise IndexError.
Proof.
  intros Hs Hb Hp Hi. apply convert_raises_of_hierarchy.
  - apply (split_nl_line_nonempty input pre line post Hs).
    unfold plainb in Hp. now destruct (nonblankb (parse_line line)).
  - rewrite Hs. unfold parsed. rewrite map_app. cbn [map].
    apply bh_loop_raises_at. intros st Hc (ha & Ha).
    fold (parsed pre) in Ha. rewrite (bh_loop_blank _ Hb) in Ha.
    injection Ha as <- _.
    apply bh_step_plain_raises; [reflexivity|exact Hp|].
    change (List.length (last_parent_at_level bh_init)) with 1. lia.
Qed.

Lemma first_line_indented_raises_witness :
  convert_to_tana ([NL] ++ py "      - item") = Raise IndexError.
Proof.
  apply (first_line_indented_raises _ [[]] (py "      - item") []).
  - reflexivity.
  - constructor; [vm_compute; reflexivity|constructor].
  - vm_compute. reflexivity.
  - vm_compute. lia.
Defined.

(** X5: a list item or paragraph line that follows another one, blank lines
    apart, and is indented two or more levels deeper makes [convert_to_tana]
    raise [IndexError], whatever the rest of the input is. *)
Theorem indent_jump_raises (input : str) (pre : list str) (l1 : str)
    (mid : list str) (l2 : str) (post : list str) :
  split_nl input = pre ++ l1 :: mid ++ l2 :: post ->
  plainb (parse_line l1) = true ->
  Forall blank (parsed mid) ->
  plainb (parse_line l2) = true ->
  indent (parse_line l1) + 2 <= indent (parse_line l2) ->
  convert_to_tana input = Raise IndexError.
Proof.
  intros Hs H1 Hm H2 Hi. apply convert_raises_of_hierarchy.
  - apply (split_nl_line_nonempty input pre l1 (mid ++ l2 :: post) Hs).
    unfold plainb in H1. now destruct (nonblankb (parse_line l1)).
  - rewrite Hs. unfold parsed.
    replace (pre ++ l1 :: mid ++ l2 :: post)
      with ((pre ++ l1 :: mid) ++ l2 :: post)
      by (rewrite <- app_assoc; reflexivity).
    rewrite map_app. cbn [map]. apply bh_loop_raises_at.
    intros st Hc (ha & Ha). rewrite map_app in Ha. cbn [map] in Ha.
    rewrite bh_loop_app in Ha. bind_as Ha as o1 Ea. destruct o1 as [sta hpre].
    bind_as Ha as o2 Eb. destruct o2 as [stb hb]. cbn [fst snd] in *.
    injection Ha as <- _. cbn [bh_loop] in Eb.
    bind_as Eb as o3 E1. destruct o3 as [st1 l1'].
    bind_as Eb as o4 E2. destruct o4 as [st2 hmid]. cbn [fst snd] in *.
    injection Eb as <- _. fold (parsed mid) in E2.
    rewrite (bh_loop_blank _ Hm) in E2. injection E2 as <- _.
    apply bh_loop_inv in Ea. destruct Ea as (Hca & _).
    destruct (bh_step_plain_stack _ _ _ _ _ Hca H1 E1) as (Hlen & Hc1).
    apply bh_step_plain_raises; [exact Hc1|exact H2|]. rewrite Hlen. lia.
Qed.

Lemma indent_jump_raises_witness :
  convert_to_tana jump_example = Raise IndexError.
Proof.
  apply (indent_jump_raises _ [py "# Title"] (py "- a") [[]] (py "    - b") []).
  - reflexivity.
  - vm_compute. reflexivity.
  - constructor; [vm_compute; reflexivity|constructor].
  - vm_compute. reflexivity.
  - vm_compute. lia.
Defined.

Lemma list_set_length (xs : list Z) : forall k v,
  List.length (list_set xs k v) = List.length xs.
Proof.
  induction xs as [|x xs IH]; intros k v; [reflexivity|].
  destruct k; cbn [list_set List.length]; [reflexivity|now rewrite IH].
Qed.

(** One iteration of the loop of [build_hierarchy], seen through the number
    of entries of [last_parent_at_level]. *)
Lemma bh_step_levels (st : bh_state) (i : nat) (l : Line) (d : nat) :
  bh_in_code_block st = false ->
  List.length (last_parent_at_level st) = d -> 1 <= d ->
  if negb (nonblankb l) then bh_step st i l = Ok (st, l)
  else if is_code_block l then
    exists st' l', bh_step st i l = Ok (st', l')
      /\ bh_in_code_block st' = false
      /\ List.length (last_parent_at_level st') = d
  else if is_header l then
    exists st' l', bh_step st i l = Ok (st', l')
      /\ bh_in_code_block st' = false
      /\ List.length (last_parent_at_level st')
         = Nat.min (header_level l) d + 1
  else if indent l <=? d then
    exists st' l', bh_step st i l = Ok (st', l')
      /\ bh_in_code_block st' = false
      /\ List.length (last_parent_at_level st') = indent l + 1
  else bh_step st i l = Raise IndexError.
Proof.
  intros Hc Hd H1. unfold bh_step, nonblankb, header_level.
  destruct (strip (content l)) as [|c0 cs] eqn:Es; [reflexivity|].
  cbn [negb]. rewrite Hc, orb_false_r. destruct (is_code_block l).
  - unfold last_elem.
    destruct (rev (last_parent_at_level st)) as [|x xs] eqn:Er.
    + apply (f_equal (@List.length Z)) in Er. rewrite length_rev in Er.
      cbn in Er. lia.
    + cbn. eexists _, _. repeat split. exact Hd.
  - destruct (is_header l).
    + eexists _, _. split; [reflexivity|]. cbn. split; [reflexivity|].
      rewrite length_app, length_firstn, Hd. reflexivity.
    + destruct (indent l <=? d) eqn:Ei.
      * apply Nat.leb_le in Ei.
        assert (Hf : List.length (firstn (indent l + 1)
                                    (last_parent_at_level st))
                     = Nat.min (indent l + 1) d)
          by now rewrite length_firstn, Hd.
        assert (Hp : exists p,
                   match indent l, last_header st with
                   | 0, Some h => Ok (Z.of_nat h)
                   | 0, None => Ok (-1)%Z
                   | S e, _ => index (firstn (indent l + 1)
                                        (last_parent_at_level st)) e
                   end = Ok p).
        { destruct (indent l) as [|e] eqn:Ee.
          - destruct (last_header st); now eexists.
          - unfold index.
            destruct (nth_error (firstn (S e + 1) (last_parent_at_level st)) e)
              as [p|] eqn:En; [now exists p|].
            apply nth_error_None in En. lia. }
        destruct Hp as (p & Hp). rewrite Hp. cbn [bind].
        eexists _, _. split; [reflexivity|]. cbn. split; [reflexivity|].
        destruct (List.length (firstn (indent l + 1) (last_parent_at_level st))
                  <=? indent l) eqn:El.
        -- apply Nat.leb_le in El. rewrite length_app. cbn [List.length]. lia.
        -- apply Nat.leb_gt in El. rewrite list_set_length. lia.
      * apply Nat.leb_gt in Ei. destruct (indent l) as [|e] eqn:Ee; [lia|].
        unfold index.
        replace (nth_error (firstn (S e + 1) (last_parent_at_level st)) e)
          with (@None Z); [reflexivity|].
        symmetry. apply nth_error_None. rewrite length_firstn. lia.
Qed.

Lemma bh_loop_levels (lines : list Line) : forall st i d,
  bh_in_code_block st = false ->
  List.length (last_parent_at_level st) = d -> 1 <= d ->
  if placeable d lines then exists o, bh_loop st i lines = Ok o
  else bh_loop st i lines = Raise IndexError.
Proof.
  induction lines as [|l lines IH]; intros st i d Hc Hd H1;
    cbn [placeable bh_loop]; [now eexists|].
  pose proof (bh_step_levels st i l d Hc Hd H1) as Hs.
  assert (Hnext : forall st' l' d',
            bh_step st i l = Ok (st', l') ->
            bh_in_code_block st' = false ->
            List.length (last_parent_at_level st') = d' -> 1 <= d' ->
            if placeable d' lines
            then exists o, (o <- bh_step st i l ;;
                            t <- bh_loop (fst o) (S i) lines ;;
                            Ok (fst t, snd o :: snd t)) = Ok o
            else (o <- bh_step st i l ;;
                  t <- bh_loop (fst o) (S i) lines ;;
                  Ok (fst t, snd o :: snd t)) = Raise IndexError).
  { intros st' l' d' E Hc' Hd' H1'. rewrite E. cbn [bind fst snd].
    specialize (IH st' (S i) d' Hc' Hd' H1').
    destruct (placeable d' lines).
    - destruct IH as (o & ->). cbn [bind]. now eexists.
    - now rewrite IH. }
  destruct (negb (nonblankb l)).
  - apply (Hnext st l d Hs Hc Hd H1).
  - destruct (is_code_block l).
    + destruct Hs as (st' & l' & E & Hc' & Hd').
      apply (Hnext st' l' d E Hc' Hd' H1).
    + destruct (is_header l).
      * destruct Hs as (st' & l' & E & Hc' & Hd').
        apply (Hnext st' l' _ E Hc' Hd'). lia.
      * destruct (indent l <=? d); cbn [andb].
        -- destruct Hs as (st' & l' & E & Hc' & Hd').
           apply (Hnext st' l' _ E Hc' Hd'). lia.
        -- now rewrite Hs.
Qed.

(** X6: [build_hierarchy] returns exactly when every list item or paragraph
    line is indented at most one level deeper than the levels open before it
    ([placeable]), and raises [IndexError] otherwise; fence lines and the
    lines between them are placed like any other line. *)
Theorem build_hierarchy_placeable (lines : list Line) :
  if placeable 1 lines then exists hl, build_hierarchy lines = Ok hl
  else build_hierarchy lines = Raise IndexError.
Proof.
  unfold build_hierarchy.
  pose proof (bh_loop_levels lines bh_init 0 1 eq_refl eq_refl (le_n 1)) as H.
  destruct (placeable 1 lines).
  - destruct H as (o & ->). cbn [bind]. now eexists.
  - now rewrite H.
Qed.

(** ** The fields of a parsed line *)

Lemma rstrip_split (s : str) :
  exists trail, s = rstrip s ++ trail /\ all_space trail.
Proof.
  destruct (lstrip_split (rev s)) as (lead & E & Hl & _).
  exists (rev lead). split.
  - unfold rstrip. rewrite <- rev_app_distr, <- E. now rewrite rev_involutive.
  - now apply Forall_rev.
Qed.

Lemma rstrip_starts_solid (s : str) : starts_solid s -> starts_solid (rstrip s).
Proof.
  intros H. destruct (rstrip_split s) as (trail & E & _).
  destruct (rstrip s) as [|c r]; [exact I|].
  rewrite E in H. exact H.
Qed.

Lemma lstrip_idem (s : str) : lstrip (lstrip s) = lstrip s.
Proof.
  destruct (lstrip_split s) as (lead & _ & _ & Hs). now apply lstrip_solid.
Qed.

Lemma rstrip_idem (s : str) : rstrip (rstrip s) = rstrip s.
Proof. unfold rstrip. now rewrite rev_involutive, lstrip_idem. Qed.

(** The content [parse_line] gives a line is stripped on both sides. *)
Lemma content_stripped (line : str) :
  strip (content (parse_line line)) = content (parse_line line).
Proof.
  rewrite parse_line_eq. cbn [content].
  destruct (lstrip_split line) as (lead & _ & _ & Hs).
  unfold strip. rewrite (lstrip_solid _ (rstrip_starts_solid _ Hs)).
  apply rstrip_idem.
Qed.

(** X7: [parse_line] splits a line into its leading whitespace, its content
    and its trailing whitespace: the content is stripped on both sides, the
    indent is half the number of leading whitespace characters, rounded down
    (a tab counts for one character), a line of whitespace has an empty
    content and counts as all leading, the raw text is the line, and no
    parent is set. *)
Theorem parse_line_parts (line : str) :
  exists lead trail,
    line = lead ++ content (parse_line line) ++ trail
    /\ all_space lead /\ all_space trail
    /\ starts_solid (content (parse_line line))
    /\ strip (content (parse_line line)) = content (parse_line line)
    /\ (content (parse_line line) = [] -> trail = [])
    /\ indent (parse_line line) = List.length lead / 2
    /\ raw (parse_line line) = line
    /\ parent (parse_line line) = None.
Proof.
  rewrite parse_line_eq. cbn [content indent raw parent].
  destruct (lstrip_split line) as (lead & E & Hl & Hs).
  destruct (rstrip_split (lstrip line)) as (trail & Et & Ht).
  assert (Hsolid : starts_solid (rstrip (lstrip line)))
    by now apply rstrip_starts_solid.
  assert (Hlen : List.length line - List.length (lstrip line)
                 = List.length lead).
  { rewrite E at 1. rewrite length_app. lia. }
  destruct (rstrip (lstrip line)) as [|c r] eqn:Er.
  - exists line, []. rewrite app_nil_r.
    assert (Hall : all_space (lstrip line)) by now rewrite Et.
    assert (Hnil : lstrip line = []).
    { destruct (lstrip line) as [|x xs]; [reflexivity|].
      inversion Hall; subst. cbn in Hs. congruence. }
    rewrite Hnil, app_nil_r in E. subst lead.
    rewrite Hnil, <- Hlen. cbn [List.length]. rewrite Nat.sub_0_r.
    repeat split; auto. constructor.
  - exists lead, trail. rewrite <- Er in *. rewrite <- Et, Hlen.
    repeat split; auto.
    + unfold strip. rewrite (lstrip_solid _ Hsolid). apply rstrip_idem.
    + rewrite Er. discriminate.
Qed.

(** ** The outcomes of parse_date *)

(** [m.groups()] has one entry per group of the pattern. *)
Lemma groups_of_match (r : re) (t : str) (m : mobj) :
  re_match r t = Some m ->
  groups m = map (fun i => lookup (S i) (m_caps m)) (seq 0 (ngroups r)).
Proof.
  unfold re_match, match_at. intros H.
  destruct (rmatch r (Cur 0 None t) [] (fun c' g => Some (c', g)))
    as [[c' g]|]; [|discriminate].
  now injection H as <-.
Qed.

Ltac unpack_fails E :=
  rewrite (groups_of_match _ _ _ E);
  match goal with
  | |- context [ngroups ?r] =>
      let v := eval compute in (ngroups r) in change (ngroups r) with v
  end;
  cbn [seq map].

(** X8: [parse_date] never returns a date of type week, time or duration:
    a date it returns has type simple, and the only exception it raises is
    [ValueError]. *)
Theorem parse_date_only_simple (t : str) :
  match parse_date t with
  | Ok (Some d) => d_type d = Simple
  | Ok None => True
  | Raise e => e = ValueError
  | Loops => False
  end.
Proof.
  unfold parse_date.
  destruct (startswith (py "[[date:") t && endswith (py "]]") t)%bool;
    [reflexivity|].
  destruct (re_match week_re t) as [m|] eqn:E1;
    [unpack_fails E1; reflexivity|].
  destruct (re_match week_range_re t) as [m|] eqn:E2;
    [unpack_fails E2; reflexivity|].
  destruct (re_match iso_time_re t) as [m|] eqn:E3;
    [unpack_fails E3; reflexivity|].
  destruct (re_match legacy_time_re t) as [m|] eqn:E4;
    [unpack_fails E4; reflexivity|].
  destruct (re_match duration_re t) as [m|] eqn:E5;
    [unpack_fails E5; reflexivity|].
  destruct (re_match iso_duration_re t) as [m|] eqn:E6;
    [unpack_fails E6; reflexivity|].
  destruct (re_match iso_re t) as [m|] eqn:E7; [reflexivity|].
  destruct (re_match month_year_re t) as [m|] eqn:E8;
    [unpack_fails E8; reflexivity|].
  destruct (re_match year_re t) as [m|]; [reflexivity|exact I].
Qed.

(** X9: [parse_date] raises [ValueError] exactly on the texts that are not a
    date reference already and that match a pattern whose groups the source
    unpacks into one name too many: the week, week range, ISO date with
    time, long form, duration and ISO duration patterns, and the month and
    year pattern when the text is no plain ISO date. *)
Theorem parse_date_raises_iff (t : str) :
  parse_date t = Raise ValueError
  <-> (startswith (py "[[date:") t && endswith (py "]]") t)%bool = false
      /\ unpacking_match t = true.
Proof.
  unfold parse_date, unpacking_match, matches.
  destruct (startswith (py "[[date:") t && endswith (py "]]") t)%bool;
    [split; [discriminate|intros [? _]; discriminate]|].
  destruct (re_match week_re t) as [m|] eqn:E1;
    [unpack_fails E1; now split|].
  destruct (re_match week_range_re t) as [m|] eqn:E2;
    [unpack_fails E2; now split|].
  destruct (re_match iso_time_re t) as [m|] eqn:E3;
    [unpack_fails E3; now split|].
  destruct (re_match legacy_time_re t) as [m|] eqn:E4;
    [unpack_fails E4; now split|].
  destruct (re_match duration_re t) as [m|] eqn:E5;
    [unpack_fails E5; now split|].
  destruct (re_match iso_duration_re t) as [m|] eqn:E6;
    [unpack_fails E6; now split|].
  destruct (re_match iso_re t) as [m|] eqn:E7;
    [split; [discriminate|intros [_ ?]; discriminate]|].
  destruct (re_match month_year_re t) as [m|] eqn:E8;
    [unpack_fails E8; now split|].
  destruct (re_match year_re t) as [m|];
    (split; [discriminate|intros [_ ?]; discriminate]).
Qed.

(** ** Nested and sibling items *)

Lemma list_set_same (xs : list Z) : forall k v,
  k < List.length xs -> nth_error (list_set xs k v) k = Some v.
Proof.
  induction xs as [|x xs IH]; intros k v Hk; cbn [List.length] in Hk; [lia|].
  destruct k; cbn [list_set nth_error]; [reflexivity|]. apply IH. lia.
Qed.

Lemma list_set_other (xs : list Z) : forall k j v,
  j <> k -> nth_error (list_set xs k v) j = nth_error xs j.
Proof.
  induction xs as [|x xs IH]; intros k j v Hj; [reflexivity|].
  destruct k, j; cbn [list_set nth_error]; try reflexivity; try lia.
  apply IH. lia.
Qed.

(** An iteration of the loop of [build_hierarchy] on a list item or
    paragraph line: the parent it gives, and the stack it leaves. *)
Lemma bh_step_plain_parent (st st' : bh_state) (i : nat) (l l' : Line) :
  bh_in_code_block st = false ->
  plainb l = true ->
  bh_step st i l = Ok (st', l') ->
  (exists p, l' = set_parent l (Some p)
     /\ match indent l with
        | 0 => p = match last_header st with
                   | Some h => Z.of_nat h
                   | None => (-1)%Z
                   end
        | S e => nth_error (last_parent_at_level st) e = Some p
        end)
  /\ nth_error (last_parent_at_level st') (indent l) = Some (Z.of_nat i)
  /\ (forall k, k < indent l ->
        nth_error (last_parent_at_level st') k
        = nth_error (last_parent_at_level st) k)
  /\ List.length (last_parent_at_level st') = indent l + 1
  /\ last_header st' = last_header st
  /\ bh_in_code_block st' = false.
Proof.
  intros Hc Hp H.
  destruct (bh_step_plain_stack _ _ _ _ _ Hc Hp H) as (Hlen & Hc').
  apply plainb_fields in Hp. destruct Hp as (Hn & Hf & Hh).
  unfold bh_step in H. destruct (strip (content l)); [easy|].
  rewrite Hf, Hc, Hh in H. cbn [orb] in H. bind_as H as p E.
  injection H as <- <-. cbn in *.
  set (stack := firstn (indent l + 1) (last_parent_at_level st)) in *.
  assert (Hk : forall k, k < indent l + 1 ->
                 nth_error stack k = nth_error (last_parent_at_level st) k).
  { intros k Hk. unfold stack. now rewrite nth_error_firstn,
      (proj2 (Nat.ltb_lt _ _) Hk). }
  assert (Hge : indent l <= List.length stack).
  { destruct (indent l) as [|e] eqn:Ee; [lia|]. unfold index in E.
    destruct (nth_error stack e) eqn:En; [|discriminate].
    assert (e < List.length stack) by (apply nth_error_Some; now rewrite En).
    lia. }
  split; [|split; [|split; [|repeat split; assumption]]].
  - exists p. split; [reflexivity|]. destruct (indent l) as [|e] eqn:Ee.
    + destruct (last_header st); now injection E as <-.
    + unfold index in E. rewrite Hk in E by lia.
      destruct (nth_error (last_parent_at_level st) e); [|discriminate].
      now injection E as <-.
  - destruct (List.length stack <=? indent l) eqn:El.
    + apply Nat.leb_le in El. rewrite nth_error_app2 by lia.
      replace (indent l - List.length stack) with 0 by lia. reflexivity.
    + apply Nat.leb_gt in El. now apply list_set_same.
  - intros k Hlt. rewrite <- Hk by lia.
    destruct (List.length stack <=? indent l) eqn:El.
    + apply nth_error_app1. lia.
    + apply list_set_other. lia.
Qed.

(** The two iterations of the loop on two lines of a list of lines that
    only blank lines separate. *)
Lemma bh_two (a : list Line) (l1 : Line) (mid : list Line) (l2 : Line)
    (b : list Line) (st : bh_state) (hl : list Line) :
  bh_loop bh_init 0 (a ++ l1 :: mid ++ l2 :: b) = Ok (st, hl) ->
  Forall blank mid ->
  exists sta st1 st2 l1' l2',
    bh_in_code_block sta = false
    /\ bh_step sta (List.length a) l1 = Ok (st1, l1')
    /\ bh_step st1 (List.length a + 1 + List.length mid) l2 = Ok (st2, l2')
    /\ nth_error hl (List.length a) = Some l1'
    /\ nth_error hl (List.length a + 1 + List.length mid) = Some l2'.
Proof.
  intros H Hm. rewrite bh_loop_app in H.
  bind_as H as o1 Ea. destruct o1 as [sta ha].
  bind_as H as o2 Eb. destruct o2 as [stb hb]. cbn [fst snd] in *.
  injection H as <- <-. cbn [bh_loop] in Eb.
  bind_as Eb as o3 E1. destruct o3 as [st1 l1'].
  bind_as Eb as o4 Ec. destruct o4 as [stc hc]. cbn [fst snd] in *.
  injection Eb as <- <-. rewrite bh_loop_app in Ec.
  rewrite (bh_loop_blank _ Hm) in Ec. cbn [bind fst snd bh_loop] in Ec.
  bind_as Ec as o5 Ee. destruct o5 as [ste he]. cbn [fst snd] in *.
  injection Ec as <- <-.
  bind_as Ee as o6 E2. destruct o6 as [st2 l2'].
  bind_as Ee as o7 Ed. destruct o7 as [std hd]. cbn [fst snd] in *.
  injection Ee as <- <-.
  pose proof Ea as Hinv. apply bh_loop_inv in Hinv.
  destruct Hinv as (Hca & Hsh & _).
  assert (Hla : List.length ha = List.length a)
    by (symmetry; eapply Forall2_length; exact Hsh).
  exists sta, st1, st2, l1', l2'. repeat split.
  - exact Hca.
  - exact E1.
  - replace (List.length a + 1 + List.length mid)
      with (S (List.length a) + List.length mid) by lia. exact E2.
  - rewrite nth_error_app2 by lia. now rewrite Hla, Nat.sub_diag.
  - rewrite nth_error_app2 by lia.
    replace (List.length a + 1 + List.length mid - List.length ha)
      with (S (List.length mid)) by lia.
    cbn [nth_error]. rewrite nth_error_app2 by lia.
    now rewrite Nat.sub_diag.
Qed.

Lemma nth_error_app_mid {A} (a : list A) (x : A) (b : list A) :
  nth_error (a ++ x :: b) (List.length a) = Some x.
Proof. rewrite nth_error_app2 by lia. now rewrite Nat.sub_diag. Qed.

(** X10: in the hierarchy, a list item or paragraph line indented one level
    deeper than the list item or paragraph line before it (blank lines
    apart) has that line as parent, and its node is one level deeper. *)
Theorem child_item_parent (pre : list str) (l1 : str) (mid : list str)
    (l2 : str) (post : list str) (hl : list Line) :
  build_hierarchy (parsed (pre ++ l1 :: mid ++ l2 :: post)) = Ok hl ->
  plainb (parse_line l1) = true ->
  Forall blank (parsed mid) ->
  plainb (parse_line l2) = true ->
  indent (parse_line l2) = indent (parse_line l1) + 1 ->
  exists h1 h2 d,
    nth_error hl (List.length pre) = Some h1
    /\ nth_error hl (List.length pre + 1 + List.length mid) = Some h2
    /\ parent h2 = Some (Z.of_nat (List.length pre))
    /\ depth_of hl h1 = Ok d
    /\ depth_of hl h2 = Ok (S d).
Proof.
  intros H H1 Hm H2 Hi.
  pose proof (build_hierarchy_backward _ _ H) as Hb.
  unfold build_hierarchy in H. bind_as H as o B. apply Ok_inj in H.
  destruct o as [st hl']. cbn [snd] in H. subst hl'.
  unfold parsed in B. rewrite map_app in B. cbn [map] in B.
  rewrite map_app in B. cbn [map] in B.
  destruct (bh_two _ _ _ _ _ _ _ B Hm)
    as (sta & st1 & st2 & h1 & h2 & Hca & S1 & S2 & N1 & N2).
  rewrite !length_map in *.
  destruct (bh_step_plain_parent _ _ _ _ _ Hca H1 S1)
    as (_ & Hat & _ & _ & _ & Hc1).
  destruct (bh_step_plain_parent _ _ _ _ _ Hc1 H2 S2)
    as ((p & -> & Hp) & _).
  rewrite Hi, Nat.add_1_r in Hp. rewrite Hat in Hp. injection Hp as <-.
  destruct (depth_of_backward hl Hb _ _ N2)
    as (d2 & D2 & _ & _ & _ & Hrec).
  destruct (Hrec (Z.of_nat (List.length pre)) eq_refl (Nat2Z.is_nonneg _))
    as (q & dq & Nq & Dq & ->).
  rewrite Nat2Z.id, N1 in Nq. injection Nq as <-.
  exists h1, (set_parent (parse_line l2) (Some (Z.of_nat (List.length pre)))),
    dq.
  repeat split; assumption.
Qed.

Lemma child_item_parent_witness :
  exists h1 h2 d,
    nth_error
      [set_parent (parse_line (py "- a")) (Some (-1)%Z);
       set_parent (parse_line (py "  - b")) (Some 0%Z)] 0 = Some h1
    /\ nth_error
         [set_parent (parse_line (py "- a")) (Some (-1)%Z);
          set_parent (parse_line (py "  - b")) (Some 0%Z)] (0 + 1 + 0)
       = Some h2
    /\ parent h2 = Some (Z.of_nat 0)
    /\ depth_of
         [set_parent (parse_line (py "- a")) (Some (-1)%Z);
          set_parent (parse_line (py "  - b")) (Some 0%Z)] h1 = Ok d
    /\ depth_of
         [set_parent (parse_line (py "- a")) (Some (-1)%Z);
          set_parent (parse_line (py "  - b")) (Some 0%Z)] h2 = Ok (S d).
Proof.
  apply (child_item_parent [] (py "- a") [] (py "  - b") []).
  - vm_compute. reflexivity.
  - vm_compute. reflexivity.
  - constructor.
  - vm_compute. reflexivity.
  - vm_compute. reflexivity.
Defined.

(** X11: in the hierarchy, a list item or paragraph line with the same
    indent as the list item or paragraph line before it (blank lines apart)
    has the same parent, and its node is at the same depth. *)
Theorem sibling_item_parent (pre : list str) (l1 : str) (mid : list str)
    (l2 : str) (post : list str) (hl : list Line) :
  build_hierarchy (parsed (pre ++ l1 :: mid ++ l2 :: post)) = Ok hl ->
  plainb (parse_line l1) = true ->
  Forall blank (parsed mid) ->
  plainb (parse_line l2) = true ->
  indent (parse_line l2) = indent (parse_line l1) ->
  exists h1 h2 d,
    nth_error hl (List.length pre) = Some h1
    /\ nth_error hl (List.length pre + 1 + List.length mid) = Some h2
    /\ parent h2 = parent h1
    /\ depth_of hl h1 = Ok d
    /\ depth_of hl h2 = Ok d.
Proof.
  intros H H1 Hm H2 Hi.
  pose proof (build_hierarchy_backward _ _ H) as Hb.
  unfold build_hierarchy in H. bind_as H as o B. apply Ok_inj in H.
  destruct o as [st hl']. cbn [snd] in H. subst hl'.
  unfold parsed in B. rewrite map_app in B. cbn [map] in B.
  rewrite map_app in B. cbn [map] in B.
  destruct (bh_two _ _ _ _ _ _ _ B Hm)
    as (sta & st1 & st2 & h1 & h2 & Hca & S1 & S2 & N1 & N2).
  rewrite !length_map in *.
  destruct (bh_step_plain_parent _ _ _ _ _ Hca H1 S1)
    as ((p1 & -> & Hp1) & _ & Hkeep & _ & Hh1 & Hc1).
  destruct (bh_step_plain_parent _ _ _ _ _ Hc1 H2 S2)
    as ((p2 & -> & Hp2) & _).
  assert (Ep : p2 = p1).
  { rewrite Hi in Hp2. destruct (indent (parse_line l1)) as [|e].
    - rewrite Hh1 in Hp2. congruence.
    - rewrite Hkeep in Hp2 by lia. congruence. }
  subst p2.
  destruct (depth_of_backward hl Hb _ _ N1) as (d & D1 & _).
  exists (set_parent (parse_line l1) (Some p1)),
    (set_parent (parse_line l2) (Some p1)), d.
  split; [exact N1|]. split; [exact N2|]. split; [reflexivity|].
  split; exact D1.
Qed.

Lemma sibling_item_parent_witness :
  exists h1 h2 d,
    nth_error
      [set_parent (parse_line (py "# T")) (Some (-1)%Z);
       set_parent (parse_line (py "- a")) (Some 0%Z);
       set_parent (parse_line []) None;
       set_parent (parse_line (py "- b")) (Some 0%Z)] 1 = Some h1
    /\ nth_error
         [set_parent (parse_line (py "# T")) (Some (-1)%Z);
          set_parent (parse_line (py "- a")) (Some 0%Z);
          set_parent (parse_line []) None;
          set_parent (parse_line (py "- b")) (Some 0%Z)] (1 + 1 + 1)
       = Some h2
    /\ parent h2 = parent h1
    /\ depth_of
         [set_parent (parse_line (py "# T")) (Some (-1)%Z);
          set_parent (parse_line (py "- a")) (Some 0%Z);
          set_parent (parse_line []) None;
          set_parent (parse_line (py "- b")) (Some 0%Z)] h1 = Ok d
    /\ depth_of
         [set_parent (parse_line (py "# T")) (Some (-1)%Z);
          set_parent (parse_line (py "- a")) (Some 0%Z);
          set_parent (parse_line []) None;
          set_parent (parse_line (py "- b")) (Some 0%Z)] h2 = Ok d.
Proof.
  apply (sibling_item_parent [py "# T"] (py "- a") [[]] (py "- b") []).
  - vm_compute. reflexivity.
  - vm_compute. reflexivity.
  - constructor; [vm_compute; reflexivity|constructor].
  - vm_compute. reflexivity.
  - vm_compute. reflexivity.
Defined.

(** ** The lines that give a node *)

Lemma node_indices_shape (a b : list Line) :
  Forall2 shape a b ->
  forall open i, node_indices open i a = node_indices open i b.
Proof.
  induction 1 as [|x y a b Hxy _ IH]; intros open i; [reflexivity|].
  cbn [node_indices]. rewrite (shape_nonblankb _ _ Hxy).
  destruct Hxy as [p ->]. cbn [is_code_block set_parent]. now rewrite !IH.
Qed.

Lemma emit_loop_indices (hl ls : list Line) : forall st i st' ns,
  emit_loop hl st i ls = Ok (st', ns) ->
  map fst ns = node_indices (in_code_block st) i ls.
Proof.
  induction ls as [|l ls IH]; intros st i st' ns H.
  - injection H as <- <-. reflexivity.
  - cbn [emit_loop] in H. bind_as H as o1 S1. destruct o1 as [st1 on].
    bind_as H as o2 S2. destruct o2 as [st2 ns2]. cbn [fst snd] in *.
    injection H as <- <-. apply IH in S2. cbn [node_indices].
    unfold emit_step in S1. unfold nonblankb.
    destruct (strip (content l)) as [|c0 cs].
    + injection S1 as <- <-. exact S2.
    + cbn [negb]. bind_as S1 as d D.
      destruct (is_code_block l), (in_code_block st) eqn:Ei; cbn in S1.
      * injection S1 as <- <-. cbn [map fst]. now rewrite S2.
      * injection S1 as <- <-. exact S2.
      * injection S1 as <- <-. exact S2.
      * bind_as S1 as t T. injection S1 as <- <-. cbn [map fst].
        now rewrite S2, Ei.
Qed.

(** X12: the nodes of the output come, in order, from the lines at which
    the output loop appends one: every line outside a code block that is
    neither blank nor a fence, and every fence that closes a code block.  A
    code block that is never closed gives no node: its lines are dropped. *)
Theorem convert_nodes_indices (input : str) (nodes : list (nat * node)) :
  convert_nodes input = Ok nodes ->
  map fst nodes = node_indices false 0 (parsed (split_nl input)).
Proof.
  intros H. unfold convert_nodes, build_hierarchy in H.
  bind_as H as hl B. bind_as B as o B1. apply Ok_inj in B. subst hl.
  destruct o as [st hl]. cbn [snd] in H.
  bind_as H as o E. apply Ok_inj in H. subst nodes. destruct o as [est ns].
  cbn [snd]. apply emit_loop_indices in E. rewrite E.
  apply bh_loop_inv in B1. destruct B1 as (_ & Hsh & _).
  symmetry. now apply node_indices_shape.
Qed.

Lemma convert_nodes_indices_witness :
  map fst [(0, mkNode 0 (py "!! Title")); (1, mkNode 1 (py "Some text"));
           (2, mkNode 1 (py "item"))]
  = node_indices false 0 (parsed (split_nl list_example)).
Proof.
  apply (convert_nodes_indices list_example). vm_compute. reflexivity.
Defined.

(** ** Greedy chunks, and the chunks of a conversion *)

Section Packing.

Open Scope Z_scope.

Lemma packed_cons (m : Z) (b x : list str) (xs : list (list str)) :
  packed m (b :: x :: xs)
  <-> (exists l r, x = l :: r /\ m <= len (chunk_of (b ++ [l])))
      /\ packed m (x :: xs).
Proof. reflexivity. Qed.

Lemma packed_front (m : Z) (a : list (list str)) : forall b,
  packed m (a ++ b) -> packed m a.
Proof.
  induction a as [|x a IH]; intros b H; [exact I|].
  destruct a as [|y a]; [exact I|].
  change ((x :: y :: a) ++ b) with (x :: y :: (a ++ b)) in H.
  apply packed_cons in H. destruct H as [H1 H2].
  apply packed_cons. split; [exact H1|].
  apply (IH b). exact H2.
Qed.

(** The chunking loop, from an open chunk [b]: the chunks it closes and the
    chunk left open hold the lines in order, none of them is empty, each has
    room for the line break the loop counts or holds one line, and they are
    filled greedily. *)
Lemma chunk_loop_tight (m : Z) (lines : list str) : forall chunks b,
  open_ok m b ->
  exists bodies b',
    chunk_loop m lines chunks (header_token :: b) (9 + lines_size b)
    = (chunks ++ map chunk_of bodies, header_token :: b')
    /\ List.concat bodies ++ b' = b ++ lines
    /\ Forall (fun x => x <> []) bodies
    /\ Forall (chunk_tight m) bodies
    /\ open_ok m b'
    /\ packed m (bodies ++ [b']).
Proof.
  induction lines as [|line rest IH]; intros chunks b Hb.
  - exists [], b. cbn [chunk_loop map List.concat app hd packed].
    rewrite !app_nil_r.
    split; [reflexivity|]. split; [reflexivity|]. split; [constructor|].
    split; [constructor|]. split; [exact Hb|]. exact I.
  - cbn [chunk_loop].
    destruct ((9 + lines_size b + (len line + 1) >? m)
              && (1 <? List.length (header_token :: b))%nat)%bool eqn:E.
    + apply andb_true_iff in E. destruct E as [E1 E2].
      apply Nat.ltb_lt in E2.
      rewrite Z.gtb_ltb in E1. apply Z.ltb_lt in E1.
      assert (Hne : b <> []) by (intros ->; simpl in E2; lia).
      destruct (IH (chunks ++ [join [NL] (header_token :: b)]) [line])
        as (bodies & b' & Hl & Hc & Hn & Hf & Ho & Hp).
      { right. left. now exists line. }
      exists (b :: bodies), b'.
      replace (len (header_token ++ [NL]) + (len line + 1))
        with (9 + lines_size [line])
        by (cbn [lines_size]; change (len (header_token ++ [NL])) with 9; lia).
      change ([header_token] ++ [line]) with (header_token :: [line]).
      rewrite Hl.
      split; [simpl; now rewrite <- app_assoc|].
      split; [simpl; rewrite <- app_assoc; now rewrite Hc|].
      split; [now constructor|].
      split.
      { constructor; [|exact Hf].
        destruct Hb as [Hb | [Hb | Hb]]; [contradiction | now right |].
        left. rewrite len_chunk_of. lia. }
      split; [exact Ho|].
      assert (Hx : exists r xs, bodies ++ [b'] = (line :: r) :: xs).
      { destruct bodies as [|x xs]; cbn [List.concat app] in *.
        - exists rest, []. now rewrite Hc.
        - inversion Hn as [|? ? Hx _]; subst.
          destruct x as [|l0 x]; [contradiction|].
          injection Hc as -> _. now exists x, (xs ++ [b']). }
      destruct Hx as (r & xs & Hx).
      change ((b :: bodies) ++ [b']) with (b :: (bodies ++ [b'])).
      rewrite Hx in *. apply packed_cons. split; [|exact Hp].
      exists line, r. split; [reflexivity|].
      rewrite len_chunk_of, lines_size_app. cbn [lines_size]. lia.
    + destruct (IH chunks (b ++ [line]))
        as (bodies & b' & Hl & Hc & Hn & Hf & Ho & Hp).
      { apply andb_false_iff in E. destruct E as [E | E].
        - right. right. rewrite lines_size_app. cbn [lines_size].
          rewrite Z.gtb_ltb in E. apply Z.ltb_ge in E. lia.
        - apply Nat.ltb_ge in E. destruct b; [|simpl in E; lia].
          right. left. now exists line. }
      exists bodies, b'.
      change ((header_token :: b) ++ [line])
        with (header_token :: (b ++ [line])).
      replace (9 + lines_size b + (len line + 1))
        with (9 + lines_size (b ++ [line]))
        by (rewrite lines_size_app; cbn [lines_size]; lia).
      rewrite Hl.
      split; [reflexivity|].
      split; [now rewrite Hc, <- app_assoc|].
      split; [exact Hn|].
      split; [exact Hf|]. split; [exact Ho|]. exact Hp.
Qed.


Lemma chunk_of_prefix (a r : list str) :
  len (chunk_of a) <= len (chunk_of (a ++ r)).
Proof.
  rewrite !len_chunk_of, lines_size_app.
  pose proof (lines_size_nonneg r). lia.
Qed.

(** A chunk that is filled greedily cannot be a proper part of another one
    that starts at the same line. *)
Lemma greedy_first (m : Z) (b b' : list str) (rest rest' : list (list str)) :
  b <> [] ->
  Forall (fun x => x <> []) rest ->
  packed m (b :: rest) ->
  chunk_tight m b' ->
  forall r, r <> [] -> b' = b ++ r -> List.concat rest = r ++ List.concat rest' ->
  False.
Proof.
  intros Hb Hn Hp Ht r Hr -> Hc.
  destruct r as [|l r]; [contradiction|].
  destruct rest as [|x rest]; [discriminate|].
  inversion Hn as [|? ? Hx _]; subst.
  destruct x as [|l0 x]; [contradiction|].
  cbn [List.concat app] in Hc. injection Hc as -> _.
  apply packed_cons in Hp. destruct Hp as [(l1 & r1 & [= <- <-] & Hp) _].
  destruct Ht as [Ht | (l2 & Ht)].
  - pose proof (chunk_of_prefix (b ++ [l]) r) as Hle.
    rewrite <- app_assoc in Hle. cbn [app] in Hle. lia.
  - destruct b as [|c0 b]; [contradiction|].
    destruct b; discriminate.
Qed.

Lemma greedy_tail (m : Z) (b : list str) (bs : list (list str)) :
  Forall (fun x => x <> []) bs -> Forall (chunk_tight m) bs ->
  packed m (b :: bs) -> greedy m (List.concat bs) bs.
Proof.
  intros Hn Ht Hp. split; [reflexivity|]. split; [exact Hn|].
  split; [exact Ht|]. destruct bs; [exact I|].
  apply packed_cons in Hp. exact (proj2 Hp).
Qed.

(** The conditions of [greedy] leave one way only to cut the lines. *)
Lemma greedy_unique (m : Z) (bs : list (list str)) : forall lines bs',
  greedy m lines bs -> greedy m lines bs' -> bs' = bs.
Proof.
  induction bs as [|b bs IH]; intros lines bs' (Hc & Hn & Ht & Hp)
    (Hc' & Hn' & Ht' & Hp'); subst lines.
  - destruct bs' as [|b' bs']; [reflexivity|].
    inversion Hn' as [|? ? Hb' _]; subst.
    cbn [List.concat] in Hc'. destruct b'; [contradiction|discriminate].
  - inversion Hn as [|? ? Hb Hns]; subst.
    inversion Ht as [|? ? Htb Hts]; subst.
    destruct bs' as [|b' bs'].
    { cbn [List.concat] in Hc'. destruct b; [contradiction|discriminate]. }
    inversion Hn' as [|? ? Hb' Hns']; subst.
    inversion Ht' as [|? ? Htb' Hts']; subst.
    cbn [List.concat] in Hc'.
    pose proof (greedy_tail m b bs Hns Hts Hp) as G.
    pose proof (greedy_tail m b' bs' Hns' Hts' Hp') as G'.
    destruct (app_eq_app _ _ _ _ Hc') as (r & [[E1 E2] | [E1 E2]]).
    + destruct r as [|l r].
      * rewrite app_nil_r in E1. subst b'. cbn [app] in E2. f_equal.
        apply (IH (List.concat bs)); [exact G|]. rewrite E2. exact G'.
      * exfalso.
        apply (greedy_first m b b' bs bs' Hb Hns Hp Htb' (l :: r));
          [discriminate | exact E1 | exact E2].
    + destruct r as [|l r].
      * rewrite app_nil_r in E1. subst b'. cbn [app] in E2. f_equal.
        apply (IH (List.concat bs)); [exact G|]. rewrite <- E2. exact G'.
      * exfalso.
        apply (greedy_first m b' b bs' bs Hb' Hns' Hp' Htb (l :: r));
          [discriminate | exact E1 | exact E2].
Qed.

(** The chunks of a content that is longer than the budget. *)
Lemma chunk_content_greedy (content : str) (m : Z) :
  m < len content ->
  exists bodies,
    chunk_content content m = map chunk_of bodies
    /\ greedy m (chunk_lines content) bodies.
Proof.
  intros Hlong. unfold chunk_content.
  replace (len content <=? m) with false by (symmetry; apply Z.leb_gt; lia).
  cbv zeta.
  change (match split_nl content with
          | [] => split_nl content
          | l0 :: rest =>
              if str_eqb l0 header_token then rest else split_nl content
          end) with (chunk_lines content).
  destruct (chunk_loop_tight m (chunk_lines content) [] [])
    as (bodies & b' & Hl & Hc & Hn & Hf & Ho & Hp); [now left|].
  change (len (header_token ++ [NL])) with (9 + lines_size []).
  rewrite Hl. cbn [fst snd app] in *.
  destruct b' as [|l b'].
  - exists bodies. rewrite app_nil_r in Hc.
    split; [reflexivity|]. split; [exact Hc|]. split; [exact Hn|].
    split; [exact Hf|]. now apply packed_front in Hp.
  - exists (bodies ++ [l :: b']).
    replace (1 <? List.length (header_token :: l :: b'))%nat with true
      by (symmetry; apply Nat.ltb_lt; simpl; lia).
    split; [now rewrite map_app|].
    split; [rewrite concat_app; simpl; now rewrite app_nil_r|].
    split; [apply Forall_app; split; [exact Hn|]; now repeat constructor|].
    split; [|exact Hp].
    apply Forall_app. split; [exact Hf|]. constructor; [|constructor].
    destruct Ho as [Ho | [Ho | Ho]]; [discriminate | now right |].
    left. rewrite len_chunk_of. lia.
Qed.

Lemma chunk_tight_fits (m : Z) (b : list str) :
  chunk_tight m b -> chunk_fits m b.
Proof. intros [H | H]; [left; lia | now right]. Qed.

Lemma chunk_content_long (content : str) (m : Z) :
  m < len content ->
  exists bodies,
    chunk_content content m = map chunk_of bodies
    /\ List.concat bodies = chunk_lines content
    /\ Forall (fun b => b <> []) bodies
    /\ Forall (chunk_fits m) bodies
    /\ packed m bodies.
Proof.
  intros Hlong.
  destruct (chunk_content_greedy content m Hlong)
    as (bodies & H1 & H2 & H3 & H4 & H5).
  exists bodies. split; [exact H1|]. split; [exact H2|]. split; [exact H3|].
  split; [|exact H5].
  eapply Forall_impl; [|exact H4]. apply chunk_tight_fits.
Qed.

(** X13: for a content longer than the budget, [chunk_content] loses
    nothing and fills the chunks greedily, and this fixes the chunks: they
    hold, in order, the lines of the content (without a first header line),
    no chunk is empty, a chunk of several lines is shorter than the budget,
    and the first line of every chunk after the first would have brought
    the chunk before it to the budget or beyond; no other way of cutting
    the lines meets these conditions.  The loop counts a line break after
    every line, so a line that would bring a chunk to exactly the budget is
    moved to the next chunk. *)
Theorem chunk_content_packed (content : str) (max_chunk_size : Z) :
  max_chunk_size < len content ->
  exists bodies,
    chunk_content content max_chunk_size = map chunk_of bodies
    /\ greedy max_chunk_size (chunk_lines content) bodies
    /\ forall bodies',
         greedy max_chunk_size (chunk_lines content) bodies' ->
         bodies' = bodies.
Proof.
  intros H. destruct (chunk_content_greedy content max_chunk_size H)
    as (bodies & H1 & H2).
  exists bodies. split; [exact H1|]. split; [exact H2|].
  intros bodies' H'. exact (greedy_unique _ _ _ _ H2 H').
Qed.

(** X14: the chunks [main] writes for a non-empty input cover the converted
    text: every chunk is the header line followed by whole lines of the
    conversion, the lines of all chunks, in order and under one header, are
    the conversion, and every chunk is within the budget or holds a single
    line. *)
Theorem main_chunks_cover (input : str) (chunk_size : Z) (chunks : list str) :
  input <> [] ->
  main_chunks input chunk_size = Ok chunks ->
  exists out bodies,
    convert_to_tana input = Ok out
    /\ chunks = map chunk_of bodies
    /\ chunk_of (List.concat bodies) = out
    /\ Forall (chunk_fits chunk_size) bodies.
Proof.
  intros Hne H. unfold main_chunks in H. bind_as H as out E.
  apply Ok_inj in H. subst chunks. exists out.
  assert (Hs : exists body, split_nl out = header_token :: body).
  { destruct input as [|c0 input]; [contradiction|].
    unfold convert_to_tana in E. bind_as E as nodes En. apply Ok_inj in E.
    rewrite <- E, split_nl_join. cbn [map List.concat]. now eexists. }
  destruct Hs as (body & Hs).
  assert (Hout : chunk_of body = out).
  { unfold chunk_of. rewrite <- Hs. apply join_split_nl. }
  destruct (Z_lt_le_dec chunk_size (len out)) as [Hlong|Hshort].
  - destruct (chunk_content_long out chunk_size Hlong)
      as (bodies & H1 & H2 & _ & H4 & _).
    exists bodies. split; [exact E|]. split; [exact H1|].
    split; [|exact H4]. rewrite H2. unfold chunk_lines. rewrite Hs.
    replace (str_eqb header_token header_token) with true by reflexivity.
    exact Hout.
  - exists [body]. split; [exact E|]. unfold chunk_content.
    replace (len out <=? chunk_size) with true
      by (symmetry; apply Z.leb_le; lia).
    cbn [map List.concat]. rewrite app_nil_r, Hout.
    split; [reflexivity|]. split; [reflexivity|].
    constructor; [|constructor]. left. now rewrite Hout.
Qed.

End Packing.

Lemma chunk_content_packed_witness :
  exists bodies,
    chunk_content exact_example 16 = map chunk_of bodies
    /\ greedy 16 (chunk_lines exact_example) bodies
    /\ forall bodies',
         greedy 16 (chunk_lines exact_example) bodies' -> bodies' = bodies.
Proof. apply (chunk_content_packed exact_example 16). reflexivity. Defined.

Lemma main_chunks_cover_witness :
  exists out bodies,
    convert_to_tana list_example = Ok out
    /\ main_example_chunks = map chunk_of bodies
    /\ chunk_of (List.concat bodies) = out
    /\ Forall (chunk_fits 30) bodies.
Proof.
  apply (main_chunks_cover list_example 30 main_example_chunks).
  - discriminate.
  - vm_compute. reflexivity.
Defined.

(** ** Fields *)

(** A repetition at a character outside its class takes no character. *)
Lemma mrep_no_run {R} (p : char -> bool) (lo : nat) (hi : option nat)
    (pos : nat) (prev : option char) (x : char) (rest : str)
    (k : cur -> option R) :
  p x = false ->
  mrep p true lo hi pos prev (x :: rest) k
  = match lo with 0 => k (Cur pos prev (x :: rest)) | S _ => None end.
Proof. intros H. cbn [mrep]. rewrite H. now destruct lo. Qed.

(** The field pattern on a line [key: value] whose key does not start with
    whitespace or a list marker: it matches the line as a whole. *)
Lemma field_re_match (c0 : char) (k' ws value : str) :
  isspace c0 = false ->
  one_of "-*+" c0 = false ->
  Forall (fun c => negb (is_chr (ch ":") c || N.eqb c NL) = true) (c0 :: k') ->
  all_space ws -> ws <> [] ->
  value <> [] -> starts_solid value ->
  Forall (fun c => not_nl c = true) value ->
  exists m,
    match_at field_re (Cur 0 None ((c0 :: k') ++ py ":" ++ ws ++ value))
    = Some m
    /\ m_text m = (c0 :: k') ++ py ":" ++ ws ++ value
    /\ group_s m 1 = []
    /\ group_s m 2 = c0 :: k'
    /\ group_s m 3 = value.
Proof.
  intros Hsp Hmk Hkey Hws Hwne Hvne Hvs Hnl.
  assert (Hm : exists c',
             rmatch field_re
               (Cur 0 None ((c0 :: k') ++ py ":" ++ ws ++ value ++ [])) []
               (fun c' g => Some (c', g))
             = Some (c', [(3, value); (2, c0 :: k')])
             /\ c_pos c' = List.length (c0 :: k') + 1 + List.length ws
                           + List.length value).
  { unfold field_re, ws0, ws1, star, plus, L.
    cbn [seqs fold_right rmatch at_bol c_prev c_pos c_rest].
    change ((c0 :: k') ++ py ":" ++ ws ++ value ++ [])
      with (c0 :: (k' ++ py ":" ++ ws ++ value ++ [])) at 1.
    rewrite mrep_no_run by exact Hsp. cbn [advance c_rest]. rewrite Hmk.
    erewrite mrep_greedy_run; cycle 1.
    - exact Hkey.
    - left. reflexivity.
    - cbn [List.length]. lia.
    - exact I.
    - cbn [rmatch]. rewrite lit_app. cbn [rmatch c_pos c_prev c_rest].
      eapply mrep_greedy_run.
      + exact Hws.
      + left. destruct value as [|v value]; [contradiction|]. exact Hvs.
      + destruct ws; [contradiction|]. cbn [List.length]. lia.
      + exact I.
      + cbn [rmatch c_pos c_prev c_rest].
        eapply mrep_greedy_run.
        * exact Hnl.
        * now left.
        * destruct value; [contradiction|]. cbn [List.length]. lia.
        * exact I.
        * cbn [rmatch at_eol c_rest c_pos]. reflexivity.
    - eexists. split.
      + apply f_equal. apply f_equal2; [reflexivity|].
        f_equal; [|f_equal].
        * f_equal.
          match goal with |- firstn ?n _ = _ =>
            replace n with (List.length value) by lia end.
          apply firstn_length_app.
        * f_equal.
          match goal with |- firstn ?n _ = _ =>
            replace n with (List.length (c0 :: k')) by lia end.
          apply firstn_length_app.
      + cbn [c_pos List.length py map list_ascii_of_string]. lia. }
  destruct Hm as (c' & Hr & Hpos).
  rewrite app_nil_r in Hr.
  unfold match_at. rewrite Hr. eexists. split; [reflexivity|].
  cbn [m_text c_pos c_rest]. rewrite Hpos, Nat.sub_0_r.
  split.
  - apply firstn_all2. rewrite !length_app.
    cbn [List.length py map list_ascii_of_string]. lia.
  - unfold group_s, group. cbn [m_caps lookup Nat.eqb].
    split; [reflexivity|]. split; reflexivity.
Qed.

Lemma prev_after_last (prev : option char) (a : str) (x : char) :
  prev_after prev (a ++ [x]) = Some x.
Proof.
  rewrite <- prev_after_app. unfold prev_after at 1. reflexivity.
Qed.

(** X15: [convert_fields] turns a line [key: value] into [key::value],
    dropping the whitespace after the colon, when the key has no colon and
    does not start with whitespace or a list marker, the value does not
    start with "[[", and the line holds neither "::" nor "|". *)
Theorem convert_fields_key_value (c0 : char) (k' ws value : str) :
  isspace c0 = false ->
  one_of "-*+" c0 = false ->
  Forall (fun c => c <> ch ":" /\ c <> NL) (c0 :: k') ->
  all_space ws -> ws <> [] ->
  value <> [] -> starts_solid value -> no_nl value ->
  startswith (py "[[") value = false ->
  contains (py "::") ((c0 :: k') ++ py ":" ++ ws ++ value) = false ->
  contains (py "|") ((c0 :: k') ++ py ":" ++ ws ++ value) = false ->
  convert_fields ((c0 :: k') ++ py ":" ++ ws ++ value)
  = Ok ((c0 :: k') ++ py "::" ++ value).
Proof.
  intros Hsp Hmk Hkey Hws Hwne Hvne Hvs Hnl Hbr Hcc Hcp.
  unfold convert_fields. rewrite Hcc, Hcp.
  destruct (field_re_match c0 k' ws value) as (m & Hm & Ht & G1 & G2 & G3);
    try assumption.
  { eapply Forall_impl; [|exact Hkey]. intros c [H1 H2]. unfold is_chr.
    apply N.eqb_neq in H1, H2. now rewrite H1, H2. }
  { eapply Forall_impl; [|exact Hnl]. intros c Hc. unfold not_nl.
    apply N.eqb_neq in Hc. now rewrite Hc. }
  destruct (exists_last Hvne) as (v' & x & Ev).
  assert (Hx : N.eqb x NL = false).
  { apply N.eqb_neq. rewrite Ev in Hnl. apply Forall_app in Hnl.
    destruct Hnl as [_ Hnl]. now inversion Hnl. }
  unfold re_sub, re_sub_st.
  change ((c0 :: k') ++ py ":" ++ ws ++ value)
    with (c0 :: (k' ++ py ":" ++ ws ++ value)) in *.
  remember (k' ++ py ":" ++ ws ++ value) as rest eqn:Er.
  cbn [sub_scan]. rewrite Hm. unfold field_repl at 1.
  rewrite G1, G2, G3, Hbr, Ht. cbn [negb bind fst snd List.length app].
  rewrite sub_scan_skip. cbn [sub_scan].
  assert (Hprev : prev_after (Some c0) rest = Some x).
  { rewrite Er, Ev, !app_assoc. apply prev_after_last. }
  rewrite Hprev.
  unfold match_at, field_re. cbn [seqs fold_right rmatch at_bol c_prev andb].
  rewrite Hx. cbn [bind fst snd]. now rewrite app_nil_r.
Qed.

Lemma convert_fields_key_value_witness :
  convert_fields ((ch "S" :: py "tatus") ++ py ":" ++ py " " ++ py "done")
  = Ok ((ch "S" :: py "tatus") ++ py "::" ++ py "done").
Proof.
  apply (convert_fields_key_value (ch "S") (py "tatus") (py " ") (py "done"));
    try reflexivity; try discriminate.
  - repeat constructor; discriminate.
  - repeat constructor.
  - repeat constructor; discriminate.
Defined.

(** ** Month numbers *)

(** X16: [get_month_number] returns one of the twelve two-digit month
    numbers for every argument; a name that the table does not list, as a
    month in lower case or "Sept", silently gives "01". *)
Theorem get_month_number_range (month : str) :
  In (get_month_number month)
     (map py ["01"; "02"; "03"; "04"; "05"; "06"; "07"; "08"; "09"; "10";
              "11"; "12"]%string)
  /\ (~ In month
        (map py ["January"; "Jan"; "February"; "Feb"; "March"; "Mar";
                 "April"; "Apr"; "May"; "June"; "Jun"; "July"; "Jul";
                 "August"; "Aug"; "September"; "Sep"; "October"; "Oct";
                 "November"; "Nov"; "December"; "Dec"]%string) ->
      get_month_number month = py "01").
Proof.
  assert (Heq : forall a b, str_eqb a b = true -> a = b).
  { induction a as [|x a IH]; destruct b as [|y b]; simpl; try discriminate;
      [reflexivity|].
    intros H. apply andb_true_iff in H. destruct H as [H1 H2].
    apply N.eqb_eq in H1. subst. f_equal. now apply IH. }
  unfold get_month_number. cbn [find fst snd]. split.
  - repeat match goal with
           | |- context [if str_eqb ?a ?b then _ else _] =>
               destruct (str_eqb a b)
           end;
      cbn [map In]; tauto.
  - intros Hn.
    repeat match goal with
           | |- context [if str_eqb ?a ?b then _ else _] =>
               destruct (str_eqb a b) eqn:?
           end;
      try reflexivity;
      exfalso; apply Hn;
      match goal with
      | H : str_eqb _ month = true |- _ => apply Heq in H; rewrite <- H
      end;
      cbn [map In]; tauto.
Qed.

(** ** Texts a pattern cannot match *)

Section Blocked.

Variable ok : char -> bool.

Lemma lit_blocked (s : str) : forall c,
  Exists (fun x => ok x = false) s ->
  Forall (fun x => ok x = true) (c_rest c) ->
  lit s c = None.
Proof.
  induction s as [|x s IH]; intros c Hs Hc; [inversion Hs|].
  cbn [lit]. unfold advance. destruct (c_rest c) as [|y rest] eqn:Er;
    [reflexivity|].
  inversion Hc as [|? ? Hy Hrest]; subst. unfold is_chr.
  destruct (N.eqb_spec y x) as [->|Hne]; [|reflexivity].
  inversion Hs as [? ? Hx|? ? Hs']; subst; [congruence|].
  apply IH; assumption.
Qed.

Lemma mrep_blocked {R} (p : char -> bool) (greedy : bool) (lo : nat)
    (hi : option nat) (pos : nat) (prev : option char) (rest : str)
    (k : cur -> option R) :
  1 <= lo -> (forall c, ok c = true -> p c = false) ->
  Forall (fun x => ok x = true) rest ->
  mrep p greedy lo hi pos prev rest k = None.
Proof.
  intros Hlo Hp Hr. destruct lo as [|lo]; [lia|].
  destruct rest as [|x rest]; cbn [mrep]; [now destruct greedy|].
  inversion Hr; subst. rewrite Hp by assumption. now destruct greedy.
Qed.

Lemma rmatch_blocked {R} (r : re) : forall (c : cur) (g : caps)
    (k : cur -> caps -> option R),
  blocked ok r ->
  Forall (fun x => ok x = true) (c_rest c) ->
  caps_all (Forall (fun x => ok x = true)) g ->
  rmatch r c g k = None.
Proof.
  induction r as [|p|s|p lo hi greedy|a IHa b IHb|a IHa b IHb|a IHa|n a IHa
                 |a IHa|ml|ml]; intros c g k Hb Hc Hg; cbn [blocked] in Hb;
    try contradiction; cbn [rmatch].
  - unfold advance. destruct (c_rest c) as [|x rest]; [reflexivity|].
    inversion Hc; subst. now rewrite Hb.
  - now rewrite lit_blocked.
  - destruct Hb as [Hlo Hp]. now apply mrep_blocked.
  - destruct Hb as [Ha|Hb]; [now apply IHa|].
    destruct (rmatch a c g (fun c' g' => rmatch b c' g' k)) as [res|] eqn:E;
      [|reflexivity].
    apply (rmatch_reach (fun x => ok x = true)) in E; [|exact Hc|exact Hg].
    destruct E as (c' & g' & E & Hc' & Hg').
    rewrite IHb in E by assumption. discriminate.
  - destruct Hb as [Ha Hb]. rewrite IHa by assumption. now apply IHb.
  - now apply IHa.
Qed.

Lemma match_at_blocked (r : re) (c : cur) :
  blocked ok r -> Forall (fun x => ok x = true) (c_rest c) ->
  match_at r c = None.
Proof.
  intros Hb Hc. unfold match_at. rewrite rmatch_blocked; auto. constructor.
Qed.

(** The substitution loop leaves a text the pattern cannot match as it
    is. *)
Lemma sub_scan_blocked {St} (r : re) (repl : St -> mobj -> result (str * St))
    (st : St) (rest : str) : forall pos prev,
  blocked ok r -> Forall (fun x => ok x = true) rest ->
  sub_scan r repl st pos prev rest 0 = Ok (rest, st).
Proof.
  induction rest as [|x rest IH]; intros pos prev Hb Hr; cbn [sub_scan].
  - now rewrite match_at_blocked.
  - rewrite match_at_blocked by assumption. inversion Hr; subst.
    now rewrite IH.
Qed.

Lemma re_sub_st_blocked {St} (r : re) (repl : St -> mobj -> result (str * St))
    (st : St) (s : str) :
  blocked ok r -> Forall (fun x => ok x = true) s ->
  re_sub_st r repl st s = Ok (s, st).
Proof. intros. unfold re_sub_st. now apply sub_scan_blocked. Qed.

Lemma re_sub_blocked (r : re) (repl : mobj -> result str) (s : str) :
  blocked ok r -> Forall (fun x => ok x = true) s ->
  re_sub r repl s = Ok s.
Proof. intros. unfold re_sub. now rewrite re_sub_st_blocked. Qed.

End Blocked.

Lemma blocked_weaken (ok1 ok2 : char -> bool) (r : re) :
  (forall c, ok1 c = true -> ok2 c = true) ->
  blocked ok2 r -> blocked ok1 r.
Proof.
  intros Hw. induction r; cbn [blocked]; try tauto.
  - intros H c Hc. auto.
  - intros H. apply Exists_exists in H. destruct H as (x & Hi & Hx).
    apply Exists_exists. exists x. split; [exact Hi|].
    destruct (ok1 x) eqn:E; [|reflexivity]. apply Hw in E. congruence.
  - intros [Hlo H]. split; [exact Hlo|]. intros c Hc. auto.
Qed.

Lemma plain_quiet (c : char) : plain_char c = true -> quiet_char c = true.
Proof. unfold plain_char. intros H. now apply andb_true_iff in H. Qed.

Lemma quiet_not_digit (c : char) : quiet_char c = true -> isdigit c = false.
Proof.
  unfold quiet_char. intros H. apply negb_true_iff in H.
  now apply orb_false_iff in H.
Qed.

Lemma Exists_not_ok (ok : char -> bool) (s : str) (x : char) :
  In x s -> ok x = false -> Exists (fun y => ok y = false) s.
Proof. intros Hi Hx. apply Exists_exists. now exists x. Qed.

Ltac not_ok x :=
  apply (Exists_not_ok _ _ x); [cbn; tauto|reflexivity].

(** The patterns a text of quiet characters cannot match. *)
Lemma blocked_protect : blocked quiet_char protect_re.
Proof.
  unfold protect_re, bracket_ref, L. cbn [alts seqs fold_right blocked].
  split; [left; not_ok (ch "[")|].
  split; [right; right; left; not_ok (ch ":")|].
  left. not_ok (ch "[").
Qed.

Lemma blocked_restore : blocked quiet_char restore_re.
Proof.
  unfold restore_re, plus, L. cbn [seqs fold_right blocked]. right. left.
  split; [lia|]. apply quiet_not_digit.
Qed.

Lemma blocked_dates : blocked quiet_char date_pattern.
Proof.
  pose proof quiet_not_digit as D.
  assert (H1 : 1 <= 1) by lia. assert (H4 : 1 <= 4) by lia.
  assert (Hb : Exists (fun x => quiet_char x = false) (py "[["))
    by not_ok (ch "[").
  unfold date_pattern, iso_span, bracket_ref, d12, d2, d4, rng, exactly, L.
  cbn [alts seqs fold_right blocked]. tauto.
Qed.

Lemma blocked_field : blocked quiet_char field_re.
Proof.
  unfold field_re, L. cbn [seqs fold_right blocked].
  right. right. right. left. not_ok (ch ":").
Qed.

Lemma blocked_quiet_inline :
  blocked quiet_char highlight_re /\ blocked quiet_char image_re
  /\ blocked quiet_char link_re /\ blocked quiet_char tag_re.
Proof.
  unfold highlight_re, image_re, link_re, tag_re, L.
  cbn [seqs fold_right blocked].
  repeat split; left.
  - not_ok (ch "=").
  - not_ok (ch "[").
  - not_ok (ch "[").
  - not_ok (ch "(").
Qed.

Lemma blocked_emphasis :
  blocked plain_char bold_re /\ blocked plain_char italic_re.
Proof.
  unfold bold_re, italic_re, L. cbn [seqs fold_right blocked].
  split; left; not_ok (ch "*").
Qed.

(** The three passes over a text of quiet characters. *)
Lemma convert_fields_quiet (t : str) :
  Forall (fun c => quiet_char c = true) t -> convert_fields t = Ok t.
Proof.
  intros H. unfold convert_fields.
  destruct (contains (py "::") t); [reflexivity|].
  destruct (contains (py "|") t); [reflexivity|].
  apply (re_sub_blocked quiet_char); [apply blocked_field|exact H].
Qed.

Lemma convert_dates_quiet (t : str) :
  Forall (fun c => quiet_char c = true) t -> convert_dates t = Ok t.
Proof.
  intros H. unfold convert_dates.
  rewrite (re_sub_st_blocked quiet_char) by (apply blocked_protect || exact H).
  cbn [bind fst snd].
  rewrite (re_sub_blocked quiet_char) by (apply blocked_dates || exact H).
  cbn [bind].
  apply (re_sub_blocked quiet_char); [apply blocked_restore|exact H].
Qed.

(** The passes of [process_inline_formatting] after the highlight one, and
    after the italic one, on a text of quiet characters. *)
Lemma inline_after_highlight (items : list str) (t : str) :
  Forall (fun c => quiet_char c = true) t ->
  (t4 <- re_sub image_re image_repl t ;;
   t5 <- re_sub link_re
           (fun m => Ok (group_s m 1 ++ py " " ++ group_s m 2)) t4 ;;
   t6 <- re_sub tag_re tag_repl t5 ;;
   re_sub restore_re (restore_repl items) t6) = Ok t.
Proof.
  intros H. destruct blocked_quiet_inline as (_ & B4 & B5 & B6).
  rewrite (re_sub_blocked quiet_char) by assumption. cbn [bind].
  rewrite (re_sub_blocked quiet_char) by assumption. cbn [bind].
  rewrite (re_sub_blocked quiet_char) by assumption. cbn [bind].
  apply (re_sub_blocked quiet_char); [apply blocked_restore|exact H].
Qed.

Lemma inline_tail_quiet (items : list str) (t : str) :
  Forall (fun c => quiet_char c = true) t ->
  (t3 <- re_sub highlight_re
           (fun m => Ok (py "^^" ++ group_s m 1 ++ py "^^")) t ;;
   t4 <- re_sub image_re image_repl t3 ;;
   t5 <- re_sub link_re
           (fun m => Ok (group_s m 1 ++ py " " ++ group_s m 2)) t4 ;;
   t6 <- re_sub tag_re tag_repl t5 ;;
   re_sub restore_re (restore_repl items) t6) = Ok t.
Proof.
  intros H. destruct blocked_quiet_inline as (B3 & _).
  rewrite (re_sub_blocked quiet_char) by assumption. cbn [bind].
  now apply inline_after_highlight.
Qed.

Lemma Forall_plain_quiet (t : str) :
  Forall (fun c => plain_char c = true) t ->
  Forall (fun c => quiet_char c = true) t.
Proof. apply Forall_impl. exact plain_quiet. Qed.

Lemma inline_plain (t : str) :
  Forall (fun c => plain_char c = true) t ->
  process_inline_formatting t = Ok t.
Proof.
  intros H. pose proof (Forall_plain_quiet t H) as Hq.
  unfold process_inline_formatting.
  destruct blocked_emphasis as (B1 & B2).
  rewrite (re_sub_st_blocked quiet_char) by (apply blocked_protect || exact Hq).
  cbn [bind fst snd].
  rewrite (re_sub_blocked plain_char) by assumption. cbn [bind].
  rewrite (re_sub_blocked plain_char) by assumption. cbn [bind].
  now apply inline_tail_quiet.
Qed.

(** A pattern anchored at the start of the text matches nowhere else. *)
Lemma sub_scan_anchored {St} (r : re) (repl : St -> mobj -> result (str * St))
    (st : St) (rest : str) : forall pos p,
  sub_scan (Seq (Bol false) r) repl st pos (Some p) rest 0 = Ok (rest, st).
Proof.
  induction rest as [|x rest IH]; intros pos p; cbn [sub_scan];
    unfold match_at; cbn [rmatch at_bol c_prev andb]; [reflexivity|].
  now rewrite IH.
Qed.

Lemma list_marker_none (t : str) :
  match t with x :: _ => one_of "-*+" x = false | [] => True end ->
  re_sub list_marker_re (fun _ => Ok []) t = Ok t.
Proof.
  intros H. unfold re_sub, re_sub_st, list_marker_re.
  cbn [seqs fold_right]. destruct t as [|x t]; [reflexivity|].
  cbn [sub_scan]. unfold match_at at 1.
  cbn [rmatch at_bol c_prev advance c_rest]. rewrite H.
  now rewrite sub_scan_anchored.
Qed.

Lemma process_content_plain (l : Line) (t : str) :
  is_header l = false ->
  Forall (fun c => plain_char c = true) t ->
  match t with x :: _ => one_of "-*+" x = false | [] => True end ->
  process_content l t = Ok t.
Proof.
  intros Hh Ht Hm. unfold process_content. rewrite Hh.
  rewrite (list_marker_none t Hm). cbn [bind].
  rewrite (convert_fields_quiet t (Forall_plain_quiet t Ht)). cbn [bind].
  rewrite (convert_dates_quiet t (Forall_plain_quiet t Ht)). cbn [bind].
  now apply inline_plain.
Qed.

Lemma prev_after_some (prev : option char) (a : str) :
  a <> [] -> exists p, prev_after prev a = Some p.
Proof.
  intros H. destruct (exists_last H) as (a' & x & ->). exists x.
  rewrite <- prev_after_app. reflexivity.
Qed.

(** The list marker at the start of an item is removed. *)
Lemma list_marker_removed (m : char) (ws body : str) :
  one_of "-*+" m = true ->
  all_space ws -> ws <> [] ->
  starts_solid body ->
  match body with x :: _ => x <> ch "[" | [] => True end ->
  re_sub list_marker_re (fun _ => Ok []) (m :: ws ++ body) = Ok body.
Proof.
  intros Hm Hws Hne Hs Hb.
  assert (Hmatch : match_at list_marker_re (Cur 0 None (m :: ws ++ body))
                   = Some (Mobj 0 (m :: ws) [] 0)).
  { unfold match_at, list_marker_re, ws1, plus, L.
    cbn [seqs fold_right rmatch at_bol c_prev advance c_rest c_pos].
    rewrite Hm. cbn [c_rest c_pos c_prev].
    erewrite mrep_greedy_run; cycle 1.
    - exact Hws.
    - left. destruct body as [|x body]; [exact I|exact Hs].
    - destruct ws; [contradiction|]. cbn [List.length]. lia.
    - exact I.
    - assert (Hl : lit (py "[")
                     (Cur (1 + List.length ws) (prev_after (Some m) ws) body)
                   = None).
      { destruct body as [|x body]; [reflexivity|].
        cbn [lit py map list_ascii_of_string advance c_rest]. unfold is_chr.
        apply N.eqb_neq in Hb. fold (ch "["). now rewrite Hb. }
      rewrite Hl. reflexivity.
    - cbn [c_pos c_rest ngroups Nat.add]. f_equal. f_equal.
      rewrite Nat.sub_0_r.
      change (m :: ws ++ body) with ((m :: ws) ++ body).
      change (S (List.length ws)) with (List.length (m :: ws)).
      apply firstn_length_app. }
  unfold re_sub, re_sub_st. cbn [sub_scan]. rewrite Hmatch.
  cbn [bind fst snd m_text List.length app]. rewrite sub_scan_skip_app.
  destruct (prev_after_some (Some m) ws Hne) as (p & ->).
  unfold list_marker_re. cbn [seqs fold_right].
  rewrite sub_scan_anchored. reflexivity.
Qed.

Lemma process_content_item (l : Line) (m : char) (ws body : str) :
  is_header l = false ->
  one_of "-*+" m = true ->
  all_space ws -> ws <> [] ->
  starts_solid body ->
  Forall (fun c => plain_char c = true) body ->
  process_content l (m :: ws ++ body) = Ok body.
Proof.
  intros Hh Hm Hws Hne Hs Hb. unfold process_content. rewrite Hh.
  rewrite list_marker_removed; try assumption.
  - cbn [bind].
    rewrite (convert_fields_quiet body (Forall_plain_quiet body Hb)).
    cbn [bind].
    rewrite (convert_dates_quiet body (Forall_plain_quiet body Hb)).
    cbn [bind]. now apply inline_plain.
  - destruct body as [|x body]; [exact I|]. inversion Hb; subst.
    intros ->. discriminate.
Qed.

(** The node of a list item or paragraph line outside a code block holds
    the processed content of the line. *)
Lemma plain_node (input : str) (pre : list str) (line : str) (post : list str)
    (nodes : list (nat * node)) :
  split_nl input = pre ++ line :: post ->
  convert_nodes input = Ok nodes ->
  fence_open (parsed pre) = false ->
  plainb (parse_line line) = true ->
  exists d t,
    process_content (parse_line line) (content (parse_line line)) = Ok t
    /\ forall n, In (List.length pre, n) nodes <-> n = mkNode d t.
Proof.
  intros Hs H Hf Hp.
  destruct (convert_at _ _ _ _ _ Hs H)
    as (bst & ha & stl & l' & hb & est & est' & on & B1 & B2 & B3 & F1 & F2 & F3).
  apply bh_loop_inv in B1. destruct B1 as (I1 & _).
  destruct (bh_step_cases _ _ _ _ _ I1 B2) as (_ & Sh & _).
  destruct (plainb_fields _ Hp) as (Hn & Hc & Hh).
  rewrite Hf in F1.
  assert (Hn' : nonblankb l' = true).
  { rewrite (shape_nonblankb _ _ Sh). unfold nonblankb.
    now destruct (strip (content (parse_line line))). }
  assert (Hc' : is_code_block l' = false)
    by (destruct Sh as [p ->]; exact Hc).
  destruct (emit_step_plain _ _ _ _ _ F1 Hn' Hc' F2) as (d & t & _ & Pt & ->).
  rewrite (process_content_shape _ _ _ Sh) in Pt.
  assert (Ec : strip (content l') = content (parse_line line)).
  { destruct Sh as [p ->]. cbn [content set_parent].
    apply content_stripped. }
  rewrite Ec in Pt. exists d, t. split; [exact Pt|].
  intros n. rewrite F3. split; [now intros [= <-]|now intros ->].
Qed.

(** X17: a paragraph line of plain text (no digit, none of the characters
    [[] [*] [=] [(] [:], and no list marker at its start) outside a code
    block gives one node whose text is the content of the line, without the
    whitespace around it. *)
Theorem plain_line_node (input : str) (pre : list str) (line : str)
    (post : list str) (nodes : list (nat * node)) :
  split_nl input = pre ++ line :: post ->
  convert_nodes input = Ok nodes ->
  fence_open (parsed pre) = false ->
  plainb (parse_line line) = true ->
  Forall (fun c => plain_char c = true) (content (parse_line line)) ->
  match content (parse_line line) with
  | x :: _ => one_of "-*+" x = false
  | [] => True
  end ->
  exists d, forall n,
    In (List.length pre, n) nodes
    <-> n = mkNode d (content (parse_line line)).
Proof.
  intros Hs H Hf Hp Hc Hm.
  destruct (plain_node _ _ _ _ _ Hs H Hf Hp) as (d & t & Pt & Hn).
  destruct (plainb_fields _ Hp) as (_ & _ & Hh).
  rewrite (process_content_plain _ _ Hh Hc Hm) in Pt. apply Ok_inj in Pt.
  subst t. now exists d.
Qed.

(** X18: a list item outside a code block, a marker [-], [*] or [+],
    whitespace and a plain text, gives one node whose text is the text of
    the item without the marker. *)
Theorem list_item_node (input : str) (pre : list str) (line : str)
    (post : list str) (nodes : list (nat * node)) (m : char) (ws body : str) :
  split_nl input = pre ++ line :: post ->
  convert_nodes input = Ok nodes ->
  fence_open (parsed pre) = false ->
  content (parse_line line) = m :: ws ++ body ->
  one_of "-*+" m = true ->
  all_space ws -> ws <> [] ->
  starts_solid body ->
  Forall (fun c => plain_char c = true) body ->
  exists d, forall n, In (List.length pre, n) nodes <-> n = mkNode d body.
Proof.
  intros Hs H Hf Ec Hm Hws Hne Hsol Hb.
  pose proof (content_stripped line) as Hstrip.
  assert (Hp : plainb (parse_line line) = true).
  { unfold plainb, nonblankb. rewrite Hstrip.
    rewrite parse_line_eq in *. cbn [content is_header is_code_block] in *.
    rewrite Ec. cbn [startswith py map list_ascii_of_string].
    assert (Hx : forall x, one_of "-*+" x = false -> char_eqb x m = false).
    { intros x Hx. unfold char_eqb. destruct (N.eqb_spec x m) as [->|];
        [congruence|reflexivity]. }
    rewrite !Hx by reflexivity. reflexivity. }
  destruct (plain_node _ _ _ _ _ Hs H Hf Hp) as (d & t & Pt & Hn).
  destruct (plainb_fields _ Hp) as (_ & _ & Hh).
  rewrite Ec, (process_content_item _ m ws body Hh Hm Hws Hne Hsol Hb) in Pt.
  apply Ok_inj in Pt. subst t. now exists d.
Qed.


(** ** Matching a span *)

Lemma plain_not_star (c : char) :
  plain_char c = true -> none_of "*" c = true.
Proof.
  unfold plain_char, none_of, one_of, is_chr, char_eqb. intros H.
  apply andb_true_iff in H. destruct H as [_ H]. cbn [existsb py map
    list_ascii_of_string]. rewrite orb_false_r. exact H.
Qed.

Lemma star_run (w : str) :
  Forall (fun c => plain_char c = true) w ->
  Forall (fun c => none_of "*" c = true) w.
Proof. apply Forall_impl. exact plain_not_star. Qed.

(** The bold pattern matches [**w**]. *)
Lemma bold_match (w rest : str) (pos : nat) (prev : option char) :
  w <> [] -> Forall (fun c => plain_char c = true) w ->
  match_at bold_re (Cur pos prev (py "**" ++ w ++ py "**" ++ rest))
  = Some (Mobj pos (py "**" ++ w ++ py "**") [(1, w)] 1).
Proof.
  intros Hne Hw. unfold match_at, bold_re, plus, L.
  cbn [seqs fold_right rmatch]. rewrite lit_app.
  cbn [c_pos c_prev c_rest].
  erewrite mrep_greedy_run; cycle 1.
  - now apply star_run.
  - left. reflexivity.
  - destruct w; [contradiction|]. cbn [List.length]. lia.
  - exact I.
  - cbn [rmatch]. rewrite lit_app. reflexivity.
  - cbn [c_pos c_rest ngroups seqs fold_right]. f_equal. f_equal.
    + match goal with |- firstn ?n _ = _ =>
        replace n with (List.length (py "**" ++ w ++ py "**"))
          by (rewrite !length_app;
              cbn [List.length py map list_ascii_of_string]; lia) end.
      rewrite !app_assoc. rewrite <- (app_assoc (py "**") w (py "**")).
      apply firstn_length_app.
    + f_equal. f_equal.
      match goal with |- firstn ?n _ = _ =>
        replace n with (List.length w)
          by (cbn [List.length py map list_ascii_of_string]; lia) end.
      apply firstn_length_app.
Qed.

(** The italic pattern matches [*w*]. *)
Lemma italic_match (w rest : str) (pos : nat) (prev : option char) :
  w <> [] -> Forall (fun c => plain_char c = true) w ->
  match_at italic_re (Cur pos prev (py "*" ++ w ++ py "*" ++ rest))
  = Some (Mobj pos (py "*" ++ w ++ py "*") [(1, w)] 1).
Proof.
  intros Hne Hw. unfold match_at, italic_re, plus, L.
  cbn [seqs fold_right rmatch]. rewrite lit_app.
  cbn [c_pos c_prev c_rest].
  erewrite mrep_greedy_run; cycle 1.
  - now apply star_run.
  - left. reflexivity.
  - destruct w; [contradiction|]. cbn [List.length]. lia.
  - exact I.
  - cbn [rmatch]. rewrite lit_app. reflexivity.
  - cbn [c_pos c_rest ngroups seqs fold_right]. f_equal. f_equal.
    + match goal with |- firstn ?n _ = _ =>
        replace n with (List.length (py "*" ++ w ++ py "*"))
          by (rewrite !length_app;
              cbn [List.length py map list_ascii_of_string]; lia) end.
      rewrite !app_assoc. rewrite <- (app_assoc (py "*") w (py "*")).
      apply firstn_length_app.
    + f_equal. f_equal.
      match goal with |- firstn ?n _ = _ =>
        replace n with (List.length w)
          by (cbn [List.length py map list_ascii_of_string]; lia) end.
      apply firstn_length_app.
Qed.

(** A pattern that starts with a literal matches only at its first
    character. *)
Lemma match_at_first (c : char) (s : str) (r : re) (x : char) (rest : str)
    (pos : nat) (prev : option char) :
  x <> c ->
  match_at (Seq (Lit (c :: s)) r) (Cur pos prev (x :: rest)) = None.
Proof.
  intros H. unfold match_at. cbn [rmatch lit advance c_rest]. unfold is_chr.
  apply N.eqb_neq in H. now rewrite H.
Qed.

Lemma match_at_second (c d : char) (s : str) (r : re) (x : char) (rest : str)
    (pos : nat) (prev : option char) :
  x <> d ->
  match_at (Seq (Lit (c :: d :: s)) r) (Cur pos prev (c :: x :: rest)) = None.
Proof.
  intros H. apply N.eqb_neq in H. unfold match_at. cbn [rmatch].
  cbn [lit advance c_rest]. unfold is_chr at 1. rewrite N.eqb_refl.
  cbn [advance c_rest]. unfold is_chr at 1. now rewrite H.
Qed.

Lemma plain_neq_star (x : char) : plain_char x = true -> x <> ch "*".
Proof. intros H ->. discriminate. Qed.

(** ** Spans of inline markup within plain text *)

(** One span that the pattern matches, between a text where it matches at
    no character and a text it cannot match. *)
Lemma re_sub_span (ok : char -> bool) (r : re) (repl : mobj -> result str)
    (pre span post out : str) :
  (forall x rest pos prev,
      In x pre -> match_at r (Cur pos prev (x :: rest)) = None) ->
  span <> [] ->
  (forall pos prev, exists m,
      match_at r (Cur pos prev (span ++ post)) = Some m
      /\ m_text m = span /\ repl m = Ok out) ->
  blocked ok r -> Forall (fun x => ok x = true) post ->
  re_sub r repl (pre ++ span ++ post) = Ok (pre ++ out ++ post).
Proof.
  intros Hpre Hne Hm Hb Hpost. unfold re_sub, re_sub_st.
  rewrite sub_scan_pass by exact Hpre.
  destruct (Hm (0 + List.length pre) (prev_after None pre))
    as (m & Em & Et & Er).
  erewrite sub_scan_match; cycle 1.
  - exact Hne.
  - exact Em.
  - exact Et.
  - rewrite Er. cbn [bind]. reflexivity.
  - rewrite (sub_scan_blocked ok) by assumption. reflexivity.
Qed.

(** The same when the pattern does not match at all. *)
Lemma re_sub_pass (ok : char -> bool) (r : re) (repl : mobj -> result str)
    (pre post : str) :
  (forall x rest pos prev,
      In x pre -> match_at r (Cur pos prev (x :: rest)) = None) ->
  blocked ok r -> Forall (fun x => ok x = true) post ->
  re_sub r repl (pre ++ post) = Ok (pre ++ post).
Proof.
  intros Hpre Hb Hpost. unfold re_sub, re_sub_st.
  rewrite sub_scan_pass by exact Hpre.
  rewrite (sub_scan_blocked ok) by assumption. reflexivity.
Qed.

Lemma ok_none_of (ok : char -> bool) (s : string) (c : char) :
  ok c = true ->
  forallb (fun x => negb (ok x)) (py s) = true ->
  none_of s c = true.
Proof.
  intros Hc Hs. unfold none_of, one_of. apply negb_true_iff.
  destruct (existsb (char_eqb c) (py s)) eqn:E; [|reflexivity].
  apply existsb_exists in E. destruct E as (x & Hi & Hx).
  apply N.eqb_eq in Hx. subst x.
  rewrite forallb_forall in Hs. apply Hs in Hi. rewrite Hc in Hi.
  discriminate.
Qed.

(** Plain text holds none of the characters of the inline markup. *)
Lemma plain_none_of (s : string) (t : str) :
  forallb (fun x => negb (plain_char x)) (py s) = true ->
  Forall (fun c => plain_char c = true) t ->
  Forall (fun c => none_of s c = true) t.
Proof.
  intros Hs. apply Forall_impl. intros c Hc.
  now apply (ok_none_of plain_char).
Qed.

Lemma blocked_protect_loose : blocked (none_of "[:") protect_re.
Proof.
  unfold protect_re, bracket_ref, L. cbn [alts seqs fold_right blocked].
  split; [left; not_ok (ch "[")|].
  split; [right; right; left; not_ok (ch ":")|].
  left. not_ok (ch "[").
Qed.

Lemma blocked_stars :
  blocked (none_of "*") bold_re /\ blocked (none_of "*") italic_re.
Proof.
  unfold bold_re, italic_re, L. cbn [seqs fold_right blocked].
  split; left; not_ok (ch "*").
Qed.

Lemma blocked_highlight : blocked (none_of "=") highlight_re.
Proof.
  unfold highlight_re, L. cbn [seqs fold_right blocked].
  left; not_ok (ch "=").
Qed.

Lemma blocked_brackets :
  blocked (none_of "[") image_re /\ blocked (none_of "[") link_re.
Proof.
  unfold image_re, link_re, L. cbn [seqs fold_right blocked].
  split; left; not_ok (ch "[").
Qed.

(** The highlight pattern matches [==w==]. *)
Lemma highlight_match (w rest : str) (pos : nat) (prev : option char) :
  w <> [] -> Forall (fun c => plain_char c = true) w ->
  match_at highlight_re (Cur pos prev (py "==" ++ w ++ py "==" ++ rest))
  = Some (Mobj pos (py "==" ++ w ++ py "==") [(1, w)] 1).
Proof.
  intros Hne Hw. unfold match_at, highlight_re, plus, L.
  cbn [seqs fold_right rmatch]. rewrite lit_app.
  cbn [c_pos c_prev c_rest].
  erewrite mrep_greedy_run; cycle 1.
  - now apply (plain_none_of "=").
  - left. reflexivity.
  - destruct w; [contradiction|]. cbn [List.length]. lia.
  - exact I.
  - cbn [rmatch]. rewrite lit_app. reflexivity.
  - cbn [c_pos c_rest ngroups seqs fold_right]. f_equal. f_equal.
    + match goal with |- firstn ?n _ = _ =>
        replace n with (List.length (py "==" ++ w ++ py "=="))
          by (rewrite !length_app;
              cbn [List.length py map list_ascii_of_string]; lia) end.
      rewrite !app_assoc. rewrite <- (app_assoc (py "==") w (py "==")).
      apply firstn_length_app.
    + f_equal. f_equal.
      match goal with |- firstn ?n _ = _ =>
        replace n with (List.length w)
          by (cbn [List.length py map list_ascii_of_string]; lia) end.
      apply firstn_length_app.
Qed.

Ltac pieces :=
  repeat (apply Forall_app; split);
  first [ assumption
        | apply plain_none_of; [reflexivity|assumption]
        | apply Forall_plain_quiet; assumption
        | repeat constructor ].

(** X21: a highlighted span [==w==] within plain text becomes [^^w^^]; the
    text around it is left as it is. *)
Theorem highlight_converted (pre w post : str) :
  Forall (fun c => plain_char c = true) pre ->
  w <> [] -> Forall (fun c => plain_char c = true) w ->
  Forall (fun c => plain_char c = true) post ->
  process_inline_formatting (pre ++ py "==" ++ w ++ py "==" ++ post)
  = Ok (pre ++ py "^^" ++ w ++ py "^^" ++ post).
Proof.
  intros Hpre Hne Hw Hpost. unfold process_inline_formatting.
  destruct blocked_stars as (B1 & B2).
  rewrite (re_sub_st_blocked (none_of "[:"));
    [|apply blocked_protect_loose|pieces].
  cbn [bind fst snd].
  rewrite (re_sub_blocked (none_of "*")); [|exact B1|pieces]. cbn [bind].
  rewrite (re_sub_blocked (none_of "*")); [|exact B2|pieces]. cbn [bind].
  replace (pre ++ py "==" ++ w ++ py "==" ++ post)
    with (pre ++ (py "==" ++ w ++ py "==") ++ post)
    by now rewrite <- !app_assoc.
  rewrite (re_sub_span (none_of "=") highlight_re _ pre
             (py "==" ++ w ++ py "==") post (py "^^" ++ w ++ py "^^")).
  - cbn [bind]. rewrite <- !app_assoc.
    apply inline_after_highlight. pieces.
  - intros x rest pos prev Hx. unfold highlight_re, L.
    cbn [seqs fold_right py map list_ascii_of_string].
    apply match_at_first. intros ->.
    rewrite Forall_forall in Hpre. apply Hpre in Hx. discriminate.
  - discriminate.
  - intros pos prev. eexists. split; [|split].
    + rewrite <- !app_assoc. apply highlight_match; assumption.
    + reflexivity.
    + reflexivity.
  - apply blocked_highlight.
  - pieces.
Qed.

Lemma highlight_converted_witness :
  process_inline_formatting
    (py "a " ++ py "==" ++ py "key" ++ py "==" ++ py " b")
  = Ok (py "a " ++ py "^^" ++ py "key" ++ py "^^" ++ py " b").
Proof.
  apply (highlight_converted (py "a ") (py "key") (py " b")).
  - repeat constructor.
  - discriminate.
  - repeat constructor.
  - repeat constructor.
Defined.

Lemma blocked_restore_digits :
  blocked (fun c => negb (isdigit c)) restore_re.
Proof.
  unfold restore_re, plus, L. cbn [seqs fold_right blocked]. right. left.
  split; [lia|]. intros c Hc. now apply negb_true_iff in Hc.
Qed.

Lemma plain_no_digit (t : str) :
  Forall (fun c => plain_char c = true) t ->
  Forall (fun c => negb (isdigit c) = true) t.
Proof.
  apply Forall_impl. intros c Hc. apply negb_true_iff.
  now apply quiet_not_digit, plain_quiet.
Qed.

Ltac pieces' :=
  repeat (apply Forall_app; split);
  first [ assumption
        | apply plain_none_of; [reflexivity|assumption]
        | apply Forall_plain_quiet; assumption
        | apply plain_no_digit; assumption
        | repeat constructor ].

(** The tag pattern matches [(w)]. *)
Lemma tag_match (w rest : str) (pos : nat) (prev : option char) :
  w <> [] -> Forall (fun c => none_of ")" c = true) w ->
  match_at tag_re (Cur pos prev (py "(" ++ w ++ py ")" ++ rest))
  = Some (Mobj pos (py "(" ++ w ++ py ")") [(1, w)] 1).
Proof.
  intros Hne Hw. unfold match_at, tag_re, plus, L.
  cbn [seqs fold_right rmatch]. rewrite lit_app.
  cbn [c_pos c_prev c_rest].
  erewrite mrep_greedy_run; cycle 1.
  - exact Hw.
  - left. reflexivity.
  - destruct w; [contradiction|]. cbn [List.length]. lia.
  - exact I.
  - cbn [rmatch]. rewrite lit_app. reflexivity.
  - cbn [c_pos c_rest ngroups seqs fold_right]. f_equal. f_equal.
    + match goal with |- firstn ?n _ = _ =>
        replace n with (List.length (py "(" ++ w ++ py ")"))
          by (rewrite !length_app;
              cbn [List.length py map list_ascii_of_string]; lia) end.
      rewrite !app_assoc. rewrite <- (app_assoc (py "(") w (py ")")).
      apply firstn_length_app.
    + f_equal. f_equal.
      match goal with |- firstn ?n _ = _ =>
        replace n with (List.length w)
          by (cbn [List.length py map list_ascii_of_string]; lia) end.
      apply firstn_length_app.
Qed.

(** X22: a parenthesis [(w)] within plain text becomes a tag: [#w] when [w]
    has no space, [#[[w]]] when it has one; the text around it is left as
    it is. *)
Theorem parenthesis_becomes_tag (pre w post : str) :
  Forall (fun c => plain_char c = true) pre ->
  w <> [] -> Forall (fun c => plain_char c = true) w ->
  Forall (fun c => none_of ")" c = true) w ->
  Forall (fun c => plain_char c = true) post ->
  process_inline_formatting (pre ++ py "(" ++ w ++ py ")" ++ post)
  = Ok (pre ++ (if contains (py " ") w then py "#[[" ++ w ++ py "]]"
                else py "#" ++ w) ++ post).
Proof.
  intros Hpre Hne Hw Hclose Hpost. unfold process_inline_formatting.
  destruct blocked_stars as (B1 & B2).
  destruct blocked_brackets as (B4 & B5).
  rewrite (re_sub_st_blocked (none_of "[:"));
    [|apply blocked_protect_loose|pieces'].
  cbn [bind fst snd].
  rewrite (re_sub_blocked (none_of "*")); [|exact B1|pieces']. cbn [bind].
  rewrite (re_sub_blocked (none_of "*")); [|exact B2|pieces']. cbn [bind].
  rewrite (re_sub_blocked (none_of "="));
    [|apply blocked_highlight|pieces']. cbn [bind].
  rewrite (re_sub_blocked (none_of "[")); [|exact B4|pieces']. cbn [bind].
  rewrite (re_sub_blocked (none_of "[")); [|exact B5|pieces']. cbn [bind].
  replace (pre ++ py "(" ++ w ++ py ")" ++ post)
    with (pre ++ (py "(" ++ w ++ py ")") ++ post)
    by now rewrite <- !app_assoc.
  rewrite (re_sub_span quiet_char tag_re _ pre (py "(" ++ w ++ py ")") post
             (if contains (py " ") w then py "#[[" ++ w ++ py "]]"
              else py "#" ++ w)).
  - cbn [bind].
    apply (re_sub_blocked (fun c => negb (isdigit c)));
      [apply blocked_restore_digits|].
    destruct (contains (py " ") w); pieces'.
  - intros x rest pos prev Hx. unfold tag_re, L.
    cbn [seqs fold_right py map list_ascii_of_string].
    apply match_at_first. intros ->.
    rewrite Forall_forall in Hpre. apply Hpre in Hx. discriminate.
  - discriminate.
  - intros pos prev. eexists. split; [|split].
    + rewrite <- !app_assoc. apply tag_match; assumption.
    + reflexivity.
    + unfold tag_repl, group_s, group. cbn [m_caps lookup Nat.eqb].
      destruct (contains (py " ") w); [reflexivity|].
      destruct w as [|w0 w]; [contradiction|]. inversion Hw; subst.
      assert (H0 : char_eqb (ch "[") w0 = false).
      { unfold char_eqb. apply N.eqb_neq. intros <-. discriminate. }
      cbn [startswith py map list_ascii_of_string]. fold (ch "[").
      now rewrite H0.
  - destruct blocked_quiet_inline as (_ & _ & _ & B6). exact B6.
  - pieces'.
Qed.

Lemma parenthesis_becomes_tag_witness :
  process_inline_formatting (py "see " ++ py "(" ++ py "below" ++ py ")" ++ [])
  = Ok (py "see "
        ++ (if contains (py " ") (py "below")
            then py "#[[" ++ py "below" ++ py "]]"
            else py "#" ++ py "below") ++ []).
Proof.
  apply (parenthesis_becomes_tag (py "see ") (py "below") []).
  - repeat constructor.
  - discriminate.
  - repeat constructor.
  - repeat constructor.
  - constructor.
Defined.

(** ** Italic and bold text *)

Lemma match_at_lit_blocked (ok : char -> bool) (c : char) (r : re) (x : char)
    (rest : str) (pos : nat) (prev : option char) :
  blocked ok r -> Forall (fun y => ok y = true) rest ->
  match_at (Seq (Lit [c]) r) (Cur pos prev (x :: rest)) = None.
Proof.
  intros Hb Hr. unfold match_at. cbn [rmatch lit advance c_rest].
  destruct (is_chr c x); [|reflexivity].
  rewrite (rmatch_blocked ok); auto. constructor.
Qed.

(** The bold pattern matches nowhere in a text with single asterisks
    only. *)
Lemma bold_none (pre w post : str) :
  Forall (fun c => plain_char c = true) pre ->
  w <> [] -> Forall (fun c => plain_char c = true) w ->
  Forall (fun c => plain_char c = true) post ->
  re_sub bold_re (fun m => Ok (py "**" ++ group_s m 1 ++ py "**"))
    (pre ++ py "*" ++ w ++ py "*" ++ post)
  = Ok (pre ++ py "*" ++ w ++ py "*" ++ post).
Proof.
  intros Hpre Hne Hw Hpost.
  assert (Hfirst : forall t x rest pos prev,
             Forall (fun c => plain_char c = true) t -> In x t ->
             match_at bold_re (Cur pos prev (x :: rest)) = None).
  { intros t x rest pos prev Ht Hx. unfold bold_re, L.
    cbn [seqs fold_right py map list_ascii_of_string].
    apply match_at_first. apply plain_neq_star.
    rewrite Forall_forall in Ht. now apply Ht. }
  assert (Hstar : forall t pos prev,
             Forall (fun c => plain_char c = true) t ->
             match_at bold_re (Cur pos prev (ch "*" :: t)) = None).
  { intros t pos prev Ht. destruct t as [|x t]; [reflexivity|].
    unfold bold_re, L. cbn [seqs fold_right py map list_ascii_of_string].
    apply match_at_second. inversion Ht; subst. now apply plain_neq_star. }
  destruct blocked_stars as (B1 & _).
  unfold re_sub, re_sub_st.
  rewrite sub_scan_pass by (intros; now apply (Hfirst pre)).
  destruct w as [|w0 w]; [contradiction|].
  change (py "*" ++ (w0 :: w) ++ py "*" ++ post)
    with (ch "*" :: (w0 :: w) ++ ch "*" :: post).
  rewrite sub_scan_nomatch; cycle 1.
  { unfold bold_re, L. cbn [seqs fold_right py map list_ascii_of_string app].
    apply match_at_second. inversion Hw; subst. now apply plain_neq_star. }
  rewrite sub_scan_pass by (intros; now apply (Hfirst (w0 :: w))).
  rewrite sub_scan_nomatch by now apply Hstar.
  rewrite (sub_scan_blocked (none_of "*")); [|exact B1|].
  - reflexivity.
  - now apply (plain_none_of "*").
Qed.

(** X20: an italic span [*w*] within plain text becomes [__w__]; the text
    around it is left as it is. *)
Theorem italic_converted (pre w post : str) :
  Forall (fun c => plain_char c = true) pre ->
  w <> [] -> Forall (fun c => plain_char c = true) w ->
  Forall (fun c => plain_char c = true) post ->
  process_inline_formatting (pre ++ py "*" ++ w ++ py "*" ++ post)
  = Ok (pre ++ py "__" ++ w ++ py "__" ++ post).
Proof.
  intros Hpre Hne Hw Hpost. unfold process_inline_formatting.
  destruct blocked_stars as (_ & B2).
  rewrite (re_sub_st_blocked (none_of "[:"));
    [|apply blocked_protect_loose|pieces'].
  cbn [bind fst snd].
  rewrite (bold_none pre w post Hpre Hne Hw Hpost). cbn [bind].
  replace (pre ++ py "*" ++ w ++ py "*" ++ post)
    with (pre ++ (py "*" ++ w ++ py "*") ++ post)
    by now rewrite <- !app_assoc.
  rewrite (re_sub_span (none_of "*") italic_re _ pre
             (py "*" ++ w ++ py "*") post (py "__" ++ w ++ py "__")).
  - cbn [bind]. rewrite <- !app_assoc. apply inline_tail_quiet. pieces'.
  - intros x rest pos prev Hx. unfold italic_re, L.
    cbn [seqs fold_right py map list_ascii_of_string].
    apply match_at_first. apply plain_neq_star.
    rewrite Forall_forall in Hpre. now apply Hpre.
  - discriminate.
  - intros pos prev. eexists. split; [|split].
    + rewrite <- !app_assoc. apply italic_match; assumption.
    + reflexivity.
    + reflexivity.
  - exact B2.
  - pieces'.
Qed.

Lemma italic_converted_witness :
  process_inline_formatting
    (py "an " ++ py "*" ++ py "old" ++ py "*" ++ py " tale")
  = Ok (py "an " ++ py "__" ++ py "old" ++ py "__" ++ py " tale").
Proof.
  apply (italic_converted (py "an ") (py "old") (py " tale")).
  - repeat constructor.
  - discriminate.
  - repeat constructor.
  - repeat constructor.
Defined.

(** The italic pass on a bold span: it takes the inner asterisks for an
    italic span. *)
Lemma italic_in_bold (pre w post : str) :
  Forall (fun c => plain_char c = true) pre ->
  w <> [] -> Forall (fun c => plain_char c = true) w ->
  Forall (fun c => plain_char c = true) post ->
  re_sub italic_re (fun m => Ok (py "__" ++ group_s m 1 ++ py "__"))
    (pre ++ py "**" ++ w ++ py "**" ++ post)
  = Ok (pre ++ py "*__" ++ w ++ py "__*" ++ post).
Proof.
  intros Hpre Hne Hw Hpost.
  destruct blocked_stars as (_ & B2).
  assert (Hrest : blocked (none_of "*")
                    (Seq (Grp 1 (plus (none_of "*"))) (Seq (Lit [ch "*"]) Eps))).
  { cbn [blocked]. right. left. not_ok (ch "*"). }
  unfold re_sub, re_sub_st.
  rewrite sub_scan_pass; cycle 1.
  { intros x rest pos prev Hx. unfold italic_re, L.
    cbn [seqs fold_right py map list_ascii_of_string].
    apply match_at_first. apply plain_neq_star.
    rewrite Forall_forall in Hpre. now apply Hpre. }
  replace (py "**" ++ w ++ py "**" ++ post)
    with (ch "*" :: (py "*" ++ w ++ py "*") ++ ch "*" :: post)
    by (cbn [py map list_ascii_of_string app]; now rewrite <- app_assoc).
  rewrite sub_scan_nomatch; cycle 1.
  { unfold match_at, italic_re, plus, L.
    cbn [seqs fold_right rmatch lit py map list_ascii_of_string advance
         c_rest c_pos c_prev app].
    unfold is_chr at 1. rewrite N.eqb_refl. cbn [c_rest c_pos c_prev].
    now rewrite mrep_no_run by reflexivity. }
  erewrite sub_scan_match; cycle 1.
  - discriminate.
  - rewrite <- app_assoc, <- app_assoc.
    apply (italic_match w (ch "*" :: post)); assumption.
  - reflexivity.
  - cbn [bind]. reflexivity.
  - rewrite sub_scan_nomatch; cycle 1.
    { unfold italic_re, L. cbn [seqs fold_right py map list_ascii_of_string].
      apply (match_at_lit_blocked (none_of "*")); [exact Hrest|].
      now apply (plain_none_of "*"). }
    rewrite (sub_scan_blocked (none_of "*")); [|exact B2|].
    + cbn [bind fst snd]. unfold group_s, group.
      cbn [m_caps lookup Nat.eqb].
      cbn [py map list_ascii_of_string app]. rewrite <- !app_assoc.
      reflexivity.
    + now apply (plain_none_of "*").
Qed.

(** X19: bold text does not survive [process_inline_formatting]: the bold
    pass leaves [**w**] as it is, and the italic pass that follows takes its
    inner asterisks for an italic span, so that a bold span within plain
    text becomes [*__w__*]. *)
Theorem bold_becomes_italic (pre w post : str) :
  Forall (fun c => plain_char c = true) pre ->
  w <> [] -> Forall (fun c => plain_char c = true) w ->
  Forall (fun c => plain_char c = true) post ->
  process_inline_formatting (pre ++ py "**" ++ w ++ py "**" ++ post)
  = Ok (pre ++ py "*__" ++ w ++ py "__*" ++ post).
Proof.
  intros Hpre Hne Hw Hpost. unfold process_inline_formatting.
  destruct blocked_stars as (B1 & _).
  rewrite (re_sub_st_blocked (none_of "[:"));
    [|apply blocked_protect_loose|pieces'].
  cbn [bind fst snd].
  assert (Hbold : re_sub bold_re
                    (fun m => Ok (py "**" ++ group_s m 1 ++ py "**"))
                    (pre ++ py "**" ++ w ++ py "**" ++ post)
                  = Ok (pre ++ py "**" ++ w ++ py "**" ++ post)).
  { replace (pre ++ py "**" ++ w ++ py "**" ++ post)
      with (pre ++ (py "**" ++ w ++ py "**") ++ post)
      by now rewrite <- !app_assoc.
    apply (re_sub_span (none_of "*")).
    - intros x rest pos prev Hx. unfold bold_re, L.
      cbn [seqs fold_right py map list_ascii_of_string].
      apply match_at_first. apply plain_neq_star.
      rewrite Forall_forall in Hpre. now apply Hpre.
    - discriminate.
    - intros pos prev. eexists. split; [|split].
      + rewrite <- !app_assoc. apply bold_match; assumption.
      + reflexivity.
      + reflexivity.
    - exact B1.
    - pieces'. }
  rewrite Hbold. cbn [bind].
  rewrite (italic_in_bold pre w post Hpre Hne Hw Hpost). cbn [bind].
  apply inline_tail_quiet. pieces'.
Qed.

Lemma bold_becomes_italic_witness :
  process_inline_formatting
    (py "a " ++ py "**" ++ py "bold" ++ py "**" ++ py " word")
  = Ok (py "a " ++ py "*__" ++ py "bold" ++ py "__*" ++ py " word").
Proof.
  apply (bold_becomes_italic (py "a ") (py "bold") (py " word")).
  - repeat constructor.
  - discriminate.
  - repeat constructor.
  - repeat constructor.
Defined.

Lemma plain_line_node_witness :
  exists d, forall n,
    In (List.length [py "# Title"], n) list_example_nodes
    <-> n = mkNode d (content (parse_line (py "Some text"))).
Proof.
  apply (plain_line_node list_example [py "# Title"] (py "Some text")
           [py "- item"] list_example_nodes).
  - vm_compute. reflexivity.
  - vm_compute. reflexivity.
  - vm_compute. reflexivity.
  - vm_compute. reflexivity.
  - replace (content (parse_line (py "Some text"))) with (py "Some text")
      by (vm_compute; reflexivity).
    repeat constructor.
  - vm_compute. reflexivity.
Defined.

Lemma list_item_node_witness :
  exists d, forall n,
    In (List.length [py "# Title"; py "Some text"], n) list_example_nodes
    <-> n = mkNode d (py "item").
Proof.
  apply (list_item_node list_example [py "# Title"; py "Some text"]
           (py "- item") [] list_example_nodes (ch "-") (py " ") (py "item")).
  - vm_compute. reflexivity.
  - vm_compute. reflexivity.
  - vm_compute. reflexivity.
  - vm_compute. reflexivity.
  - vm_compute. reflexivity.
  - repeat constructor.
  - discriminate.
  - vm_compute. reflexivity.
  - repeat constructor.
Defined.

(** * Dates within a text *)

(** ** Characters *)

(** A property of characters that holds for the first 128 code points. *)
Lemma below_128 (Q : char -> bool) :
  forallb Q (map N.of_nat (seq 0 128)) = true ->
  forall c, (c < 128)%N -> Q c = true.
Proof.
  intros H c Hc. rewrite forallb_forall in H. apply H.
  apply in_map_iff. exists (N.to_nat c). split; [apply N2Nat.id|].
  apply in_seq. lia.
Qed.

Lemma digit_not_upper (c : char) : isdigit c = true -> is_upper c = false.
Proof.
  intros H. destruct (is_upper c) eqn:E; [|reflexivity].
  assert (Hc : (c < 128)%N).
  { unfold is_upper, in_range in E. apply andb_true_iff in E.
    destruct E as [_ E]. apply N.leb_le in E. lia. }
  pose proof (below_128 (fun n => negb (isdigit n && is_upper n))
                ltac:(vm_compute; reflexivity) c Hc) as Hq.
  cbn beta in Hq. rewrite H, E in Hq. discriminate.
Qed.

Lemma digit_not_space (c : char) : isdigit c = true -> isspace c = false.
Proof.
  intros H. destruct (isspace c) eqn:E; [|reflexivity]. exfalso.
  unfold isspace, in_range in E.
  repeat match type of E with
         | (_ || _)%bool = true =>
             apply orb_true_iff in E; destruct E as [E|E]
         end;
    try (apply N.eqb_eq in E; subst c; vm_compute in H; discriminate).
  - apply andb_true_iff in E. destruct E as [E1 E2].
    apply N.leb_le in E1, E2.
    pose proof (below_128 (fun n => negb (isdigit n && in_range 9 13 n))
                  ltac:(vm_compute; reflexivity) c ltac:(lia)) as Hq.
    cbn beta in Hq. unfold in_range in Hq.
    rewrite H, (proj2 (N.leb_le _ _) E1), (proj2 (N.leb_le _ _) E2) in Hq.
    discriminate.
  - apply andb_true_iff in E. destruct E as [E1 E2].
    apply N.leb_le in E1, E2.
    pose proof (below_128 (fun n => negb (isdigit n && in_range 28 32 n))
                  ltac:(vm_compute; reflexivity) c ltac:(lia)) as Hq.
    cbn beta in Hq. unfold in_range in Hq.
    rewrite H, (proj2 (N.leb_le _ _) E1), (proj2 (N.leb_le _ _) E2) in Hq.
    discriminate.
  - apply andb_true_iff in E. destruct E as [E1 E2].
    apply N.leb_le in E1, E2.
    assert (Hin : In c [8192; 8193; 8194; 8195; 8196; 8197; 8198; 8199; 8200;
                        8201; 8202]%N) by (cbn [In]; lia).
    cbn [In] in Hin.
    repeat (destruct Hin as [<-|Hin]; [vm_compute in H; discriminate|]).
    exact Hin.
Qed.

(** The characters of words in lower case. *)
Lemma word_char_in (c : char) :
  word_char c = true -> In c (py "abcdefghijklmnopqrstuvwxyz ").
Proof.
  intros H.
  assert (Hc : (c < 128)%N).
  { unfold word_char, is_lower, in_range, is_chr in H.
    apply orb_true_iff in H. destruct H as [H|H].
    - apply andb_true_iff in H. destruct H as [_ H]. apply N.leb_le in H. lia.
    - apply N.eqb_eq in H. subst c. reflexivity. }
  pose proof (below_128
                (fun n => implb (word_char n)
                            (existsb (N.eqb n)
                               (py "abcdefghijklmnopqrstuvwxyz ")))
                ltac:(vm_compute; reflexivity) c Hc) as Hq.
  cbn beta in Hq. rewrite H in Hq. cbn [implb] in Hq.
  apply existsb_exists in Hq. destruct Hq as (x & Hi & Hx).
  apply N.eqb_eq in Hx. now subst x.
Qed.

(** A property that holds for the letters from a to z and for the space
    holds for the characters of words in lower case. *)
Lemma word_char_ok (Q : char -> bool) (c : char) :
  forallb Q (py "abcdefghijklmnopqrstuvwxyz ") = true ->
  word_char c = true -> Q c = true.
Proof.
  intros HQ Hc. rewrite forallb_forall in HQ. now apply HQ, word_char_in.
Qed.

Lemma words_ok (Q : char -> bool) (t : str) :
  forallb Q (py "abcdefghijklmnopqrstuvwxyz ") = true ->
  Forall (fun c => word_char c = true) t ->
  Forall (fun c => Q c = true) t.
Proof.
  intros HQ. apply Forall_impl. intros c. now apply word_char_ok.
Qed.

(** ** Patterns at a character, and exact repetitions *)

Lemma rmatch_cant_start {R} (x : char) (r : re) :
  (cant_start x r ->
   forall pos prev rest g (k : cur -> caps -> option R),
     rmatch r (Cur pos prev (x :: rest)) g k = None)
  /\ (skips x r ->
      forall pos prev rest g (k : cur -> caps -> option R),
        (forall g', k (Cur pos prev (x :: rest)) g' = None) ->
        rmatch r (Cur pos prev (x :: rest)) g k = None).
Proof.
  induction r as [|p|s|p lo hi greedy|a IHa b IHb|a IHa b IHb|a IHa|n a IHa
                 |a IHa|ml|ml]; cbn [cant_start skips]; split;
    try contradiction; intros H pos prev rest g k; cbn [rmatch].
  - intros Hk. apply Hk.
  - unfold advance. cbn [c_rest]. now rewrite H.
  - destruct s as [|c s]; [contradiction|]. cbn [lit advance c_rest].
    unfold is_chr. apply N.eqb_neq in H. now rewrite H.
  - destruct H as [Hlo Hp]. destruct lo as [|lo]; [lia|].
    cbn [mrep c_rest c_pos c_prev]. rewrite Hp. now destruct greedy.
  - destruct H as [H|[Hs Hb]].
    + now apply (proj1 IHa).
    + apply (proj2 IHa Hs). intros g'. now apply (proj1 IHb).
  - destruct H as [Ha Hb]. rewrite (proj1 IHa Ha). now apply (proj1 IHb).
  - intros Hk. rewrite (proj1 IHa H). apply Hk.
  - now apply (proj1 IHa).
  - intros Hk. destruct (rmatch a _ g (fun _ _ => Some tt)); [reflexivity|].
    apply Hk.
  - intros Hk. destruct (at_bol ml _); [apply Hk|reflexivity].
  - intros Hk. destruct (at_eol ml _); [apply Hk|reflexivity].
Qed.

Lemma match_at_cant_start (x : char) (r : re) (pos : nat)
    (prev : option char) (rest : str) :
  cant_start x r -> match_at r (Cur pos prev (x :: rest)) = None.
Proof.
  intros H. unfold match_at.
  now rewrite (proj1 (rmatch_cant_start x r) H).
Qed.

(** A repetition of exactly [n] characters on a run of [n] characters of
    its class. *)
Lemma mrep_exact {R} (p : char -> bool) (run rest : str)
    (k : cur -> option R) : forall n pos prev,
  Forall (fun c => p c = true) run -> List.length run = n ->
  mrep p true n (Some n) pos prev (run ++ rest) k
  = k (Cur (pos + n) (prev_after prev run) rest).
Proof.
  induction run as [|x run IH]; intros n pos prev Hr Hn; subst n.
  - cbn [List.length app]. rewrite Nat.add_0_r.
    change (prev_after prev []) with prev.
    destruct rest as [|y rest]; cbn [mrep hi_pred]; [reflexivity|].
    now destruct (p y).
  - inversion Hr as [|? ? Hx Hrun]; subst. cbn [List.length app mrep].
    rewrite Hx. cbn [hi_pred pred].
    rewrite (IH (List.length run) (S pos) (Some x) Hrun eq_refl).
    rewrite Nat.add_succ_r, (prev_after_cons prev x run). cbn [Nat.add].
    now destruct (k _).
Qed.

Lemma mrep_exact_all {R} (p : char -> bool) (run : str)
    (k : cur -> option R) (n pos : nat) (prev : option char) :
  Forall (fun c => p c = true) run -> List.length run = n ->
  mrep p true n (Some n) pos prev run k
  = k (Cur (pos + n) (prev_after prev run) []).
Proof.
  intros Hr Hn. rewrite <- (mrep_exact p run [] k n pos prev Hr Hn).
  now rewrite app_nil_r.
Qed.

(** An optional part the text cannot match is skipped. *)
Lemma rmatch_opt_blocked {R} (ok : char -> bool) (a : re) (c : cur) (g : caps)
    (k : cur -> caps -> option R) :
  blocked ok a -> Forall (fun x => ok x = true) (c_rest c) ->
  caps_all (Forall (fun x => ok x = true)) g ->
  rmatch (Opt a) c g k = k c g.
Proof.
  intros Hb Hc Hg. cbn [rmatch]. now rewrite (rmatch_blocked ok).
Qed.

Lemma rmatch_opt_cant_start {R} (a : re) (x : char) (pos : nat)
    (prev : option char) (rest : str) (g : caps)
    (k : cur -> caps -> option R) :
  cant_start x a ->
  rmatch (Opt a) (Cur pos prev (x :: rest)) g k
  = k (Cur pos prev (x :: rest)) g.
Proof.
  intros H. cbn [rmatch]. now rewrite (proj1 (rmatch_cant_start x a) H).
Qed.

(** ** parse_date on a year, an ISO date and an ISO date with time *)

Lemma Exists_char (ok : char -> bool) (s : str) (x : char) :
  In x s -> ok x = false -> Exists (fun y => ok y = false) s.
Proof. intros Hi Hx. apply Exists_exists. now exists x. Qed.

Ltac lit_blocked x :=
  apply (Exists_char _ _ x); [cbn; tauto|reflexivity].

Lemma iso_char_stamp (c : char) : iso_char c = true -> stamp_char c = true.
Proof.
  unfold iso_char, stamp_char. intros H. apply orb_true_iff in H.
  destruct H as [->|H]; [reflexivity|].
  unfold is_chr in H. apply N.eqb_eq in H. subst c. reflexivity.
Qed.

Lemma digit_iso (c : char) : isdigit c = true -> iso_char c = true.
Proof. unfold iso_char. now intros ->. Qed.

Lemma stamp_not_upper (c : char) : stamp_char c = true -> is_upper c = false.
Proof.
  unfold stamp_char. intros H. apply orb_true_iff in H. destruct H as [H|H].
  - now apply digit_not_upper.
  - unfold one_of in H. apply existsb_exists in H.
    destruct H as (x & Hi & Hx). apply N.eqb_eq in Hx. subst x.
    cbn [py map list_ascii_of_string In] in Hi.
    repeat (destruct Hi as [<-|Hi]; [reflexivity|]). contradiction.
Qed.

Lemma iso_not_space (c : char) : iso_char c = true -> isspace c = false.
Proof.
  unfold iso_char. intros H. apply orb_true_iff in H. destruct H as [H|H].
  - now apply digit_not_space.
  - unfold is_chr in H. apply N.eqb_eq in H. subst c. reflexivity.
Qed.

(** The patterns of [parse_date] that a text of such characters cannot
    match. *)
Lemma blocked_week :
  blocked stamp_char week_re /\ blocked stamp_char week_range_re.
Proof.
  unfold week_re, week_range_re, L. cbn [seqs fold_right blocked].
  split; right; left; lit_blocked (ch "W").
Qed.

Lemma blocked_words :
  blocked stamp_char legacy_time_re /\ blocked stamp_char duration_re
  /\ blocked stamp_char month_year_re.
Proof.
  pose proof stamp_not_upper as U.
  unfold legacy_time_re, duration_re, month_year_re, word, weekday, L.
  cbn [seqs fold_right blocked]. tauto.
Qed.

Lemma blocked_iso_time : blocked iso_char iso_time_re.
Proof.
  pose proof iso_not_space as S1. assert (H1 : 1 <= 1) by lia.
  unfold iso_time_re, iso_day, ws1, plus, L. cbn [seqs fold_right blocked].
  tauto.
Qed.

Lemma blocked_iso_duration : blocked stamp_char iso_duration_re.
Proof.
  unfold iso_duration_re, L. cbn [seqs fold_right blocked].
  right. right. left. lit_blocked (ch "/").
Qed.

Lemma blocked_iso_digits :
  blocked isdigit iso_time_re /\ blocked isdigit iso_duration_re
  /\ blocked isdigit iso_re.
Proof.
  assert (H : blocked isdigit (Grp 1 iso_day)).
  { unfold iso_day, L. cbn [seqs fold_right blocked]. right. left.
    lit_blocked (ch "-"). }
  unfold iso_time_re, iso_duration_re, iso_re. cbn [seqs fold_right].
  cbn [blocked] in *. tauto.
Qed.

Lemma re_match_blocked (ok : char -> bool) (r : re) (t : str) :
  blocked ok r -> Forall (fun c => ok c = true) t -> re_match r t = None.
Proof. intros. unfold re_match. now apply (match_at_blocked ok). Qed.

Lemma not_ref (t : str) :
  match t with x :: _ => x <> ch "[" | [] => True end ->
  (startswith (py "[[date:") t && endswith (py "]]") t)%bool = false.
Proof.
  destruct t as [|x t]; [reflexivity|]. intros H.
  cbn [py map list_ascii_of_string startswith]. unfold char_eqb.
  replace (N.eqb (N_of_ascii "[") x) with false; [reflexivity|].
  symmetry. apply N.eqb_neq. intros E. apply H. now rewrite <- E.
Qed.

Lemma digit_neq (c x : char) : isdigit c = true -> isdigit x = false -> c <> x.
Proof. intros H1 H2 ->. congruence. Qed.

Lemma digits_stamp (t : str) :
  Forall (fun c => isdigit c = true) t ->
  Forall (fun c => stamp_char c = true) t.
Proof.
  apply Forall_impl. intros c H. unfold stamp_char. now rewrite H.
Qed.

(** The year pattern matches four digits. *)
Lemma year_match (y : str) :
  Forall (fun c => isdigit c = true) y -> List.length y = 4 ->
  exists m, re_match year_re y = Some m /\ group_s m 1 = y.
Proof.
  intros Hy Hlen. unfold re_match, match_at, year_re.
  cbn [seqs fold_right]. cbn [rmatch at_bol c_prev].
  assert (Hopt : forall (k : cur -> caps -> option (cur * caps)),
             rmatch cmd_sign (Cur 0 None y) [] k = k (Cur 0 None y) []).
  { intros k. unfold cmd_sign. apply (rmatch_opt_blocked isdigit).
    - cbn [seqs fold_right blocked]. left. lit_blocked 8984%N.
    - exact Hy.
    - constructor. }
  fold cmd_sign. rewrite Hopt. unfold d4, exactly. cbn [rmatch c_pos c_prev c_rest].
  eexists. split.
  - rewrite (mrep_exact_all isdigit y _ 4 0 None Hy Hlen).
    cbn [at_eol c_rest c_pos]. reflexivity.
  - unfold group_s, group. cbn [m_caps lookup Nat.eqb Nat.add Nat.sub].
    rewrite <- Hlen. apply firstn_all.
Qed.

Lemma parse_date_year (y : str) :
  Forall (fun c => isdigit c = true) y -> List.length y = 4 ->
  parse_date y = Ok (Some (mkDate Simple y false)).
Proof.
  intros Hy Hlen. pose proof (digits_stamp y Hy) as Hs.
  destruct blocked_week as (W1 & W2).
  destruct blocked_words as (L1 & L2 & L3).
  destruct blocked_iso_digits as (I1 & I2 & I3).
  destruct (year_match y Hy Hlen) as (m & Hm & Hg).
  unfold parse_date. rewrite not_ref.
  - rewrite (re_match_blocked stamp_char week_re) by assumption.
    rewrite (re_match_blocked stamp_char week_range_re) by assumption.
    rewrite (re_match_blocked isdigit iso_time_re) by assumption.
    rewrite (re_match_blocked stamp_char legacy_time_re) by assumption.
    rewrite (re_match_blocked stamp_char duration_re) by assumption.
    rewrite (re_match_blocked isdigit iso_duration_re) by assumption.
    rewrite (re_match_blocked isdigit iso_re) by assumption.
    rewrite (re_match_blocked stamp_char month_year_re) by assumption.
    now rewrite Hm, Hg.
  - destruct y as [|a y]; [exact I|]. inversion Hy; subst.
    now apply digit_neq.
Qed.

(** The pattern of an ISO day on a year, a month and a day. *)
Lemma iso_day_match {R} (y mo d rest : str) (pos : nat) (prev : option char)
    (g : caps) (k : cur -> caps -> option R) :
  Forall (fun c => isdigit c = true) y -> List.length y = 4 ->
  Forall (fun c => isdigit c = true) mo -> List.length mo = 2 ->
  Forall (fun c => isdigit c = true) d -> List.length d = 2 ->
  rmatch iso_day (Cur pos prev (y ++ py "-" ++ mo ++ py "-" ++ d ++ rest)) g k
  = k (Cur (pos + 10) (prev_after prev (y ++ py "-" ++ mo ++ py "-" ++ d))
         rest) g.
Proof.
  intros Hy Ly Hm Lm Hd Ld. unfold iso_day, d4, d2, exactly, L.
  cbn [seqs fold_right rmatch c_pos c_prev c_rest].
  rewrite mrep_exact by assumption. rewrite lit_app.
  cbn [c_pos c_prev c_rest]. rewrite mrep_exact by assumption.
  rewrite lit_app. cbn [c_pos c_prev c_rest].
  rewrite mrep_exact by assumption.
  rewrite !prev_after_app. f_equal. f_equal.
  cbn [List.length py map list_ascii_of_string]. lia.
Qed.

Lemma iso_text_chars (y mo d : str) :
  Forall (fun c => isdigit c = true) y ->
  Forall (fun c => isdigit c = true) mo ->
  Forall (fun c => isdigit c = true) d ->
  Forall (fun c => iso_char c = true) (iso_text y mo d).
Proof.
  intros Hy Hm Hd. unfold iso_text.
  repeat (apply Forall_app; split);
    first [ eapply Forall_impl; [|eassumption]; exact digit_iso
          | repeat constructor ].
Qed.

Lemma iso_text_length (y mo d : str) :
  List.length y = 4 -> List.length mo = 2 -> List.length d = 2 ->
  List.length (iso_text y mo d) = 10.
Proof.
  intros Ly Lm Ld. unfold iso_text. rewrite !length_app, Ly, Lm, Ld.
  reflexivity.
Qed.

(** The plain ISO pattern matches an ISO date. *)
Lemma iso_match (y mo d : str) :
  Forall (fun c => isdigit c = true) y -> List.length y = 4 ->
  Forall (fun c => isdigit c = true) mo -> List.length mo = 2 ->
  Forall (fun c => isdigit c = true) d -> List.length d = 2 ->
  exists m, re_match iso_re (iso_text y mo d) = Some m
            /\ group_s m 1 = iso_text y mo d.
Proof.
  intros Hy Ly Hm Lm Hd Ld.
  pose proof (iso_text_length y mo d Ly Lm Ld) as Hlen.
  unfold re_match, match_at, iso_re. cbn [seqs fold_right].
  cbn [rmatch at_bol c_prev].
  eexists. split.
  - replace (iso_text y mo d)
      with (y ++ py "-" ++ mo ++ py "-" ++ d ++ []) at 1
      by (unfold iso_text; now rewrite app_nil_r).
    rewrite iso_day_match by assumption.
    cbn [rmatch at_eol c_rest c_pos]. reflexivity.
  - unfold group_s, group. cbn [m_caps lookup Nat.eqb Nat.add Nat.sub].
    rewrite <- Hlen. apply firstn_all.
Qed.

Lemma parse_date_iso (y mo d : str) :
  Forall (fun c => isdigit c = true) y -> List.length y = 4 ->
  Forall (fun c => isdigit c = true) mo -> List.length mo = 2 ->
  Forall (fun c => isdigit c = true) d -> List.length d = 2 ->
  parse_date (iso_text y mo d)
  = Ok (Some (mkDate Simple (iso_text y mo d) false)).
Proof.
  intros Hy Ly Hm Lm Hd Ld.
  pose proof (iso_text_chars y mo d Hy Hm Hd) as Hi.
  assert (Hs : Forall (fun c => stamp_char c = true) (iso_text y mo d)).
  { eapply Forall_impl; [|exact Hi]. exact iso_char_stamp. }
  destruct blocked_week as (W1 & W2).
  destruct blocked_words as (L1 & L2 & L3).
  destruct (iso_match y mo d Hy Ly Hm Lm Hd Ld) as (m & Em & Hg).
  unfold parse_date. rewrite not_ref.
  - rewrite (re_match_blocked stamp_char week_re) by assumption.
    rewrite (re_match_blocked stamp_char week_range_re) by assumption.
    rewrite (re_match_blocked iso_char iso_time_re)
      by (apply blocked_iso_time || assumption).
    rewrite (re_match_blocked stamp_char legacy_time_re) by assumption.
    rewrite (re_match_blocked stamp_char duration_re) by assumption.
    rewrite (re_match_blocked stamp_char iso_duration_re)
      by (apply blocked_iso_duration || assumption).
    now rewrite Em, Hg.
  - unfold iso_text. destruct y as [|a y]; [discriminate|].
    inversion Hy; subst. now apply digit_neq.
Qed.

(** ** The date pattern on a year, an ISO date and an ISO date with time *)

Lemma rmatch_opt_take {R} (a : re) (c : cur) (g : caps)
    (k : cur -> caps -> option R) (v : R) :
  rmatch a c g k = Some v -> rmatch (Opt a) c g k = Some v.
Proof. intros H. cbn [rmatch]. now rewrite H. Qed.

Lemma rmatch_lit {R} (s rest : str) (pos : nat) (prev : option char)
    (g : caps) (k : cur -> caps -> option R) :
  rmatch (Lit s) (Cur pos prev (s ++ rest)) g k
  = k (Cur (pos + List.length s) (prev_after prev s) rest) g.
Proof. cbn [rmatch]. now rewrite lit_app. Qed.

Lemma rmatch_exact {R} (p : char -> bool) (n : nat) (run rest : str)
    (pos : nat) (prev : option char) (g : caps)
    (k : cur -> caps -> option R) :
  Forall (fun c => p c = true) run -> List.length run = n ->
  rmatch (exactly p n) (Cur pos prev (run ++ rest)) g k
  = k (Cur (pos + n) (prev_after prev run) rest) g.
Proof.
  intros Hr Hn. unfold exactly. cbn [rmatch c_pos c_prev c_rest].
  now rewrite mrep_exact.
Qed.

Lemma word_not_digit (c : char) : word_char c = true -> isdigit c = false.
Proof.
  intros H. apply negb_true_iff.
  apply (word_char_ok (fun x => negb (isdigit x))); [reflexivity|exact H].
Qed.

(** The optional parts of the date pattern that a text of words cannot
    match. *)
Lemma blocked_date_tails :
  blocked word_char (seqs [L "-"; d2; Opt (seqs [L "-"; d2])])
  /\ blocked word_char (seqs [L "-"; d2])
  /\ blocked word_char (seqs [ws1; d2; L ":"; d2])
  /\ blocked word_char (seqs [L "/"; alts [bracket_ref; iso_span]])
  /\ blocked word_char (L "]]").
Proof.
  pose proof word_not_digit as D. assert (H2 : 1 <= 2) by lia.
  assert (Hm : Exists (fun x => word_char x = false) (py "-"))
    by lit_blocked (ch "-").
  assert (Hs : Exists (fun x => word_char x = false) (py "/"))
    by lit_blocked (ch "/").
  assert (Hb : Exists (fun x => word_char x = false) (py "]]"))
    by lit_blocked (ch "]").
  unfold d2, exactly, L. cbn [seqs fold_right blocked]. tauto.
Qed.

(** The ISO span of the date pattern on a year, on an ISO date and on an
    ISO date with time, before a text of words. *)
Lemma iso_span_year {R} (y post : str) (pos : nat) (prev : option char)
    (k : cur -> caps -> option R) :
  Forall (fun c => isdigit c = true) y -> List.length y = 4 ->
  Forall (fun c => word_char c = true) post ->
  rmatch iso_span (Cur pos prev (y ++ post)) [] k
  = k (Cur (pos + 4) (prev_after prev y) post) [].
Proof.
  intros Hy Ly Hp. destruct blocked_date_tails as (T1 & _ & T3 & _).
  unfold iso_span, d4. cbn [seqs fold_right].
  change (rmatch (Seq ?a ?b) ?c ?g ?k)
    with (rmatch a c g (fun c' g' => rmatch b c' g' k)).
  rewrite rmatch_exact by assumption.
  change (rmatch (Seq ?a ?b) ?c ?g ?k)
    with (rmatch a c g (fun c' g' => rmatch b c' g' k)).
  rewrite (rmatch_opt_blocked word_char); [|exact T1|exact Hp|constructor].
  change (rmatch (Seq ?a ?b) ?c ?g ?k)
    with (rmatch a c g (fun c' g' => rmatch b c' g' k)).
  rewrite (rmatch_opt_blocked word_char); [|exact T3|exact Hp|constructor].
  reflexivity.
Qed.

Ltac seq_step :=
  change (rmatch (Seq ?a ?b) ?c ?g ?k)
    with (rmatch a c g (fun c' g' => rmatch b c' g' k)).

Ltac eps_step :=
  change (rmatch Eps ?c ?g ?k) with (k c g); cbv beta.

Lemma iso_span_date {R} (y mo d post : str) (pos : nat) (prev : option char)
    (k : cur -> caps -> option R) (v : R) :
  Forall (fun c => isdigit c = true) y -> List.length y = 4 ->
  Forall (fun c => isdigit c = true) mo -> List.length mo = 2 ->
  Forall (fun c => isdigit c = true) d -> List.length d = 2 ->
  Forall (fun c => word_char c = true) post ->
  k (Cur (pos + 10) (prev_after prev (iso_text y mo d)) post) [] = Some v ->
  rmatch iso_span (Cur pos prev (iso_text y mo d ++ post)) [] k = Some v.
Proof.
  intros Hy Ly Hm Lm Hd Ld Hp Hk.
  destruct blocked_date_tails as (_ & _ & T3 & _).
  unfold iso_span, d4, iso_text. cbn [seqs fold_right].
  rewrite <- !app_assoc. seq_step.
  rewrite rmatch_exact by assumption. seq_step.
  apply rmatch_opt_take. seq_step. unfold L at 1. rewrite rmatch_lit.
  seq_step. unfold d2 at 1. rewrite rmatch_exact by assumption. seq_step.
  apply rmatch_opt_take. seq_step. unfold L at 1. rewrite rmatch_lit.
  seq_step. unfold d2 at 1. rewrite rmatch_exact by assumption.
  eps_step. eps_step. seq_step.
  rewrite (rmatch_opt_blocked word_char); [|exact T3|exact Hp|constructor].
  eps_step. rewrite <- Hk. f_equal. f_equal.
  - cbn [List.length py map list_ascii_of_string]. lia.
  - unfold iso_text. now rewrite !prev_after_app.
Qed.

Ltac rep_step :=
  change (rmatch (Rep ?p ?lo ?hi ?gr) ?c ?g ?k)
    with (mrep p gr lo hi (c_pos c) (c_prev c) (c_rest c) (fun c' => k c' g));
  cbn [c_pos c_prev c_rest].

Lemma iso_span_stamp {R} (y mo d ws hh mi post : str) (pos : nat)
    (prev : option char) (k : cur -> caps -> option R) (v : R) :
  Forall (fun c => isdigit c = true) y -> List.length y = 4 ->
  Forall (fun c => isdigit c = true) mo -> List.length mo = 2 ->
  Forall (fun c => isdigit c = true) d -> List.length d = 2 ->
  all_space ws -> ws <> [] ->
  Forall (fun c => isdigit c = true) hh -> List.length hh = 2 ->
  Forall (fun c => isdigit c = true) mi -> List.length mi = 2 ->
  k (Cur (pos + List.length (stamp_text y mo d ws hh mi))
         (prev_after prev (stamp_text y mo d ws hh mi)) post) [] = Some v ->
  rmatch iso_span (Cur pos prev (stamp_text y mo d ws hh mi ++ post)) [] k
  = Some v.
Proof.
  intros Hy Ly Hm Lm Hd Ld Hws Hne Hh Lh Hi Li Hk.
  unfold iso_span, d4, stamp_text, iso_text in *. cbn [seqs fold_right].
  rewrite <- !app_assoc. seq_step.
  rewrite rmatch_exact by assumption. seq_step.
  apply rmatch_opt_take. seq_step. unfold L at 1. rewrite rmatch_lit.
  seq_step. unfold d2 at 1. rewrite rmatch_exact by assumption. seq_step.
  apply rmatch_opt_take. seq_step. unfold L at 1. rewrite rmatch_lit.
  seq_step. unfold d2 at 1. rewrite rmatch_exact by assumption.
  eps_step. eps_step. seq_step.
  apply rmatch_opt_take. seq_step. unfold ws1, plus. rep_step.
  apply mrep_greedy_run.
  - exact Hws.
  - left. destruct hh as [|h0 hh]; [discriminate|]. inversion Hh; subst.
    cbn [app]. now apply digit_not_space.
  - destruct ws; [contradiction|]. cbn [List.length]. lia.
  - exact I.
  - seq_step. unfold d2 at 1. rewrite rmatch_exact by assumption. seq_step.
    unfold L at 1. rewrite rmatch_lit. seq_step. unfold d2 at 1.
    rewrite rmatch_exact by assumption. eps_step. eps_step. eps_step.
    rewrite <- Hk. f_equal. f_equal.
    + rewrite !length_app. cbn [List.length py map list_ascii_of_string]. lia.
    + rewrite !prev_after_app, <- !app_assoc. reflexivity.
Qed.

Lemma rmatch_alt_take {R} (a b : re) (c : cur) (g : caps)
    (k : cur -> caps -> option R) (v : R) :
  rmatch a c g k = Some v -> rmatch (Alt a b) c g k = Some v.
Proof. intros H. cbn [rmatch]. now rewrite H. Qed.

Lemma rmatch_alt_skip {R} (a b : re) (x : char) (pos : nat)
    (prev : option char) (rest : str) (g : caps)
    (k : cur -> caps -> option R) :
  cant_start x a ->
  rmatch (Alt a b) (Cur pos prev (x :: rest)) g k
  = rmatch b (Cur pos prev (x :: rest)) g k.
Proof.
  intros H. cbn [rmatch]. now rewrite (proj1 (rmatch_cant_start x a) H).
Qed.

(** The date pattern matches a span that starts with a digit and that its
    ISO part matches, before a text of words. *)
Lemma date_pattern_span (span post : str) (pos : nat) (prev : option char) :
  match span with x :: _ => isdigit x = true | [] => False end ->
  (forall (k : cur -> caps -> option (cur * caps)) v,
      k (Cur (pos + List.length span) (prev_after prev span) post) []
      = Some v ->
      rmatch iso_span (Cur pos prev (span ++ post)) [] k = Some v) ->
  Forall (fun c => word_char c = true) post ->
  match_at date_pattern (Cur pos prev (span ++ post))
  = Some (Mobj pos span [] 0).
Proof.
  intros Hx Hspan Hp. destruct blocked_date_tails as (_ & _ & _ & T4 & T5).
  destruct span as [|x span]; [contradiction|].
  assert (Hb : x <> ch "[") by now apply digit_neq.
  assert (Hm : rmatch date_pattern (Cur pos prev ((x :: span) ++ post)) []
                 (fun c' g => Some (c', g))
               = Some (Cur (pos + List.length (x :: span))
                         (prev_after prev (x :: span)) post, [])).
  { unfold date_pattern. cbn [alts]. apply rmatch_alt_take.
    cbn [seqs fold_right]. seq_step.
    change ((x :: span) ++ post) with (x :: (span ++ post)).
    rewrite rmatch_opt_cant_start by exact Hb.
    seq_step. rewrite rmatch_alt_skip by (left; exact Hb).
    seq_step. change (x :: (span ++ post)) with ((x :: span) ++ post).
    apply Hspan. seq_step.
    rewrite (rmatch_opt_blocked word_char); [|exact T4|exact Hp|constructor].
    eps_step. seq_step.
    rewrite (rmatch_opt_blocked word_char); [|exact T5|exact Hp|constructor].
    eps_step. reflexivity. }
  unfold match_at. rewrite Hm. cbn [c_pos c_rest]. f_equal. f_equal.
  replace (pos + List.length (x :: span) - pos)
    with (List.length (x :: span)) by lia.
  apply firstn_length_app.
Qed.

(** No character of a text of words starts a date. *)
Lemma word_cant_start_date (x : char) :
  word_char x = true -> cant_start x date_pattern.
Proof.
  intros H.
  assert (Hd : isdigit x = false) by now apply word_not_digit.
  assert (Hu : is_upper x = false).
  { apply negb_true_iff.
    apply (word_char_ok (fun c => negb (is_upper c))); [reflexivity|exact H]. }
  assert (Hb : x <> ch "[").
  { intros ->. discriminate. }
  assert (Hw : x <> ch "W").
  { intros ->. discriminate. }
  assert (H4 : 1 <= 4) by lia.
  unfold date_pattern, iso_span, bracket_ref, word, d4, exactly, L.
  cbn [alts seqs fold_right cant_start skips py map list_ascii_of_string].
  fold (ch "[") (ch "W"). tauto.
Qed.

(** ** The date pass on a date within a text of words *)

(** One span at which the replacement raises. *)
Lemma re_sub_span_raise (r : re) (repl : mobj -> result str)
    (pre span post : str) (e : exn) :
  (forall x rest pos prev,
      In x pre -> match_at r (Cur pos prev (x :: rest)) = None) ->
  span <> [] ->
  (forall pos prev, exists m,
      match_at r (Cur pos prev (span ++ post)) = Some m
      /\ repl m = Raise e) ->
  re_sub r repl (pre ++ span ++ post) = Raise e.
Proof.
  intros Hpre Hne Hm. unfold re_sub, re_sub_st.
  rewrite sub_scan_pass by exact Hpre.
  destruct (Hm (0 + List.length pre) (prev_after None pre)) as (m & Em & Er).
  destruct span as [|x span]; [contradiction|].
  change ((x :: span) ++ post) with (x :: (span ++ post)) in *.
  cbn [sub_scan]. rewrite Em, Er. reflexivity.
Qed.

Lemma blocked_protect_plain : blocked (none_of "[/") protect_re.
Proof.
  unfold protect_re, bracket_ref, L. cbn [alts seqs fold_right blocked].
  split; [left; lit_blocked (ch "[")|].
  split; [right; right; left; lit_blocked (ch "/")|].
  left. lit_blocked (ch "[").
Qed.

Lemma blocked_restore_plain : blocked (none_of "_") restore_re.
Proof.
  unfold restore_re, L. cbn [seqs fold_right blocked]. left.
  lit_blocked (ch "_").
Qed.

Lemma digits_none_of (s : string) (t : str) :
  forallb (fun x => negb (isdigit x)) (py s) = true ->
  Forall (fun c => isdigit c = true) t ->
  Forall (fun c => none_of s c = true) t.
Proof.
  intros Hs. apply Forall_impl. intros c Hc.
  unfold none_of, one_of. apply negb_true_iff.
  destruct (existsb (char_eqb c) (py s)) eqn:E; [|reflexivity].
  apply existsb_exists in E. destruct E as (x & Hi & Hx).
  apply N.eqb_eq in Hx. subst x.
  rewrite forallb_forall in Hs. apply Hs in Hi. rewrite Hc in Hi.
  discriminate.
Qed.

Lemma words_none_of (s : string) (t : str) :
  forallb (none_of s) (py "abcdefghijklmnopqrstuvwxyz ") = true ->
  Forall (fun c => word_char c = true) t ->
  Forall (fun c => none_of s c = true) t.
Proof. intros Hs. now apply words_ok. Qed.

Ltac date_pieces :=
  repeat (apply Forall_app; split);
  first [ apply words_none_of; [reflexivity|assumption]
        | apply digits_none_of; [reflexivity|assumption]
        | repeat constructor ].

(** The date pass wraps a span the date pattern matches and [parse_date]
    reads. *)
Lemma convert_dates_span (pre span post : str) :
  Forall (fun c => word_char c = true) pre ->
  Forall (fun c => word_char c = true) post ->
  Forall (fun c => none_of "[/" c = true) span ->
  Forall (fun c => none_of "_" c = true) span ->
  match span with x :: _ => isdigit x = true | [] => False end ->
  (forall pos prev (k : cur -> caps -> option (cur * caps)) v,
      k (Cur (pos + List.length span) (prev_after prev span) post) []
      = Some v ->
      rmatch iso_span (Cur pos prev (span ++ post)) [] k = Some v) ->
  parse_date span = Ok (Some (mkDate Simple span false)) ->
  convert_dates (pre ++ span ++ post)
  = Ok (pre ++ py "[[date:" ++ span ++ py "]]" ++ post).
Proof.
  intros Hpre Hpost Hs1 Hs2 Hx Hspan Hparse. unfold convert_dates.
  rewrite (re_sub_st_blocked (none_of "[/"));
    [|apply blocked_protect_plain|date_pieces; assumption].
  cbn [bind fst snd].
  rewrite (re_sub_span word_char date_pattern date_repl pre span post
             (py "[[date:" ++ span ++ py "]]")).
  - cbn [bind].
    replace (pre ++ (py "[[date:" ++ span ++ py "]]") ++ post)
      with (pre ++ py "[[date:" ++ span ++ py "]]" ++ post)
      by now rewrite <- !app_assoc.
    apply (re_sub_blocked (none_of "_")); [apply blocked_restore_plain|].
    date_pieces; assumption.
  - intros x rest pos prev Hi. apply match_at_cant_start.
    apply word_cant_start_date. rewrite Forall_forall in Hpre. now apply Hpre.
  - now destruct span.
  - intros pos prev. eexists. split; [|split].
    + apply date_pattern_span; [exact Hx| |exact Hpost]. apply Hspan.
    + reflexivity.
    + unfold date_repl. cbn [m_text]. rewrite Hparse. reflexivity.
  - apply blocked_weaken with (ok2 := quiet_char); [|apply blocked_dates].
    intros c Hc. apply (word_char_ok quiet_char); [reflexivity|exact Hc].
  - exact Hpost.
Qed.

(** X23: a year of four digits within a text of words in lower case is
    wrapped as a date reference by [convert_dates]. *)
Theorem year_wrapped (pre y post : str) :
  Forall (fun c => word_char c = true) pre ->
  Forall (fun c => isdigit c = true) y -> List.length y = 4 ->
  Forall (fun c => word_char c = true) post ->
  convert_dates (pre ++ y ++ post)
  = Ok (pre ++ py "[[date:" ++ y ++ py "]]" ++ post).
Proof.
  intros Hpre Hy Ly Hpost. apply convert_dates_span; try assumption.
  - now apply (digits_none_of "[/").
  - now apply (digits_none_of "_").
  - destruct y as [|a y]; [discriminate|]. now inversion Hy.
  - intros pos prev k v Hk. rewrite Ly in Hk.
    now rewrite iso_span_year.
  - now apply parse_date_year.
Qed.

Lemma year_wrapped_witness :
  convert_dates (py "in " ++ py "2023" ++ py " we met")
  = Ok (py "in " ++ py "[[date:" ++ py "2023" ++ py "]]" ++ py " we met").
Proof.
  apply (year_wrapped (py "in ") (py "2023") (py " we met")).
  - repeat constructor.
  - repeat constructor.
  - reflexivity.
  - repeat constructor.
Defined.

Lemma iso_text_none_of (s : string) (y mo d : str) :
  forallb (fun x => negb (iso_char x)) (py s) = true ->
  Forall (fun c => isdigit c = true) y ->
  Forall (fun c => isdigit c = true) mo ->
  Forall (fun c => isdigit c = true) d ->
  Forall (fun c => none_of s c = true) (iso_text y mo d).
Proof.
  intros Hs Hy Hm Hd. pose proof (iso_text_chars y mo d Hy Hm Hd) as Hi.
  eapply Forall_impl; [|exact Hi]. intros c Hc.
  now apply (ok_none_of iso_char).
Qed.

(** X24: an ISO date YYYY-MM-DD within a text of words in lower case is
    wrapped as a date reference by [convert_dates]. *)
Theorem iso_date_wrapped (pre y mo d post : str) :
  Forall (fun c => word_char c = true) pre ->
  Forall (fun c => isdigit c = true) y -> List.length y = 4 ->
  Forall (fun c => isdigit c = true) mo -> List.length mo = 2 ->
  Forall (fun c => isdigit c = true) d -> List.length d = 2 ->
  Forall (fun c => word_char c = true) post ->
  convert_dates (pre ++ iso_text y mo d ++ post)
  = Ok (pre ++ py "[[date:" ++ iso_text y mo d ++ py "]]" ++ post).
Proof.
  intros Hpre Hy Ly Hm Lm Hd Ld Hpost.
  apply convert_dates_span; try assumption.
  - now apply (iso_text_none_of "[/").
  - now apply (iso_text_none_of "_").
  - unfold iso_text. destruct y as [|a y]; [discriminate|]. now inversion Hy.
  - intros pos prev k v Hk.
    rewrite (iso_text_length y mo d Ly Lm Ld) in Hk.
    now apply iso_span_date.
  - now apply parse_date_iso.
Qed.

Lemma iso_date_wrapped_witness :
  convert_dates
    (py "due " ++ iso_text (py "2024") (py "03") (py "05") ++ py " at noon")
  = Ok (py "due " ++ py "[[date:" ++ iso_text (py "2024") (py "03") (py "05")
        ++ py "]]" ++ py " at noon").
Proof.
  apply (iso_date_wrapped (py "due ") (py "2024") (py "03") (py "05")
           (py " at noon")).
  - repeat constructor.
  - repeat constructor.
  - reflexivity.
  - repeat constructor.
  - reflexivity.
  - repeat constructor.
  - reflexivity.
  - repeat constructor.
Defined.

(** The pattern of an ISO date with time matches such a text. *)
Lemma iso_time_match (y mo d ws hh mi : str) :
  Forall (fun c => isdigit c = true) y -> List.length y = 4 ->
  Forall (fun c => isdigit c = true) mo -> List.length mo = 2 ->
  Forall (fun c => isdigit c = true) d -> List.length d = 2 ->
  all_space ws -> ws <> [] ->
  Forall (fun c => isdigit c = true) hh -> List.length hh = 2 ->
  Forall (fun c => isdigit c = true) mi -> List.length mi = 2 ->
  exists m, re_match iso_time_re (stamp_text y mo d ws hh mi) = Some m.
Proof.
  intros Hy Ly Hm Lm Hd Ld Hws Hne Hh Lh Hi Li.
  assert (Hr : exists v,
             rmatch iso_time_re (Cur 0 None (stamp_text y mo d ws hh mi)) []
               (fun c' g => Some (c', g)) = Some v).
  { unfold iso_time_re, stamp_text, iso_text. cbn [seqs fold_right].
    rewrite <- !app_assoc. seq_step.
    change (rmatch (Bol false) ?c ?g ?k) with (k c g). cbv beta.
    seq_step.
    change (rmatch (Grp ?n ?a) ?c ?g ?k)
      with (rmatch a c g
              (fun c' g' =>
                 k c' ((n, firstn (c_pos c' - c_pos c) (c_rest c)) :: g'))).
    rewrite iso_day_match by assumption. seq_step. unfold ws1, plus. rep_step.
    eexists. apply mrep_greedy_run.
    - exact Hws.
    - left. destruct hh as [|h0 hh]; [discriminate|]. inversion Hh; subst.
      cbn [app]. now apply digit_not_space.
    - destruct ws; [contradiction|]. cbn [List.length]. lia.
    - exact I.
    - seq_step.
      change (rmatch (Grp ?n ?a) ?c ?g ?k)
        with (rmatch a c g
                (fun c' g' =>
                   k c' ((n, firstn (c_pos c' - c_pos c) (c_rest c)) :: g'))).
      seq_step. unfold d2 at 1. rewrite rmatch_exact by assumption. seq_step.
      unfold L at 1. rewrite rmatch_lit. seq_step. unfold d2 at 1.
      replace mi with (mi ++ []) at 1 by apply app_nil_r.
      rewrite rmatch_exact by assumption. eps_step. seq_step.
      change (rmatch (Eol false) ?c ?g ?k)
        with (if at_eol false c then k c g else None).
      cbn [at_eol c_rest]. eps_step. reflexivity. }
  destruct Hr as ([c' g] & Hr). unfold re_match, match_at. rewrite Hr.
  now eexists.
Qed.

Lemma stamp_text_chars (y mo d ws hh mi : str) :
  Forall (fun c => isdigit c = true) y ->
  Forall (fun c => isdigit c = true) mo ->
  Forall (fun c => isdigit c = true) d ->
  Forall (fun c => isdigit c = true) hh ->
  Forall (fun c => isdigit c = true) mi ->
  forall s,
    forallb (fun x => negb (isdigit x || one_of "-:" x)) (py s) = true ->
    Forall (fun c => none_of s c = true) ws ->
    Forall (fun c => none_of s c = true) (stamp_text y mo d ws hh mi).
Proof.
  intros Hy Hm Hd Hh Hi s Hs Hws.
  assert (Hdig : forall t, Forall (fun c => isdigit c = true) t ->
                           Forall (fun c => none_of s c = true) t).
  { intros t. apply Forall_impl. intros c Hc.
    apply (ok_none_of (fun x => isdigit x || one_of "-:" x)%bool);
      [now rewrite Hc|exact Hs]. }
  assert (Hlit : forall x, one_of "-:" x = true -> none_of s x = true).
  { intros x Hx.
    apply (ok_none_of (fun x => isdigit x || one_of "-:" x)%bool);
      [rewrite Hx; apply orb_true_r|exact Hs]. }
  unfold stamp_text, iso_text.
  repeat (apply Forall_app; split); auto;
    repeat constructor; apply Hlit; reflexivity.
Qed.

Lemma parse_date_stamp (y mo d ws hh mi : str) :
  Forall (fun c => isdigit c = true) y -> List.length y = 4 ->
  Forall (fun c => isdigit c = true) mo -> List.length mo = 2 ->
  Forall (fun c => isdigit c = true) d -> List.length d = 2 ->
  all_space ws -> ws <> [] ->
  Forall (fun c => isdigit c = true) hh -> List.length hh = 2 ->
  Forall (fun c => isdigit c = true) mi -> List.length mi = 2 ->
  parse_date (stamp_text y mo d ws hh mi) = Raise ValueError.
Proof.
  intros Hy Ly Hm Lm Hd Ld Hws Hne Hh Lh Hi Li.
  destruct (iso_time_match y mo d ws hh mi) as (m & Em); try assumption.
  set (ok := fun c => (isdigit c || one_of "-:" c || isspace c)%bool).
  assert (Hok : Forall (fun c => ok c = true) (stamp_text y mo d ws hh mi)).
  { assert (Hdig : forall t, Forall (fun c => isdigit c = true) t ->
                             Forall (fun c => ok c = true) t).
    { intros t. apply Forall_impl. intros c Hc. unfold ok. now rewrite Hc. }
    unfold stamp_text, iso_text.
    repeat (apply Forall_app; split); auto; try (repeat constructor).
    eapply Forall_impl; [|exact Hws]. intros c Hc. unfold ok.
    rewrite Hc. apply orb_true_r. }
  assert (Hweek : blocked ok week_re /\ blocked ok week_range_re).
  { unfold week_re, week_range_re, L. cbn [seqs fold_right blocked].
    split; right; left; lit_blocked (ch "W"). }
  destruct Hweek as (W1 & W2).
  unfold parse_date. rewrite not_ref.
  - rewrite (re_match_blocked ok week_re) by assumption.
    rewrite (re_match_blocked ok week_range_re) by assumption.
    rewrite Em. unpack_fails Em. reflexivity.
  - unfold stamp_text, iso_text.
    destruct y as [|a y]; [discriminate|]. inversion Hy; subst.
    now apply digit_neq.
Qed.

Lemma spaces_none_of (s : string) (t : str) :
  forallb (fun x => negb (isspace x)) (py s) = true ->
  all_space t -> Forall (fun c => none_of s c = true) t.
Proof.
  intros Hs. apply Forall_impl. intros c Hc.
  now apply (ok_none_of isspace).
Qed.

(** X25: an ISO date with a time, YYYY-MM-DD HH:MM, within a text of
    words in lower case makes [convert_dates] raise [ValueError]: the date
    pattern matches the date with its time, and [parse_date] unpacks the two
    groups of its pattern for a date with time into three names. *)
Theorem iso_datetime_raises (pre y mo d ws hh mi post : str) :
  Forall (fun c => word_char c = true) pre ->
  Forall (fun c => isdigit c = true) y -> List.length y = 4 ->
  Forall (fun c => isdigit c = true) mo -> List.length mo = 2 ->
  Forall (fun c => isdigit c = true) d -> List.length d = 2 ->
  all_space ws -> ws <> [] ->
  Forall (fun c => isdigit c = true) hh -> List.length hh = 2 ->
  Forall (fun c => isdigit c = true) mi -> List.length mi = 2 ->
  Forall (fun c => word_char c = true) post ->
  convert_dates (pre ++ stamp_text y mo d ws hh mi ++ post)
  = Raise ValueError.
Proof.
  intros Hpre Hy Ly Hm Lm Hd Ld Hws Hne Hh Lh Hi Li Hpost.
  unfold convert_dates.
  rewrite (re_sub_st_blocked (none_of "[/")); [|apply blocked_protect_plain|].
  - cbn [bind fst snd].
    rewrite (re_sub_span_raise date_pattern date_repl pre
               (stamp_text y mo d ws hh mi) post ValueError); [reflexivity| | |].
    + intros x rest pos prev Hin. apply match_at_cant_start.
      apply word_cant_start_date. rewrite Forall_forall in Hpre.
      now apply Hpre.
    + unfold stamp_text, iso_text. destruct y; discriminate.
    + intros pos prev. eexists. split.
      * apply date_pattern_span; [| |exact Hpost].
        -- unfold stamp_text, iso_text. destruct y as [|a y]; [discriminate|].
           now inversion Hy.
        -- intros k v Hk. now apply iso_span_stamp.
      * unfold date_repl. cbn [m_text].
        rewrite parse_date_stamp by assumption. reflexivity.
  - apply Forall_app. split; [apply words_none_of; [reflexivity|assumption]|].
    apply Forall_app. split; [|apply words_none_of; [reflexivity|assumption]].
    apply stamp_text_chars; try assumption; [reflexivity|].
    apply spaces_none_of; [reflexivity|exact Hws].
Qed.

Lemma iso_datetime_raises_witness :
  convert_dates
    (py "call at "
     ++ stamp_text (py "2024") (py "03") (py "05") (py " ") (py "14") (py "30")
     ++ py " today")
  = Raise ValueError.
Proof.
  apply (iso_datetime_raises (py "call at ") (py "2024") (py "03") (py "05")
           (py " ") (py "14") (py "30") (py " today")).
  - repeat constructor.
  - repeat constructor.
  - reflexivity.
  - repeat constructor.
  - reflexivity.
  - repeat constructor.
  - reflexivity.
  - repeat constructor.
  - discriminate.
  - repeat constructor.
  - reflexivity.
  - repeat constructor.
  - reflexivity.
  - repeat constructor.
Defined.
